(** * Alpenhorn client: the add-friend round engine (addfriend.go)

    A shallow embedding of the handlers of [addFriendMux] and of the
    request-matching code, with the properties of the engine's
    specification stated over it.

    Conventions of the embedding.
    - A Go pointer to a record that the engine compares by identity
      ([req != in] in [newFriend]) carries the address it was allocated
      at; the client keeps the allocation counter.
    - A slice that the code tests against [nil] is an [option (list _)];
      a slot of a slice of pointers is an [option], [None] being [nil].
    - Calls that leave the package (cryptography, the network, the disk,
      the source of randomness) are fields of the record [Env].
    - The handler locks ([c.mu], [st.mu]) are not represented: a handler
      is one sequential step.  Output to the log sink is not represented.
    - A handler's result is an [Outcome]: the state it leaves, the trace
      of calls to the application's [EventHandler] and to the
      connection, and whether it returned or panicked. *)

From Stdlib Require Import ZArith Lia Ascii String.
From stdpp Require Import gmap strings list.

Local Open Scope string_scope.
Local Open Scope list_scope.
Local Open Scope nat_scope.

Abbreviation bytes := (list Z).

(** ** Data model *)

(** pkg.PublicServerConfig and mixnet.PublicServerConfig: only the
    fields the engine reads. *)
Record PublicServerConfig := {
  Key : bytes;
  Address : string;
}.

(** coordinator.AlpenhornConfig, fields read by addfriend.go. *)
Record AlpenhornConfig := {
  PKGServers : list PublicServerConfig;
  MixServers : list PublicServerConfig;
  CDNServer : PublicServerConfig;
}.

(** pkg.Client as built in [loadAddFriendConfig]. *)
Record pkgClient := {
  pkgc_PublicServerConfig : PublicServerConfig;
  pkgc_Username : string;
  pkgc_LoginKey : bytes;
  pkgc_UserLongTermKey : bytes;
}.

(** A slot of [IdentitySigs] that was never assigned holds the zero
    value of bls.Signature, here [None]. *)
Record addFriendRoundState := {
  Round : Z;
  Config : AlpenhornConfig;
  ServerMasterKeys : option (list (option bytes));
  PrivateKeys : option (list (option bytes));
  ServerBLSKeys : option (list (option bytes));
  IdentitySigs : option (list (option bytes));
}.

Record OutgoingFriendRequest := {
  out_Username : string;
  out_ExpectedKey : option bytes;
  out_Confirmation : bool;
  out_DialRound : Z;
}.

Record sentFriendRequest := {
  sent_ptr : nat;
  sent_Username : string;
  sent_ExpectedKey : option bytes;
  sent_Confirmation : bool;
  sent_DialRound : Z;
  sent_SentRound : Z;
  sent_DHPublicKey : bytes;
  sent_DHPrivateKey : bytes;
}.

Record IncomingFriendRequest := {
  in_ptr : nat;
  in_Username : string;
  in_LongTermKey : bytes;
  in_DHPublicKey : bytes;
  in_DialRound : Z;
  in_Verifiers : list PublicServerConfig;
}.

Record Friend := {
  fr_Username : string;
  fr_LongTermKey : bytes;
}.

(** The wire object of the add-friend protocol. *)
Record introduction := {
  intro_Username : bytes;
  intro_DHPublicKey : bytes;
  intro_LongTermKey : bytes;
  intro_DialingRound : Z;
  intro_ServerMultisig : bytes;
  intro_Signature : bytes;
}.

(** The part of [Client] that addfriend.go reads or writes.  A nil
    [registrations] map reads like the empty map and is replaced by
    [make] before the first write, so it is the empty [gmap].
    [wheel] holds, for each friend, the base round and the secret the
    keywheel was seeded with. *)
Record Client := {
  Username : string;
  LongTermPublicKey : bytes;
  LongTermPrivateKey : bytes;
  PKGLoginKey : bytes;
  wheel : gmap string (Z * bytes);
  lastDialingRound : Z;
  addFriendRounds : gmap Z addFriendRoundState;
  addFriendConfigHash : string;
  addFriendConfig : AlpenhornConfig;
  registrations : gmap string pkgClient;
  friends : gmap string Friend;
  incomingFriendRequests : list IncomingFriendRequest;
  outgoingFriendRequests : list OutgoingFriendRequest;
  sentFriendRequests : list sentFriendRequest;
  heap_next : nat;
}.

(** Messages of the coordinator. *)
Record NewRound := {
  nr_Round : Z;
  nr_ConfigHash : string;
}.

Record RoundSettings := {
  rs_MasterPublicKey : option bytes;
  rs_BLSPublicKey : option bytes;
}.

Record PKGRound := {
  pr_Round : Z;
  pr_PKGSettings : gmap string RoundSettings;
}.

Record MixSettings := {
  ms_Round : Z;
  ms_NumMailboxes : Z;
  ms_OnionKeys : list bytes;
}.

Record MixRound := {
  mr_MixSettings : MixSettings;
  mr_MixSignatures : list bytes;
}.

Record MailboxURL := {
  mu_Round : Z;
  mu_URL : string;
  mu_NumMailboxes : Z;
}.

Record ExtractResult := {
  er_PrivateKey : option bytes;
  er_IdentitySig : bytes;
}.

Record Attestation := {
  AttestKey : option bytes;
  UserIdentity : bytes;
  UserLongTermKey : bytes;
}.

(** Error codes of package pkg that the code under study names. *)
Inductive pkgErrorCode :=
  | ErrBadRequestJSON
  | ErrInvalidUsername
  | ErrNotRegistered
  | ErrNotVerified
  | ErrInvalidSignature.

(** A Go [error] returned by the PKG client: a [pkg.Error] with its
    code, or some other error. *)
Inductive goError :=
  | PkgError (code : pkgErrorCode) (msg : string)
  | OtherError (msg : string).

(** What the engine hands to [c.Handler.Error]. *)
Inductive engineError :=
  | DifferentConfigs (round : Z)
  | FetchingConfig (cause : string)
  | RegisterFailed (cause : goError) (address : string)
  | CheckStatusFailed (cause : goError) (address : string)
  | RoundNotConfigured (fn : string) (round : Z)
  | VerifyPKGSettingsFailed (round : Z)
  | NoRegistration (address : string)
  | ExtractFailed (round : Z) (address : string) (cause : string)
  | VerifyMixSettingsFailed (round : Z) (key : bytes)
  | FetchingMailbox (cause : string)
  | PersistError (cause : string).

Record OnionMsg := {
  om_Round : Z;
  om_Onion : bytes;
}.

(** One observable call made by a handler. *)
Inductive Effect :=
  | HandlerError (e : engineError)
  | HandlerConfirmedFriend (f : Friend)
  | HandlerSentFriendRequest (r : OutgoingFriendRequest)
  | HandlerReceivedFriendRequest (r : IncomingFriendRequest)
  | HandlerUnexpectedSigningKey (i : IncomingFriendRequest) (o : OutgoingFriendRequest)
  | ConnSend (msgID : string) (m : OnionMsg).

Inductive Outcome :=
  | Returned (c : Client) (tr : list Effect)
  | Panicked (msg : string) (c : Client) (tr : list Effect).

Definition out_client (o : Outcome) : Client :=
  match o with Returned c _ | Panicked _ c _ => c end.

Definition out_trace (o : Outcome) : list Effect :=
  match o with Returned _ tr | Panicked _ _ tr => tr end.

Definition panicked (o : Outcome) : bool :=
  match o with Returned _ _ => false | Panicked _ _ _ => true end.

(** ** The environment: everything addfriend.go calls outside itself *)

Record Env := {
  (* coordinator / config *)
  config_Hash : AlpenhornConfig → string;
  fetchAndVerifyConfig : AlpenhornConfig → string → AlpenhornConfig + string;
  (* PKG client *)
  regid : bytes → string → string;
  pkg_CheckStatus : pkgClient → option goError;
  pkg_Register : pkgClient → option goError;
  pkg_Extract : pkgClient → Z → ExtractResult + string;
  PKGSettings_Verify : gmap string RoundSettings → Z → list bytes → bool;
  ValidUsernameToIdentity : string → bytes;
  IdentityToUsername : bytes → string;
  attestation_Marshal : Attestation → bytes;
  (* persistence *)
  persistLocked : Client → option string;
  (* encodings *)
  hex_EncodeToString : bytes → string;
  SigningMessage : MixSettings → bytes;
  intro_MarshalBinary : introduction → bytes + string;
  intro_UnmarshalBinary : bytes → option introduction;
  ciphertext_MarshalBinary : bytes → bytes + string;
  ciphertext_UnmarshalBinary : bytes → option bytes;
  SizeEncryptedIntro : nat;
  (* cryptography; the first argument of a randomized call is the
     entropy it draws from rand.Reader *)
  ed25519_Verify : bytes → bytes → bytes → bool;
  bls_Verify : list (option bytes) → list bytes → bytes → bool;
  bls_Aggregate_Compress : list (option bytes) → bytes;
  box_GenerateKey : bytes → (bytes * bytes) + string;
  box_Precompute : bytes → bytes → bytes;
  intro_Sign : introduction → bytes → introduction;
  intro_Verify_multisig : introduction → list (option bytes) → bool;
  intro_Verify_signature : introduction → bool;
  ibe_AggregateMaster : list (option bytes) → bytes;
  ibe_AggregatePrivate : list (option bytes) → bytes;
  ibe_Encrypt : bytes → bytes → bytes → bytes → bytes;
  ibe_Decrypt : bytes → bytes → option bytes;
  onionbox_Seal : bytes → bytes → bytes → list bytes → bytes;
  siphash_key : bytes;
  siphash_Hash : bytes → bytes → Z;
  (* CDN *)
  fetchMailbox : PublicServerConfig → string → Z → bytes + string;
}.

(** Functional record update for the fields the handlers write. *)
Definition set_addFriendRounds (m : gmap Z addFriendRoundState) (c : Client) : Client :=
  {| Username := Username c; LongTermPublicKey := LongTermPublicKey c;
     LongTermPrivateKey := LongTermPrivateKey c; PKGLoginKey := PKGLoginKey c;
     wheel := wheel c; lastDialingRound := lastDialingRound c;
     addFriendRounds := m;
     addFriendConfigHash := addFriendConfigHash c;
     addFriendConfig := addFriendConfig c;
     registrations := registrations c; friends := friends c;
     incomingFriendRequests := incomingFriendRequests c;
     outgoingFriendRequests := outgoingFriendRequests c;
     sentFriendRequests := sentFriendRequests c;
     heap_next := heap_next c |}.

Definition set_addFriendConfig (cfg : AlpenhornConfig) (h : string) (c : Client) : Client :=
  {| Username := Username c; LongTermPublicKey := LongTermPublicKey c;
     LongTermPrivateKey := LongTermPrivateKey c; PKGLoginKey := PKGLoginKey c;
     wheel := wheel c; lastDialingRound := lastDialingRound c;
     addFriendRounds := addFriendRounds c;
     addFriendConfigHash := h;
     addFriendConfig := cfg;
     registrations := registrations c; friends := friends c;
     incomingFriendRequests := incomingFriendRequests c;
     outgoingFriendRequests := outgoingFriendRequests c;
     sentFriendRequests := sentFriendRequests c;
     heap_next := heap_next c |}.

Definition set_registrations (r : gmap string pkgClient) (c : Client) : Client :=
  {| Username := Username c; LongTermPublicKey := LongTermPublicKey c;
     LongTermPrivateKey := LongTermPrivateKey c; PKGLoginKey := PKGLoginKey c;
     wheel := wheel c; lastDialingRound := lastDialingRound c;
     addFriendRounds := addFriendRounds c;
     addFriendConfigHash := addFriendConfigHash c;
     addFriendConfig := addFriendConfig c;
     registrations := r; friends := friends c;
     incomingFriendRequests := incomingFriendRequests c;
     outgoingFriendRequests := outgoingFriendRequests c;
     sentFriendRequests := sentFriendRequests c;
     heap_next := heap_next c |}.

Definition set_outgoingFriendRequests (q : list OutgoingFriendRequest) (c : Client) : Client :=
  {| Username := Username c; LongTermPublicKey := LongTermPublicKey c;
     LongTermPrivateKey := LongTermPrivateKey c; PKGLoginKey := PKGLoginKey c;
     wheel := wheel c; lastDialingRound := lastDialingRound c;
     addFriendRounds := addFriendRounds c;
     addFriendConfigHash := addFriendConfigHash c;
     addFriendConfig := addFriendConfig c;
     registrations := registrations c; friends := friends c;
     incomingFriendRequests := incomingFriendRequests c;
     outgoingFriendRequests := q;
     sentFriendRequests := sentFriendRequests c;
     heap_next := heap_next c |}.

Definition set_sentFriendRequests (q : list sentFriendRequest) (c : Client) : Client :=
  {| Username := Username c; LongTermPublicKey := LongTermPublicKey c;
     LongTermPrivateKey := LongTermPrivateKey c; PKGLoginKey := PKGLoginKey c;
     wheel := wheel c; lastDialingRound := lastDialingRound c;
     addFriendRounds := addFriendRounds c;
     addFriendConfigHash := addFriendConfigHash c;
     addFriendConfig := addFriendConfig c;
     registrations := registrations c; friends := friends c;
     incomingFriendRequests := incomingFriendRequests c;
     outgoingFriendRequests := outgoingFriendRequests c;
     sentFriendRequests := q;
     heap_next := heap_next c |}.

Definition set_incomingFriendRequests (q : list IncomingFriendRequest) (c : Client) : Client :=
  {| Username := Username c; LongTermPublicKey := LongTermPublicKey c;
     LongTermPrivateKey := LongTermPrivateKey c; PKGLoginKey := PKGLoginKey c;
     wheel := wheel c; lastDialingRound := lastDialingRound c;
     addFriendRounds := addFriendRounds c;
     addFriendConfigHash := addFriendConfigHash c;
     addFriendConfig := addFriendConfig c;
     registrations := registrations c; friends := friends c;
     incomingFriendRequests := q;
     outgoingFriendRequests := outgoingFriendRequests c;
     sentFriendRequests := sentFriendRequests c;
     heap_next := heap_next c |}.

Definition set_heap_next (n : nat) (c : Client) : Client :=
  {| Username := Username c; LongTermPublicKey := LongTermPublicKey c;
     LongTermPrivateKey := LongTermPrivateKey c; PKGLoginKey := PKGLoginKey c;
     wheel := wheel c; lastDialingRound := lastDialingRound c;
     addFriendRounds := addFriendRounds c;
     addFriendConfigHash := addFriendConfigHash c;
     addFriendConfig := addFriendConfig c;
     registrations := registrations c; friends := friends c;
     incomingFriendRequests := incomingFriendRequests c;
     outgoingFriendRequests := outgoingFriendRequests c;
     sentFriendRequests := sentFriendRequests c;
     heap_next := n |}.

(** The effect of [newFriend] on the store: keywheel entry, friends
    map and both queues in one write. *)
Definition set_friendship (w : gmap string (Z * bytes)) (f : gmap string Friend)
    (qi : list IncomingFriendRequest) (qs : list sentFriendRequest) (c : Client) : Client :=
  {| Username := Username c; LongTermPublicKey := LongTermPublicKey c;
     LongTermPrivateKey := LongTermPrivateKey c; PKGLoginKey := PKGLoginKey c;
     wheel := w; lastDialingRound := lastDialingRound c;
     addFriendRounds := addFriendRounds c;
     addFriendConfigHash := addFriendConfigHash c;
     addFriendConfig := addFriendConfig c;
     registrations := registrations c; friends := f;
     incomingFriendRequests := qi;
     outgoingFriendRequests := outgoingFriendRequests c;
     sentFriendRequests := qs;
     heap_next := heap_next c |}.

Definition newRoundState (r : Z) (cfg : AlpenhornConfig) : addFriendRoundState :=
  {| Round := r; Config := cfg;
     ServerMasterKeys := None; PrivateKeys := None;
     ServerBLSKeys := None; IdentitySigs := None |}.

(** ** The handlers *)

Section Engine.

Context (E : Env).

(** *** newround *)

(** The body of the loop of [loadAddFriendConfig] over
    [config.PKGServers]: a server already registered is skipped, one
    whose status check succeeds is recorded, one that does not know the
    user is registered with, and every other error goes to the
    application. *)
Fixpoint registerLoop (servers : list PublicServerConfig) (c : Client)
    : Client * list Effect :=
  match servers with
  | [] => (c, [])
  | pkgServer :: rest =>
      let id := regid E (Key pkgServer) (Username c) in
      match registrations c !! id with
      | Some _ => registerLoop rest c
      | None =>
          let pkgc := {| pkgc_PublicServerConfig := pkgServer;
                         pkgc_Username := Username c;
                         pkgc_LoginKey := PKGLoginKey c;
                         pkgc_UserLongTermKey := LongTermPublicKey c |} in
          match pkg_CheckStatus E pkgc with
          | None =>
              registerLoop rest (set_registrations (<[id:=pkgc]> (registrations c)) c)
          | Some (PkgError ErrNotRegistered m) =>
              match pkg_Register E pkgc with
              | Some err =>
                  let '(c', tr) := registerLoop rest c in
                  (c', HandlerError (RegisterFailed err (Address pkgServer)) :: tr)
              | None =>
                  registerLoop rest (set_registrations (<[id:=pkgc]> (registrations c)) c)
              end
          | Some err =>
              let '(c', tr) := registerLoop rest c in
              (c', HandlerError (CheckStatusFailed err (Address pkgServer)) :: tr)
          end
      end
  end.

Definition loadAddFriendConfig (c : Client) (config : AlpenhornConfig) : Outcome :=
  let c1 := set_addFriendConfig config (config_Hash E config) c in
  let '(c2, tr) := registerLoop (PKGServers config) c1 in
  match persistLocked E c2 with
  | Some err => Panicked ("failed to persist state: " +:+ err) c2 tr
  | None => Returned c2 tr
  end.

Definition newAddFriendRound (c : Client) (v : NewRound) : Outcome :=
  match addFriendRounds c !! nr_Round v with
  | Some st =>
      if decide (config_Hash E (Config st) = nr_ConfigHash v)
      then Returned c []
      else Returned c [HandlerError (DifferentConfigs (nr_Round v))]
  | None =>
      if decide (nr_ConfigHash v = addFriendConfigHash c)
      then
        Returned
          (set_addFriendRounds
             (<[nr_Round v := newRoundState (nr_Round v) (addFriendConfig c)]>
                (addFriendRounds c)) c) []
      else
        match fetchAndVerifyConfig E (addFriendConfig c) (nr_ConfigHash v) with
        | inr err => Returned c [HandlerError (FetchingConfig err)]
        | inl config =>
            loadAddFriendConfig
              (set_addFriendRounds
                 (<[nr_Round v := newRoundState (nr_Round v) config]>
                    (addFriendRounds c)) c)
              config
        end
  end.

(** *** pkg *)

(** [a[i] = x] on a slice that may be nil. *)
Definition store {A} (i : nat) (x : A) (a : option (list A)) : option (list A) :=
  (λ l, <[i:=x]> l) <$> a.

(** [a[i:i+1]]. *)
Definition slice1 {A} (i : nat) (a : option (list A)) : list A :=
  take 1 (drop i (default [] a)).

Definition set_keys (i : nat) (mk bk pk : option bytes) (st : addFriendRoundState)
    : addFriendRoundState :=
  {| Round := Round st; Config := Config st;
     ServerMasterKeys := store i mk (ServerMasterKeys st);
     PrivateKeys := store i pk (PrivateKeys st);
     ServerBLSKeys := store i bk (ServerBLSKeys st);
     IdentitySigs := IdentitySigs st |}.

Definition set_sig (i : nat) (sg : bytes) (st : addFriendRoundState)
    : addFriendRoundState :=
  {| Round := Round st; Config := Config st;
     ServerMasterKeys := ServerMasterKeys st;
     PrivateKeys := PrivateKeys st;
     ServerBLSKeys := ServerBLSKeys st;
     IdentitySigs := store i (Some sg) (IdentitySigs st) |}.

(** The four [make] calls. *)
Definition allocKeys (st : addFriendRoundState) : addFriendRoundState :=
  let numPKGs := length (PKGServers (Config st)) in
  {| Round := Round st; Config := Config st;
     ServerMasterKeys := Some (replicate numPKGs None);
     PrivateKeys := Some (replicate numPKGs None);
     ServerBLSKeys := Some (replicate numPKGs None);
     IdentitySigs := Some (replicate numPKGs None) |}.

Definition zeroRoundSettings : RoundSettings :=
  {| rs_MasterPublicKey := None; rs_BLSPublicKey := None |}.

Definition set_UserLongTermKey (k : bytes) (p : pkgClient) : pkgClient :=
  {| pkgc_PublicServerConfig := pkgc_PublicServerConfig p;
     pkgc_Username := pkgc_Username p;
     pkgc_LoginKey := pkgc_LoginKey p;
     pkgc_UserLongTermKey := k |}.

(** How the loop of [extractPKGKeys] ends: at the end of the server
    list, or through one of its three [return] statements, at index
    [i]. *)
Inductive loopExit :=
  | RanToEnd
  | MissingRegistration (i : nat)
  | ExtractError (i : nat)
  | BadIdentitySig (i : nat).

(** The loop of [extractPKGKeys] from index [i] on. *)
Fixpoint extractLoop (v : PKGRound) (id : bytes) (i : nat)
    (servers : list PublicServerConfig) (c : Client) (st : addFriendRoundState)
    : Client * addFriendRoundState * list Effect * loopExit :=
  match servers with
  | [] => (c, st, [], RanToEnd)
  | pkgServer :: rest =>
      let rid := regid E (Key pkgServer) (Username c) in
      match registrations c !! rid with
      | None =>
          (c, st, [HandlerError (NoRegistration (Address pkgServer))],
           MissingRegistration i)
      | Some pkgc0 =>
          let pkgc := set_UserLongTermKey (LongTermPublicKey c) pkgc0 in
          let c1 := set_registrations (<[rid:=pkgc]> (registrations c)) c in
          match pkg_Extract E pkgc (pr_Round v) with
          | inr err =>
              (c1, st,
               [HandlerError
                  (ExtractFailed (pr_Round v)
                     (Address (pkgc_PublicServerConfig pkgc)) err)],
               ExtractError i)
          | inl extractResult =>
              let hexkey := hex_EncodeToString E (Key (pkgc_PublicServerConfig pkgc)) in
              let settings := default zeroRoundSettings (pr_PKGSettings v !! hexkey) in
              let st1 := set_keys i (rs_MasterPublicKey settings)
                           (rs_BLSPublicKey settings)
                           (er_PrivateKey extractResult) st in
              let attestation := {| AttestKey := rs_BLSPublicKey settings;
                                    UserIdentity := id;
                                    UserLongTermKey := LongTermPublicKey c |} in
              if bls_Verify E (slice1 i (ServerBLSKeys st1))
                   [attestation_Marshal E attestation]
                   (er_IdentitySig extractResult)
              then
                extractLoop v id (S i) rest c1
                  (set_sig i (er_IdentitySig extractResult) st1)
              else (c1, st1, [], BadIdentitySig i)
          end
      end
  end.

(** [st] points into [c.addFriendRounds]: what the loop wrote through
    it is stored back under the round when the handler returns. *)
Definition extractPKGKeys (c : Client) (v : PKGRound) : Outcome :=
  match addFriendRounds c !! pr_Round v with
  | None => Returned c [HandlerError (RoundNotConfigured "extractPKGKeys" (pr_Round v))]
  | Some st =>
      match PrivateKeys st with
      | Some _ => Returned c []
      | None =>
          let pkgKeys := Key <$> PKGServers (Config st) in
          if PKGSettings_Verify E (pr_PKGSettings v) (pr_Round v) pkgKeys
          then
            let id := ValidUsernameToIdentity E (Username c) in
            let '(c1, st1, tr, _) :=
              extractLoop v id 0 (PKGServers (Config st)) c (allocKeys st) in
            Returned
              (set_addFriendRounds (<[pr_Round v := st1]> (addFriendRounds c1)) c1) tr
          else Returned c [HandlerError (VerifyPKGSettingsFailed (pr_Round v))]
      end
  end.

(** *** Matching sent and incoming requests *)

Definition matches (inReq : IncomingFriendRequest) (sentReq : sentFriendRequest) : Prop :=
  in_Username inReq = sent_Username sentReq ∧ in_DialRound inReq = sent_DialRound sentReq.

Fixpoint matchToIncoming_loop (q : list IncomingFriendRequest)
    (sentReq : sentFriendRequest) : option IncomingFriendRequest :=
  match q with
  | [] => None
  | inReq :: rest =>
      if decide (in_Username inReq = sent_Username sentReq
                 ∧ in_DialRound inReq = sent_DialRound sentReq)
      then Some inReq
      else matchToIncoming_loop rest sentReq
  end.

Definition matchToIncoming (c : Client) (sentReq : sentFriendRequest)
    : option IncomingFriendRequest :=
  matchToIncoming_loop (incomingFriendRequests c) sentReq.

Fixpoint matchToSent_loop (q : list sentFriendRequest)
    (inReq : IncomingFriendRequest) : option sentFriendRequest :=
  match q with
  | [] => None
  | sentReq :: rest =>
      if decide (in_Username inReq = sent_Username sentReq
                 ∧ in_DialRound inReq = sent_DialRound sentReq)
      then Some sentReq
      else matchToSent_loop rest inReq
  end.

Definition matchToSent (c : Client) (inReq : IncomingFriendRequest)
    : option sentFriendRequest :=
  matchToSent_loop (sentFriendRequests c) inReq.

(** Modelled from the spec: package keywheel is not part of the
    sources.  Section 4.A: Put(friend, base-round, shared-secret) seeds
    the wheel with a secret valid from base-round. *)
Definition wheel_Put (friend : string) (baseRound : Z) (secret : bytes)
    (w : gmap string (Z * bytes)) : gmap string (Z * bytes) :=
  <[friend := (baseRound, secret)]> w.

(** [newFriend]: the two in-place filters compare pointers. *)
Definition newFriend (c : Client) (inReq : IncomingFriendRequest)
    (sent : sentFriendRequest) : Client * list Effect :=
  let sharedKey := box_Precompute E (in_DHPublicKey inReq) (sent_DHPrivateKey sent) in
  let friend := {| fr_Username := in_Username inReq;
                   fr_LongTermKey := in_LongTermKey inReq |} in
  let newIn := filter (λ req, in_ptr req ≠ in_ptr inReq) (incomingFriendRequests c) in
  let newSent := filter (λ req, sent_ptr req ≠ sent_ptr sent) (sentFriendRequests c) in
  let c1 :=
    set_friendship
      (wheel_Put (in_Username inReq) (in_DialRound inReq) sharedKey (wheel c))
      (<[in_Username inReq := friend]> (friends c))
      newIn newSent c in
  let persistError :=
    match persistLocked E c1 with
    | Some err => [HandlerError (PersistError err)]
    | None => []
    end in
  (c1, persistError ++ [HandlerConfirmedFriend friend]).

(** *** mix *)

(** Modelled from the spec: [usernameToMailbox] is called by
    addfriend.go but defined in a file that is not part of the sources.
    Section 4.B: mailbox(username, N) = siphash(k, ValidUsernameToIdentity
    (username)) mod N, and the empty username maps to mailbox N. *)
Definition usernameToMailbox (username : string) (numMailboxes : Z) : Z :=
  if decide (username = "") then numMailboxes
  else (siphash_Hash E (siphash_key E) (ValidUsernameToIdentity E username)
        `mod` numMailboxes)%Z.

Record MixMessage := {
  mm_Mailbox : Z;
  mm_EncryptedIntro : bytes;
}.

Fixpoint le_bytes (width : nat) (n : Z) : bytes :=
  match width with
  | O => []
  | S w => Z.land n 255 :: le_bytes w (Z.shiftr n 8)
  end.

(** Modelled from the spec: addfriend.MixMessage and its MarshalBinary
    are not part of the sources.  Section 6: mailbox[8] followed by
    encrypted-intro[SizeEncryptedIntro].  The byte order of the mailbox
    field is not fixed there; little-endian is taken, as for the
    introduction, and no statement below depends on it. *)
Definition MixMessage_MarshalBinary (m : MixMessage) : bytes :=
  le_bytes 8 (mm_Mailbox m) ++ mm_EncryptedIntro m.

Definition byte (z : Z) : Z := Z.land z 255.

(** What can be seen of lines 249 to 257 without looking at the data:
    the calls into the libraries, in the order of the code, and the
    loads and stores of the loop of [ConstantTimeCopy] on its
    destination [x] and its source [y]. *)
Inductive mixStep :=
  | CallAggregate
  | CallValidUsernameToIdentity
  | CallMarshalBinary
  | CallEncrypt
  | CallUsernameToMailbox
  | LoadX (i : nat)
  | LoadY (i : nat)
  | StoreX (i : nat).

(** A computation that records its steps and may panic: the steps
    taken, and the result or the message of the panic. *)
Definition Steps (A : Type) : Type := list mixStep * (A + string).

#[global] Instance Steps_ret : MRet Steps := λ A a, ([], inl a).

#[global] Instance Steps_bind : MBind Steps := λ A B f m,
  match m with
  | (tr, inr msg) => (tr, inr msg)
  | (tr, inl a) => let '(tr', r) := f a in (tr ++ tr', r)
  end.

(** A call that returns [a]. *)
Definition call {A : Type} (s : mixStep) (a : A) : Steps A := ([s], inl a).

(** The loop of [ConstantTimeCopy] from index [i] on:
    [x[i] = x[i]&xmask | y[i]&ymask]. *)
Fixpoint copyLoop (xmask ymask : Z) (i : nat) (x y : bytes) : list mixStep * bytes :=
  match x, y with
  | xi :: x', yi :: y' =>
      let '(tr, out) := copyLoop xmask ymask (S i) x' y' in
      (LoadX i :: LoadY i :: StoreX i :: tr,
       Z.lor (Z.land xi xmask) (Z.land yi ymask) :: out)
  | _, _ => ([], [])
  end.

(** crypto/subtle.ConstantTimeCopy of the Go library: panics when the
    lengths differ; otherwise every byte of [x] becomes
    [x[i]&xmask | y[i]&ymask] with xmask = byte(v-1) and
    ymask = byte(^(v-1)).  The result is the new content of [x]. *)
Definition ConstantTimeCopy_steps (v : Z) (x y : bytes) : Steps bytes :=
  if decide (length x = length y) then
    let xmask := byte (v - 1) in
    let ymask := byte (Z.lnot (v - 1)) in
    let '(tr, out) := copyLoop xmask ymask 0 x y in
    (tr, inl out)
  else ([], inr "subtle: slices have different lengths").

(** The new content of [x], or [None] for the panic. *)
Definition ConstantTimeCopy (v : Z) (x y : bytes) : option bytes :=
  match (ConstantTimeCopy_steps v x y).2 with
  | inl out => Some out
  | inr _ => None
  end.

Definition zeroNonce : bytes := replicate 24 0%Z.

Inductive sigCheck :=
  | SigsOk
  | SigBad (key : bytes)
  | SigIndexOutOfRange.

(** The loop over [st.Config.MixServers]; [v.MixSignatures[i]] panics
    when there are fewer signatures than mixers. *)
Fixpoint verifyMixSignatures (settingsMsg : bytes) (sigs : list bytes) (i : nat)
    (mixers : list PublicServerConfig) : sigCheck :=
  match mixers with
  | [] => SigsOk
  | mixer :: rest =>
      match sigs !! i with
      | None => SigIndexOutOfRange
      | Some sg =>
          if ed25519_Verify E (Key mixer) settingsMsg sg
          then verifyMixSignatures settingsMsg sigs (S i) rest
          else SigBad (Key mixer)
      end
  end.

Definition coverRequest : OutgoingFriendRequest :=
  {| out_Username := ""; out_ExpectedKey := None;
     out_Confirmation := false; out_DialRound := 0 |}.

Definition nextOutgoingFriendRequest (c : Client) : OutgoingFriendRequest * Client :=
  match outgoingFriendRequests c with
  | req :: rest => (req, set_outgoingFriendRequests rest c)
  | [] => (coverRequest, c)
  end.

(** [genIntro]; [inr] is the panic after a failed [box.GenerateKey].
    The sent request is a fresh object: it takes the next address.  The
    three [copy] calls fill fixed-size arrays from sources of the same
    size and are plain assignments here. *)
Definition genIntro (rnd : bytes) (c : Client) (st : addFriendRoundState)
    (out : OutgoingFriendRequest) : (introduction * sentFriendRequest * Client) + string :=
  match box_GenerateKey E rnd with
  | inr err => inr ("box.GenerateKey: " +:+ err)
  | inl (dhPublic, dhPrivate) =>
      let dialRound :=
        if out_Confirmation out then out_DialRound out else lastDialingRound c in
      let sent := {| sent_ptr := heap_next c;
                     sent_Username := out_Username out;
                     sent_ExpectedKey := out_ExpectedKey out;
                     sent_Confirmation := out_Confirmation out;
                     sent_DialRound := dialRound;
                     sent_SentRound := Round st;
                     sent_DHPublicKey := dhPublic;
                     sent_DHPrivateKey := dhPrivate |} in
      let intro := {| intro_Username := ValidUsernameToIdentity E (Username c);
                      intro_DHPublicKey := dhPublic;
                      intro_LongTermKey := LongTermPublicKey c;
                      intro_DialingRound := dialRound;
                      intro_ServerMultisig :=
                        bls_Aggregate_Compress E (default [] (IdentitySigs st));
                      intro_Signature := [] |} in
      inl (intro_Sign E intro (LongTermPrivateKey c), sent,
           set_heap_next (S (heap_next c)) c)
  end.

Definition isRealOf (sentReq : sentFriendRequest) : Z :=
  if decide (sent_Username sentReq ≠ "") then 1%Z else 0%Z.

(** [mustMarshal] applied to the result of a [MarshalBinary]: an
    error is a panic. *)
Definition mustMarshal (r : bytes + string) : Steps bytes :=
  ([CallMarshalBinary],
   match r with
   | inl data => inl data
   | inr err => inr ("marshalling error: " +:+ err)
   end).

(** Lines 242 to 257 of [sendAddFriendOnion], with the steps they
    take: from the introduction and the sent request to the mix
    message.  [new(addfriend.MixMessage)] gives the zeroed payload
    buffer that [ConstantTimeCopy] writes to.  A panic is one of
    [mustMarshal] or of [ConstantTimeCopy]. *)
Definition mixMessageSteps (rnd : bytes) (st : addFriendRoundState)
    (intro : introduction) (sentReq : sentFriendRequest) (numMailboxes : Z)
    : Steps MixMessage :=
  let isReal := isRealOf sentReq in
  masterKey ← call CallAggregate
                 (ibe_AggregateMaster E (default [] (ServerMasterKeys st)));
  id ← call CallValidUsernameToIdentity
          (ValidUsernameToIdentity E (sent_Username sentReq));
  introBytes ← mustMarshal (intro_MarshalBinary E intro);
  encIntro ← call CallEncrypt (ibe_Encrypt E rnd masterKey id introBytes);
  encIntroBytes ← mustMarshal (ciphertext_MarshalBinary E encIntro);
  mailbox ← call CallUsernameToMailbox
               (usernameToMailbox (sent_Username sentReq) numMailboxes);
  buf ← ConstantTimeCopy_steps isReal
          (replicate (SizeEncryptedIntro E) 0%Z) encIntroBytes;
  mret {| mm_Mailbox := mailbox; mm_EncryptedIntro := buf |}.

(** The mix message built by these lines, or the message of the
    panic. *)
Definition buildMixMessage (rnd : bytes) (st : addFriendRoundState)
    (intro : introduction) (sentReq : sentFriendRequest) (numMailboxes : Z)
    : MixMessage + string :=
  (mixMessageSteps rnd st intro sentReq numMailboxes).2.

(** Lines 267 to 277: what follows [conn.Send]. *)
Definition afterSend (c : Client) (outgoingReq : OutgoingFriendRequest)
    (sentReq : sentFriendRequest) : Client * list Effect :=
  if decide (sent_Username sentReq ≠ "") then
    match matchToIncoming c sentReq with
    | Some inReq =>
        let '(c', tr) := newFriend c inReq sentReq in
        (c', HandlerSentFriendRequest outgoingReq :: tr)
    | None =>
        (set_sentFriendRequests (sentFriendRequests c ++ [sentReq]) c,
         [HandlerSentFriendRequest outgoingReq])
    end
  else (c, []).

Definition sendAddFriendOnion (rnd : bytes) (c : Client) (v : MixRound) : Outcome :=
  let round := ms_Round (mr_MixSettings v) in
  match addFriendRounds c !! round with
  | None => Returned c [HandlerError (RoundNotConfigured "sendAddFriendOnion" round)]
  | Some st =>
      let settingsMsg := SigningMessage E (mr_MixSettings v) in
      match verifyMixSignatures settingsMsg (mr_MixSignatures v) 0
              (MixServers (Config st)) with
      | SigIndexOutOfRange => Panicked "index out of range" c []
      | SigBad key => Returned c [HandlerError (VerifyMixSettingsFailed round key)]
      | SigsOk =>
          let '(outgoingReq, c1) := nextOutgoingFriendRequest c in
          match genIntro rnd c1 st outgoingReq with
          | inr msg => Panicked msg c1 []
          | inl (intro, sentReq, c2) =>
              match buildMixMessage rnd st intro sentReq
                      (ms_NumMailboxes (mr_MixSettings v)) with
              | inr msg => Panicked msg c2 []
              | inl mixMessage =>
                  let onion := onionbox_Seal E rnd (MixMessage_MarshalBinary mixMessage)
                                 zeroNonce (ms_OnionKeys (mr_MixSettings v)) in
                  let omsg := {| om_Round := round; om_Onion := onion |} in
                  let '(c3, tr) := afterSend c2 outgoingReq sentReq in
                  Returned c3 (ConnSend "onion" omsg :: tr)
              end
          end
      end
  end.

(** *** mailbox *)

(** Modelled from the spec: [introduction.Verify] is not part of the
    sources.  Section 4.F, mailbox: verify the BLS multisig over the
    attestation against the round's PKG BLS keys, and verify the
    ed25519 signature under the claimed long-term key. *)
Definition intro_Verify (intro : introduction) (multisigKeys : list (option bytes)) : bool :=
  intro_Verify_multisig E intro multisigKeys && intro_Verify_signature E intro.

Definition decodeAddFriendMessage (c : Client) (msg : bytes)
    (verifiers : list PublicServerConfig) (multisigKeys : list (option bytes))
    : Client * list Effect :=
  match intro_UnmarshalBinary E msg with
  | None => (c, [])
  | Some intro =>
      if intro_Verify intro multisigKeys then
        let req := {| in_ptr := heap_next c;
                      in_Username := IdentityToUsername E (intro_Username intro);
                      in_LongTermKey := intro_LongTermKey intro;
                      in_DHPublicKey := intro_DHPublicKey intro;
                      in_DialRound := intro_DialingRound intro;
                      in_Verifiers := verifiers |} in
        let c1 := set_heap_next (S (heap_next c)) c in
        match matchToSent c1 req with
        | Some sentReq => newFriend c1 req sentReq
        | None =>
            (set_incomingFriendRequests (incomingFriendRequests c1 ++ [req]) c1,
             [HandlerReceivedFriendRequest req])
        end
      else (c, [])
  end.

(** concurrency.Spans(total, spanSize): consecutive (start, count)
    pairs covering [0, total), each of [spanSize] except a shorter last
    one. *)
Fixpoint Spans_from (fuel start total spanSize : nat) : list (nat * nat) :=
  match fuel with
  | O => []
  | S fuel' =>
      if decide (start < total)%nat then
        let count := if decide (start + spanSize ≤ total)%nat
                     then spanSize else (total - start)%nat in
        (start, count) :: Spans_from fuel' (start + count)%nat total spanSize
      else []
  end.

Definition Spans (total spanSize : nat) : list (nat * nat) :=
  Spans_from total 0 total spanSize.

(** [mailbox[span.Start : span.Start+span.Count]]. *)
Definition spanBytes (mailbox : bytes) (span : nat * nat) : bytes :=
  take (snd span) (drop (fst span) mailbox).

(** The body of the loop of [scanMailbox] for one span. *)
Definition scanSpan (st : addFriendRoundState) (privKey : bytes) (mailbox : bytes)
    (c : Client) (span : nat * nat) : Client * list Effect :=
  let ctxtBytes := spanBytes mailbox span in
  match ciphertext_UnmarshalBinary E ctxtBytes with
  | None => (c, [])
  | Some ctxt =>
      match ibe_Decrypt E privKey ctxt with
      | None => (c, [])
      | Some msg =>
          decodeAddFriendMessage c msg (PKGServers (Config st))
            (default [] (ServerBLSKeys st))
      end
  end.

(** [concurrency.ParallelFor] hands the spans to workers; here they are
    taken in the order of the list. *)
Fixpoint scanSpans (st : addFriendRoundState) (privKey : bytes) (mailbox : bytes)
    (spans : list (nat * nat)) (c : Client) : Client * list Effect :=
  match spans with
  | [] => (c, [])
  | span :: rest =>
      let '(c1, tr1) := scanSpan st privKey mailbox c span in
      let '(c2, tr2) := scanSpans st privKey mailbox rest c1 in
      (c2, tr1 ++ tr2)
  end.

Definition scanMailbox (c : Client) (v : MailboxURL) : Outcome :=
  match addFriendRounds c !! mu_Round v with
  | None => Returned c []
  | Some st =>
      let mailboxID := usernameToMailbox (Username c) (mu_NumMailboxes v) in
      match fetchMailbox E (CDNServer (Config st)) (mu_URL v) mailboxID with
      | inr err => Returned c [HandlerError (FetchingMailbox err)]
      | inl mailbox =>
          let privKey := ibe_AggregatePrivate E (default [] (PrivateKeys st)) in
          let intros := Spans (length mailbox) (SizeEncryptedIntro E) in
          let '(c1, tr) := scanSpans st privKey mailbox intros c in
          Returned c1 tr
      end
  end.

End Engine.

Arguments matches _ _ /.
Arguments newFriend : simpl never.

(** ** Vocabulary of the statements *)

(** The slot [j] of [st.IdentitySigs]: [None] when the slice is nil or
    shorter, [Some None] when the slot still holds its zero value. *)
Definition sigSlot (st : addFriendRoundState) (j : nat) : option (option bytes) :=
  IdentitySigs st ≫= (λ l, l !! j).

(** All four slices are non-nil and have [n] slots. *)
Definition keysAllocated (n : nat) (st : addFriendRoundState) : Prop :=
  (∃ l, ServerMasterKeys st = Some l ∧ length l = n) ∧
  (∃ l, PrivateKeys st = Some l ∧ length l = n) ∧
  (∃ l, ServerBLSKeys st = Some l ∧ length l = n) ∧
  (∃ l, IdentitySigs st = Some l ∧ length l = n).

Definition exitIndex (x : loopExit) : option nat :=
  match x with
  | RanToEnd => None
  | MissingRegistration i | ExtractError i | BadIdentitySig i => Some i
  end.

(** The ways a span of the mailbox can fail the checks of [scanMailbox]
    and [decodeAddFriendMessage]. *)
Inductive spanFailure (E : Env) (privKey : bytes) (multisigKeys : list (option bytes))
    (ctxtBytes : bytes) : Prop :=
  | CiphertextUnmarshalFails :
      ciphertext_UnmarshalBinary E ctxtBytes = None →
      spanFailure E privKey multisigKeys ctxtBytes
  | DecryptFails ctxt :
      ciphertext_UnmarshalBinary E ctxtBytes = Some ctxt →
      ibe_Decrypt E privKey ctxt = None →
      spanFailure E privKey multisigKeys ctxtBytes
  | IntroUnmarshalFails ctxt msg :
      ciphertext_UnmarshalBinary E ctxtBytes = Some ctxt →
      ibe_Decrypt E privKey ctxt = Some msg →
      intro_UnmarshalBinary E msg = None →
      spanFailure E privKey multisigKeys ctxtBytes
  | MultisigFails ctxt msg intro :
      ciphertext_UnmarshalBinary E ctxtBytes = Some ctxt →
      ibe_Decrypt E privKey ctxt = Some msg →
      intro_UnmarshalBinary E msg = Some intro →
      intro_Verify_multisig E intro multisigKeys = false →
      spanFailure E privKey multisigKeys ctxtBytes
  | SignatureFails ctxt msg intro :
      ciphertext_UnmarshalBinary E ctxtBytes = Some ctxt →
      ibe_Decrypt E privKey ctxt = Some msg →
      intro_UnmarshalBinary E msg = Some intro →
      intro_Verify_signature E intro = false →
      spanFailure E privKey multisigKeys ctxtBytes.

(** The same, as a test. *)
Definition spanFails (E : Env) (privKey : bytes) (multisigKeys : list (option bytes))
    (ctxtBytes : bytes) : bool :=
  match ciphertext_UnmarshalBinary E ctxtBytes with
  | None => true
  | Some ctxt =>
      match ibe_Decrypt E privKey ctxt with
      | None => true
      | Some msg =>
          match intro_UnmarshalBinary E msg with
          | None => true
          | Some intro =>
              negb (intro_Verify_multisig E intro multisigKeys)
              || negb (intro_Verify_signature E intro)
          end
      end
  end.

(** What the engine assumes of the libraries when it panics on their
    errors: key generation and marshalling succeed, and an encrypted
    introduction has the size of the buffer it is copied into. *)
Definition librariesBehave (E : Env) : Prop :=
  (∀ rnd, ∃ k, box_GenerateKey E rnd = inl k) ∧
  (∀ intro, ∃ m, intro_MarshalBinary E intro = inl m) ∧
  (∀ rnd mk id intro m,
     intro_MarshalBinary E intro = inl m →
     ∃ b, ciphertext_MarshalBinary E (ibe_Encrypt E rnd mk id m) = inl b
          ∧ length b = SizeEncryptedIntro E).

(** The library calls of lines 249 to 256, in the order of the code. *)
Definition mixCalls : list mixStep :=
  [CallAggregate; CallValidUsernameToIdentity; CallMarshalBinary; CallEncrypt;
   CallMarshalBinary; CallUsernameToMailbox].

(** Every byte of two buffers of [n] bytes, in index order: load
    [x[i]], load [y[i]], store [x[i]]. *)
Definition copySteps (n : nat) : list mixStep :=
  i ← seq 0 n; [LoadX i; LoadY i; StoreX i].

(** The marshalled IBE ciphertext of [intro] for the recipient of
    [sentReq], as computed at lines 249 to 253. *)
Definition encIntroBytesOf (E : Env) (rnd : bytes) (st : addFriendRoundState)
    (intro : introduction) (sentReq : sentFriendRequest) : option bytes :=
  match intro_MarshalBinary E intro with
  | inr _ => None
  | inl m =>
      match ciphertext_MarshalBinary E
              (ibe_Encrypt E rnd (ibe_AggregateMaster E (default [] (ServerMasterKeys st)))
                 (ValidUsernameToIdentity E (sent_Username sentReq)) m) with
      | inr _ => None
      | inl b => Some b
      end
  end.

Fixpoint onionsSent (tr : list Effect) : nat :=
  match tr with
  | [] => 0
  | ConnSend _ _ :: rest => S (onionsSent rest)
  | _ :: rest => onionsSent rest
  end.

(** The friend that [newFriend] records for an incoming request. *)
Definition friendOf (i : IncomingFriendRequest) : Friend :=
  {| fr_Username := in_Username i; fr_LongTermKey := in_LongTermKey i |}.

(** The incoming request that [decodeAddFriendMessage] builds from a
    verified introduction. *)
Definition incomingOf (E : Env) (c : Client) (intro : introduction)
    (verifiers : list PublicServerConfig) : IncomingFriendRequest :=
  {| in_ptr := heap_next c;
     in_Username := IdentityToUsername E (intro_Username intro);
     in_LongTermKey := intro_LongTermKey intro;
     in_DHPublicKey := intro_DHPublicKey intro;
     in_DialRound := intro_DialingRound intro;
     in_Verifiers := verifiers |}.

(** The outcome of a pairing of [i] with [s]: the friend is in the
    friends map and announced, and neither request is in its queue. *)
Definition befriended (r : Client * list Effect) (i : IncomingFriendRequest)
    (s : sentFriendRequest) : Prop :=
  friends r.1 !! in_Username i = Some (friendOf i) ∧
  HandlerConfirmedFriend (friendOf i) ∈ r.2 ∧
  (i ∉ incomingFriendRequests r.1) ∧
  (s ∉ sentFriendRequests r.1).

(** No request waits in one queue while a matching one waits in the
    other. *)
Definition noPendingPair (c : Client) : Prop :=
  ∀ i s, i ∈ incomingFriendRequests c → s ∈ sentFriendRequests c → ¬ matches i s.

(** ** A concrete environment and client, for evaluating the handlers *)

Module Sample.

Definition ascii_codes (s : string) : bytes :=
  (λ a, Z.of_nat (nat_of_ascii a)) <$> list_ascii_of_string s.

Definition codes_ascii (b : bytes) : string :=
  string_of_list_ascii ((λ z, ascii_of_nat (Z.to_nat z)) <$> b).

Definition pad (n : nat) (b : bytes) : bytes := take n (b ++ replicate n 0%Z).

(** A toy wire format: dialing round, one byte of long-term key, then
    the identity. *)
Definition encodeIntro (i : introduction) : bytes :=
  intro_DialingRound i :: default 0%Z (head (intro_LongTermKey i)) :: intro_Username i.

Definition decodeIntro (b : bytes) : option introduction :=
  match b with
  | r :: k :: name =>
      if decide (r = 0%Z) then None
      else Some {| intro_Username := filter (λ z, z ≠ 0%Z) name;
                   intro_DHPublicKey := [1%Z];
                   intro_LongTermKey := [k];
                   intro_DialingRound := r;
                   intro_ServerMultisig := [];
                   intro_Signature := [] |}
  | _ => None
  end.

(** [persist] decides whether writing the state succeeds; [mailbox] is
    what the CDN serves; [extractOk] whether the PKG at an address
    answers an extraction. *)
Definition env (persist : Client → option string) (mailbox : bytes + string)
    (extractOk : string → bool) : Env :=
  {| config_Hash := λ cfg, Address (CDNServer cfg);
     fetchAndVerifyConfig := λ cur h,
       if decide (h = "H9")
       then inl {| PKGServers := []; MixServers := [];
                   CDNServer := {| Key := []; Address := "H9" |} |}
       else inr "unknown hash";
     regid := λ k u, codes_ascii k +:+ "/" +:+ u;
     pkg_CheckStatus := λ _, None;
     pkg_Register := λ _, None;
     pkg_Extract := λ p r,
       if extractOk (Address (pkgc_PublicServerConfig p))
       then inl {| er_PrivateKey := Some [9%Z]; er_IdentitySig := [5%Z] |}
       else inr "unauthorized";
     PKGSettings_Verify := λ _ _ _, true;
     ValidUsernameToIdentity := ascii_codes;
     IdentityToUsername := codes_ascii;
     attestation_Marshal := λ a, UserIdentity a;
     persistLocked := persist;
     hex_EncodeToString := codes_ascii;
     SigningMessage := λ s, [ms_Round s];
     intro_MarshalBinary := λ i, inl (encodeIntro i);
     intro_UnmarshalBinary := decodeIntro;
     ciphertext_MarshalBinary := λ b, inl b;
     ciphertext_UnmarshalBinary := λ b, if decide (length b = 8) then Some b else None;
     SizeEncryptedIntro := 8;
     ed25519_Verify := λ k m s, bool_decide (s = k);
     bls_Verify := λ _ _ _, true;
     bls_Aggregate_Compress := λ _, [];
     box_GenerateKey := λ rnd, inl (rnd, rnd);
     box_Precompute := λ pub priv, pub ++ priv;
     intro_Sign := λ i _, i;
     intro_Verify_multisig := λ _ _, true;
     intro_Verify_signature := λ _, true;
     ibe_AggregateMaster := λ _, [];
     ibe_AggregatePrivate := λ _, [];
     ibe_Encrypt := λ rnd mk id m, pad 8 m;
     ibe_Decrypt := λ _ ct, Some ct;
     onionbox_Seal := λ rnd m nonce keys, m;
     siphash_key := [];
     siphash_Hash := λ k d, Z.of_nat (length d);
     fetchMailbox := λ _ _ _, mailbox |}.

Definition cdn (h : string) : PublicServerConfig := {| Key := []; Address := h |}.

Definition server (name : string) : PublicServerConfig :=
  {| Key := ascii_codes name; Address := name |}.

Definition config1 : AlpenhornConfig :=
  {| PKGServers := [server "p1"; server "p2"];
     MixServers := [server "m1"];
     CDNServer := cdn "H1" |}.

Definition registered (name : string) : pkgClient :=
  {| pkgc_PublicServerConfig := server name; pkgc_Username := "alice";
     pkgc_LoginKey := []; pkgc_UserLongTermKey := [] |}.

(** Alice, in round 3 under [config1], registered with both PKGs. *)
Definition alice (out : list OutgoingFriendRequest) (sent : list sentFriendRequest)
    : Client :=
  {| Username := "alice"; LongTermPublicKey := [1%Z]; LongTermPrivateKey := [2%Z];
     PKGLoginKey := [3%Z]; wheel := ∅; lastDialingRound := 5%Z;
     addFriendRounds := {[ 3%Z := newRoundState 3 config1 ]};
     addFriendConfigHash := "H1"; addFriendConfig := config1;
     registrations := {[ "p1/alice" := registered "p1"; "p2/alice" := registered "p2" ]};
     friends := ∅; incomingFriendRequests := [];
     outgoingFriendRequests := out; sentFriendRequests := sent;
     heap_next := 10 |}.

Definition persistOk : Client → option string := λ _, None.
Definition persistFails : Client → option string := λ _, Some "disk full".

Definition mix3 : MixRound :=
  {| mr_MixSettings := {| ms_Round := 3; ms_NumMailboxes := 4; ms_OnionKeys := [] |};
     mr_MixSignatures := [ascii_codes "m1"] |}.

End Sample.

Module SampleExtract.

Import Sample.

Definition pkg3 : PKGRound :=
  {| pr_Round := 3;
     pr_PKGSettings :=
       {[ "p1" := {| rs_MasterPublicKey := Some [11%Z]; rs_BLSPublicKey := Some [12%Z] |};
          "p2" := {| rs_MasterPublicKey := Some [21%Z]; rs_BLSPublicKey := Some [22%Z] |} ]} |}.

(** Both PKGs answer. *)
Definition envOk : Env := env persistOk (inl []) (λ _, true).

(** The second PKG refuses the extraction. *)
Definition envP2Down : Env := env persistOk (inl []) (λ a, bool_decide (a = "p1")).

Definition afterPkg (E : Env) : Client := out_client (extractPKGKeys E (alice [] []) pkg3).

End SampleExtract.

Module SampleMix.

Import Sample.

Definition E0 : Env := env persistOk (inl []) (λ _, true).

Definition toBob : sentFriendRequest :=
  {| sent_ptr := 10; sent_Username := "bob"; sent_ExpectedKey := None;
     sent_Confirmation := false; sent_DialRound := 5; sent_SentRound := 3;
     sent_DHPublicKey := [7%Z]; sent_DHPrivateKey := [7%Z] |}.

Definition toNobody : sentFriendRequest :=
  {| sent_ptr := 10; sent_Username := ""; sent_ExpectedKey := None;
     sent_Confirmation := false; sent_DialRound := 5; sent_SentRound := 3;
     sent_DHPublicKey := [7%Z]; sent_DHPrivateKey := [7%Z] |}.

Definition introOfAlice : introduction :=
  {| intro_Username := ascii_codes "alice"; intro_DHPublicKey := [7%Z];
     intro_LongTermKey := [1%Z]; intro_DialingRound := 5;
     intro_ServerMultisig := []; intro_Signature := [] |}.

Definition st3 : addFriendRoundState := newRoundState 3 config1.

End SampleMix.

Module SampleSend.

Import Sample.

(** A request for bob, and a request that was queued with an empty
    username. *)
Definition bobRequest : OutgoingFriendRequest :=
  {| out_Username := "bob"; out_ExpectedKey := None;
     out_Confirmation := false; out_DialRound := 0 |}.

Definition emptyNameRequest : OutgoingFriendRequest :=
  {| out_Username := ""; out_ExpectedKey := Some [66%Z];
     out_Confirmation := true; out_DialRound := 9 |}.

End SampleSend.

Module SamplePair.

Import Sample.

(** Alice has sent a request to bob in dial round 5 and expects bob's
    long-term key to be [66]. *)
Definition sentToBob : sentFriendRequest :=
  {| sent_ptr := 4; sent_Username := "bob"; sent_ExpectedKey := Some [66%Z];
     sent_Confirmation := false; sent_DialRound := 5; sent_SentRound := 2;
     sent_DHPublicKey := [7%Z]; sent_DHPrivateKey := [7%Z] |}.

(** An introduction from bob for dial round 5, signed with the
    long-term key [77]. *)
Definition fromBob : bytes := [5; 77; 98; 111; 98; 0; 0; 0]%Z.

Definition introFromBob : introduction :=
  {| intro_Username := ascii_codes "bob"; intro_DHPublicKey := [1%Z];
     intro_LongTermKey := [77%Z]; intro_DialingRound := 5;
     intro_ServerMultisig := []; intro_Signature := [] |}.

Definition bob77 : Friend := {| fr_Username := "bob"; fr_LongTermKey := [77%Z] |}.

Definition E0 : Env := env persistOk (inl fromBob) (λ _, true).

Definition EdiskFull : Env := env persistFails (inl fromBob) (λ _, true).

Definition mailbox3 : MailboxURL :=
  {| mu_Round := 3; mu_URL := "u"; mu_NumMailboxes := 4 |}.

End SamplePair.

(** ** The dispatcher *)

(** coordinator.RoundError; the handler only logs it. *)
Record RoundError := {
  re_Round : Z;
  re_Err : string;
}.

(** A message of the add-friend channel, under the id that
    [addFriendMux] registers its handler for.  A mix message comes with
    the entropy its handler will draw. *)
Inductive addFriendMessage :=
  | MsgNewRound (v : NewRound)
  | MsgPKG (v : PKGRound)
  | MsgMix (rnd : bytes) (v : MixRound)
  | MsgMailbox (v : MailboxURL)
  | MsgError (v : RoundError).

Definition messageID (m : addFriendMessage) : string :=
  match m with
  | MsgNewRound _ => "newround"
  | MsgPKG _ => "pkg"
  | MsgMix _ _ => "mix"
  | MsgMailbox _ => "mailbox"
  | MsgError _ => "error"
  end.

(** [addFriendRoundError] writes to the log and returns. *)
Definition addFriendRoundError (c : Client) (v : RoundError) : Outcome :=
  Returned c [].

(** [addFriendMux]: each message goes to the handler of its id. *)
Definition addFriendMux (E : Env) (c : Client) (m : addFriendMessage) : Outcome :=
  match m with
  | MsgNewRound v => newAddFriendRound E c v
  | MsgPKG v => extractPKGKeys E c v
  | MsgMix rnd v => sendAddFriendOnion E rnd c v
  | MsgMailbox v => scanMailbox E c v
  | MsgError v => addFriendRoundError c v
  end.

(** The read loop of the connection hands every envelope to the mux,
    each in a goroutine of its own.  Here the messages are handled one
    after the other, a handler running to its end before the next one
    starts, and a panic ends the process. *)
Fixpoint run (E : Env) (c : Client) (msgs : list addFriendMessage) : Outcome :=
  match msgs with
  | [] => Returned c []
  | m :: rest =>
      match addFriendMux E c m with
      | Panicked msg c1 tr1 => Panicked msg c1 tr1
      | Returned c1 tr1 =>
          match run E c1 rest with
          | Returned c2 tr2 => Returned c2 (tr1 ++ tr2)
          | Panicked msg c2 tr2 => Panicked msg c2 (tr1 ++ tr2)
          end
      end
  end.

(** *** Vocabulary of the statements about runs *)

(** Every round known to [c] is known to [c'], under the same round
    number and the same config. *)
Definition roundsKept (c c' : Client) : Prop :=
  ∀ r st, addFriendRounds c !! r = Some st →
    ∃ st', addFriendRounds c' !! r = Some st'
           ∧ Round st' = Round st ∧ Config st' = Config st.

(** Every round state is stored under its own round number. *)
Definition roundsWellKeyed (c : Client) : Prop :=
  ∀ r st, addFriendRounds c !! r = Some st → Round st = r.

(** Every friend of [c] is a friend of [c']. *)
Definition friendsKept (c c' : Client) : Prop :=
  ∀ u, is_Some (friends c !! u) → is_Some (friends c' !! u).

Definition mixCount (msgs : list addFriendMessage) : nat :=
  length (filter (λ m, messageID m = "mix") msgs).

(** The requests announced by [SentFriendRequest], in order. *)
Fixpoint sentEvents (tr : list Effect) : list OutgoingFriendRequest :=
  match tr with
  | [] => []
  | HandlerSentFriendRequest r :: rest => r :: sentEvents rest
  | _ :: rest => sentEvents rest
  end.

(** The slot [j] of [st.ServerBLSKeys]. *)
Definition blsSlot (st : addFriendRoundState) (j : nat) : option (option bytes) :=
  ServerBLSKeys st ≫= (λ l, l !! j).

(** The attestation that [extractPKGKeys] checks for the key [bk]. *)
Definition attestationOf (E : Env) (c : Client) (bk : option bytes) : bytes :=
  attestation_Marshal E
    {| AttestKey := bk;
       UserIdentity := ValidUsernameToIdentity E (Username c);
       UserLongTermKey := LongTermPublicKey c |}.

(** Every identity signature held by a round state verifies, as the
    client's attestation, under the BLS key held in the same slot. *)
Definition sigsVerified (E : Env) (c : Client) (st : addFriendRoundState) : Prop :=
  ∀ j sg, sigSlot st j = Some (Some sg) →
    ∃ bk, blsSlot st j = Some bk
          ∧ bls_Verify E [bk] [attestationOf E c bk] sg = true.

Definition allSigsVerified (E : Env) (c : Client) : Prop :=
  ∀ r st, addFriendRounds c !! r = Some st → sigsVerified E c st.

(** [c'] has the identity, the friends and the three request queues of
    [c]. *)
Definition storeKept (c c' : Client) : Prop :=
  Username c' = Username c ∧
  LongTermPublicKey c' = LongTermPublicKey c ∧
  friends c' = friends c ∧
  incomingFriendRequests c' = incomingFriendRequests c ∧
  sentFriendRequests c' = sentFriendRequests c ∧
  outgoingFriendRequests c' = outgoingFriendRequests c.

(** [c'] has the identity and the rounds of [c]. *)
Definition roundsSame (c c' : Client) : Prop :=
  Username c' = Username c ∧
  LongTermPublicKey c' = LongTermPublicKey c ∧
  addFriendRounds c' = addFriendRounds c.

(** The PKG server [server] has a registration in [c]. *)
Definition registeredWith (E : Env) (c : Client) (server : PublicServerConfig) : Prop :=
  is_Some (registrations c !! regid E (Key server) (Username c)).

(** [tr] holds an [Error] from the attempt to register with the PKG
    at [address]. *)
Definition registrationErrorFor (tr : list Effect) (address : string) : Prop :=
  ∃ err, HandlerError (RegisterFailed err address) ∈ tr
         ∨ HandlerError (CheckStatusFailed err address) ∈ tr.

(** ** The PKG's status request (pkg/status.go) *)

Definition bytes_of_string (s : string) : bytes :=
  (λ a, Z.of_nat (nat_of_ascii a)) <$> list_ascii_of_string s.

Record statusArgs := {
  sa_Username : string;
  sa_Message : bytes;
  sa_ServerSigningKey : bytes;
  sa_Signature : bytes;
}.

(** A user record of the PKG, as far as [checkStatus] reads it. *)
Record pkgUser := {
  user_Key : bytes;
  user_Status : Z;
}.

(** What the status handler calls outside status.go.  [getUser] is the
    lookup [srv.getUser(nil, username)]: an error, no user, or a user. *)
Record ServerEnv := {
  srv_publicKey : bytes;
  statusVerified : Z;
  UsernameToIdentity : string → bytes + string;
  getUser : string → option pkgUser + goError;
  decodeStatusArgs : bytes → statusArgs + string;
}.

Inductive httpReply :=
  | HttpError (e : goError)
  | HttpOK (body : bytes).

Section Status.

Context (E : Env) (S : ServerEnv).

(** [statusArgs.msg]. *)
Definition statusArgs_msg (a : statusArgs) : bytes :=
  bytes_of_string "StatusArgs" ++ sa_ServerSigningKey a
    ++ ValidUsernameToIdentity E (sa_Username a) ++ sa_Message a.

(** [Server.checkStatus]; [None] is the nil error.  An error carries
    the argument of its format, without the quotes that [%q] adds. *)
Definition checkStatus (args : statusArgs) : option goError :=
  match UsernameToIdentity S (sa_Username args) with
  | inr err => Some (PkgError ErrInvalidUsername err)
  | inl _ =>
      match getUser S (sa_Username args) with
      | inr err => Some err
      | inl None => Some (PkgError ErrNotRegistered (sa_Username args))
      | inl (Some user) =>
          if decide (user_Status user ≠ statusVerified S)
          then Some (PkgError ErrNotVerified (sa_Username args))
          else if ed25519_Verify E (user_Key user) (statusArgs_msg args) (sa_Signature args)
          then None
          else Some (PkgError ErrInvalidSignature "")
      end
  end.

Definition set_ServerSigningKey (k : bytes) (a : statusArgs) : statusArgs :=
  {| sa_Username := sa_Username a; sa_Message := sa_Message a;
     sa_ServerSigningKey := k; sa_Signature := sa_Signature a |}.

(** [Server.statusHandler]: the reply to a request with the given
    body.  The reply to a successful check is the JSON of the empty
    [statusReply]. *)
Definition statusHandler (body : bytes) : httpReply :=
  match decodeStatusArgs S body with
  | inr err => HttpError (PkgError ErrBadRequestJSON err)
  | inl args =>
      match checkStatus (set_ServerSigningKey (srv_publicKey S) args) with
      | Some err => HttpError err
      | None => HttpOK (bytes_of_string "{}")
      end
  end.

End Status.

(** ** The connection of the client (typesocket) *)

Record envelope := {
  env_ID : string;
  env_Message : bytes;
}.

(** [clientConn]: whether [mu] is held, whether the websocket has been
    closed, and the envelopes written so far. *)
Record clientConn := {
  conn_locked : bool;
  conn_closed : bool;
  conn_written : list envelope;
}.

(** A call of [Send] returns, with or without an error, or waits for
    [mu] for ever, no one being there to release it. *)
Inductive sendResult :=
  | SendReturned (err : option string) (conn : clientConn)
  | SendBlocked (conn : clientConn).

Section Typesocket.

Context {V : Type}.
Context (json_Marshal : V → bytes + string).
Context (ws_WriteJSON : clientConn → envelope → option string).

(** [clientConn.Send].  On a failed write the connection is closed and
    the function returns before [c.mu.Unlock()]. *)
Definition Send (conn : clientConn) (msgID : string) (v : V) : sendResult :=
  match json_Marshal v with
  | inr err => SendReturned (Some err) conn
  | inl msg =>
      let e := {| env_ID := msgID; env_Message := msg |} in
      if conn_locked conn then SendBlocked conn
      else
        match ws_WriteJSON conn e with
        | Some err =>
            SendReturned (Some err)
              {| conn_locked := true; conn_closed := true;
                 conn_written := conn_written conn |}
        | None =>
            SendReturned None
              {| conn_locked := false; conn_closed := conn_closed conn;
                 conn_written := conn_written conn ++ [e] |}
        end
  end.

End Typesocket.

(** ** Connecting and closing (client.go) *)

(** The fields of [Client] that [Connect] and [Close] read or write.
    A connection is the handle [typesocket.Dial] returned.  Of the
    dialing rounds only the round numbers are kept: their state type
    is not part of the sources. *)
Record connClient := {
  cc_connected : bool;
  cc_hasConfigClient : bool;
  cc_hasAddFriendConfig : bool;
  cc_hasDialingConfig : bool;
  cc_KeywheelPersistPath : string;
  cc_wheel : bytes;
  cc_friends : option (gmap string Friend);
  cc_addFriendRounds : option (gmap Z addFriendRoundState);
  cc_dialingRounds : option (gmap Z unit);
  cc_addFriendConn : option nat;
  cc_dialingConn : option nat;
}.

Inductive readResult :=
  | FileNotExist
  | FileError (err : string)
  | FileData (data : bytes).

(** The result of [ConfigClient.CurrentConfig] followed by the type
    assertion on [Inner]: an error, an inner config of another type,
    or the coordinator's address and key. *)
Inductive configResult :=
  | ConfigError (err : string)
  | ConfigWrongInner
  | ConfigOf (address : string) (key : bytes).

Inductive connectError :=
  | AlreadyConnected
  | NoConfigClient
  | NoAddFriendConfig
  | NoDialingConfig
  | KeywheelFailed (err : string)
  | FetchingConfigFailed (service : string) (err : string)
  | DialFailed (err : string)
  | NotConnected
  | CloseFailed (err : string).

(** What [Connect] and [Close] do to the world. *)
Inductive connEffect :=
  | KeywheelPersisted
  | Dialed (handle : nat) (address : string)
  | Closed (handle : nat).

Record ConnEnv := {
  ReadFile : string → readResult;
  persistKeywheelLocked : connClient → option string;
  wheel_UnmarshalBinary : bytes → bytes + string;
  CurrentConfig : string → configResult;
  typesocket_Dial : string → bytes → nat + string;
  conn_Close : nat → option string;
}.

Inductive connOutcome :=
  | ConnReturned (err : option connectError) (c : connClient) (eff : list connEffect)
  | ConnPanicked (c : connClient) (eff : list connEffect).

Definition conn_client (o : connOutcome) : connClient :=
  match o with ConnReturned _ c _ | ConnPanicked c _ => c end.

Definition conn_effects (o : connOutcome) : list connEffect :=
  match o with ConnReturned _ _ eff | ConnPanicked _ eff => eff end.

Definition conn_error (o : connOutcome) : option (option connectError) :=
  match o with ConnReturned err _ _ => Some err | ConnPanicked _ _ => None end.

Definition set_wheel (w : bytes) (c : connClient) : connClient :=
  {| cc_connected := cc_connected c; cc_hasConfigClient := cc_hasConfigClient c;
     cc_hasAddFriendConfig := cc_hasAddFriendConfig c;
     cc_hasDialingConfig := cc_hasDialingConfig c;
     cc_KeywheelPersistPath := cc_KeywheelPersistPath c;
     cc_wheel := w; cc_friends := cc_friends c;
     cc_addFriendRounds := cc_addFriendRounds c;
     cc_dialingRounds := cc_dialingRounds c;
     cc_addFriendConn := cc_addFriendConn c; cc_dialingConn := cc_dialingConn c |}.

(** The three [make] calls in the middle of [Connect]. *)
Definition resetMaps (c : connClient) : connClient :=
  {| cc_connected := cc_connected c; cc_hasConfigClient := cc_hasConfigClient c;
     cc_hasAddFriendConfig := cc_hasAddFriendConfig c;
     cc_hasDialingConfig := cc_hasDialingConfig c;
     cc_KeywheelPersistPath := cc_KeywheelPersistPath c;
     cc_wheel := cc_wheel c;
     cc_friends := match cc_friends c with None => Some ∅ | Some f => Some f end;
     cc_addFriendRounds := Some ∅;
     cc_dialingRounds := Some ∅;
     cc_addFriendConn := cc_addFriendConn c; cc_dialingConn := cc_dialingConn c |}.

Definition set_connected (b : bool) (af dial : option nat) (c : connClient) : connClient :=
  {| cc_connected := b; cc_hasConfigClient := cc_hasConfigClient c;
     cc_hasAddFriendConfig := cc_hasAddFriendConfig c;
     cc_hasDialingConfig := cc_hasDialingConfig c;
     cc_KeywheelPersistPath := cc_KeywheelPersistPath c;
     cc_wheel := cc_wheel c; cc_friends := cc_friends c;
     cc_addFriendRounds := cc_addFriendRounds c;
     cc_dialingRounds := cc_dialingRounds c;
     cc_addFriendConn := af; cc_dialingConn := dial |}.

Section Connect.

Context (W : ConnEnv).

(** The keywheel step of [Connect]: [inr] is the error returned. *)
Definition loadKeywheel (c : connClient) : (connClient * list connEffect) + string :=
  if decide (cc_KeywheelPersistPath c ≠ "") then
    match ReadFile W (cc_KeywheelPersistPath c) with
    | FileNotExist =>
        match persistKeywheelLocked W c with
        | Some err => inr err
        | None => inl (c, [KeywheelPersisted])
        end
    | FileError err => inr err
    | FileData keywheelData =>
        match wheel_UnmarshalBinary W keywheelData with
        | inr err => inr err
        | inl w => inl (set_wheel w c, [])
        end
    end
  else inl (c, []).

(** [Client.Connect]. *)
Definition Connect (c : connClient) : connOutcome :=
  if cc_connected c then ConnReturned (Some AlreadyConnected) c []
  else if negb (cc_hasConfigClient c) then ConnReturned (Some NoConfigClient) c []
  else if negb (cc_hasAddFriendConfig c) then ConnReturned (Some NoAddFriendConfig) c []
  else if negb (cc_hasDialingConfig c) then ConnReturned (Some NoDialingConfig) c []
  else
    match loadKeywheel c with
    | inr err => ConnReturned (Some (KeywheelFailed err)) c []
    | inl (c1, eff1) =>
        let c2 := resetMaps c1 in
        match CurrentConfig W "AddFriend" with
        | ConfigError err =>
            ConnReturned (Some (FetchingConfigFailed "addfriend" err)) c2 eff1
        | ConfigWrongInner => ConnPanicked c2 eff1
        | ConfigOf afAddress afKey =>
            let afwsAddr := "wss://" +:+ afAddress +:+ "/addfriend/ws" in
            match typesocket_Dial W afwsAddr afKey with
            | inr err => ConnReturned (Some (DialFailed err)) c2 eff1
            | inl addFriendConn =>
                let eff2 := eff1 ++ [Dialed addFriendConn afwsAddr] in
                match CurrentConfig W "Dialing" with
                | ConfigError err =>
                    ConnReturned (Some (FetchingConfigFailed "dialing" err)) c2 eff2
                | ConfigWrongInner => ConnPanicked c2 eff2
                | ConfigOf dAddress dKey =>
                    let dwsAddr := "wss://" +:+ dAddress +:+ "/dialing/ws" in
                    match typesocket_Dial W dwsAddr dKey with
                    | inr err =>
                        ConnReturned (Some (DialFailed err)) c2
                          (eff2 ++ [Closed addFriendConn])
                    | inl dialingConn =>
                        ConnReturned None
                          (set_connected true (Some addFriendConn) (Some dialingConn) c2)
                          (eff2 ++ [Dialed dialingConn dwsAddr])
                    end
                end
            end
        end
    end.

(** [Client.Close].  Calling [Close] on a nil connection panics. *)
Definition Close (c : connClient) : connOutcome :=
  if negb (cc_connected c) then ConnReturned (Some NotConnected) c []
  else
    let c1 := set_connected false (cc_addFriendConn c) (cc_dialingConn c) c in
    match cc_dialingConn c with
    | None => ConnPanicked c1 []
    | Some dialingConn =>
        let err1 := conn_Close W dialingConn in
        match cc_addFriendConn c with
        | None => ConnPanicked c1 [Closed dialingConn]
        | Some addFriendConn =>
            let err2 := conn_Close W addFriendConn in
            ConnReturned
              (CloseFailed <$> (match err1 with Some e => Some e | None => err2 end))
              c1 [Closed dialingConn; Closed addFriendConn]
        end
    end.

End Connect.

(** Being connected means holding both connections. *)
Definition connectedHasConns (c : connClient) : Prop :=
  cc_connected c = true → is_Some (cc_addFriendConn c) ∧ is_Some (cc_dialingConn c).

(** ** Further sample inputs *)

Module SampleRun.

Import Sample.

(** A client that has just connected: no round yet, three requests
    queued, the second with an empty username. *)
Definition start : Client :=
  {| Username := "alice"; LongTermPublicKey := [1%Z]; LongTermPrivateKey := [2%Z];
     PKGLoginKey := [3%Z]; wheel := ∅; lastDialingRound := 5%Z;
     addFriendRounds := ∅;
     addFriendConfigHash := "H1"; addFriendConfig := config1;
     registrations := {[ "p1/alice" := registered "p1"; "p2/alice" := registered "p2" ]};
     friends := ∅; incomingFriendRequests := [];
     outgoingFriendRequests :=
       [SampleSend.bobRequest; SampleSend.emptyNameRequest;
        {| out_Username := "carol"; out_ExpectedKey := None;
           out_Confirmation := true; out_DialRound := 8 |}];
     sentFriendRequests := [];
     heap_next := 10 |}.

(** Two rounds; the mix settings of the first one arrive twice. *)
Definition messages : list addFriendMessage :=
  [MsgNewRound {| nr_Round := 3; nr_ConfigHash := "H1" |};
   MsgPKG SampleExtract.pkg3;
   MsgMix [7%Z] mix3;
   MsgMailbox SamplePair.mailbox3;
   MsgError {| re_Round := 3; re_Err := "late" |};
   MsgNewRound {| nr_Round := 4; nr_ConfigHash := "H1" |};
   MsgMix [8%Z] mix3].

(** The signature of the only mixer is not the expected one. *)
Definition badMix : MixRound :=
  {| mr_MixSettings := {| ms_Round := 3; ms_NumMailboxes := 4; ms_OnionKeys := [] |};
     mr_MixSignatures := [ascii_codes "xx"] |}.

End SampleRun.

Module SampleStatus.

Definition server : ServerEnv :=
  {| srv_publicKey := [9%Z; 9%Z];
     statusVerified := 2;
     UsernameToIdentity := λ u, if decide (u = "") then inr "empty" else inl (Sample.ascii_codes u);
     getUser := λ u,
       if decide (u = "alice") then inl (Some {| user_Key := [1%Z]; user_Status := 2 |})
       else if decide (u = "bob") then inl (Some {| user_Key := [7%Z]; user_Status := 1 |})
       else inl None;
     decodeStatusArgs := λ body,
       match body with
       | sg :: name =>
           inl {| sa_Username := Sample.codes_ascii name; sa_Message := [4%Z];
                  sa_ServerSigningKey := []; sa_Signature := [sg] |}
       | [] => inr "EOF"
       end |}.

(** A request of alice, signed with her key [1]. *)
Definition aliceBody : bytes := 1%Z :: Sample.ascii_codes "alice".

Definition argsA : statusArgs :=
  {| sa_Username := "alice"; sa_Message := [4%Z];
     sa_ServerSigningKey := [9%Z; 9%Z]; sa_Signature := [1%Z] |}.

Definition argsB : statusArgs :=
  {| sa_Username := "alice"; sa_Message := [4%Z];
     sa_ServerSigningKey := [9%Z; 9%Z]; sa_Signature := [8%Z] |}.

End SampleStatus.

Module SampleConn.

(** A payload marshals unless it is empty; a write fails once the
    connection is closed, and for the message id "bad". *)
Definition marshal (v : bytes) : bytes + string :=
  match v with [] => inr "nothing to marshal" | _ => inl v end.

Definition write (conn : clientConn) (e : envelope) : option string :=
  if conn_closed conn then Some "closed"
  else if decide (env_ID e = "bad") then Some "broken pipe" else None.

Definition open : clientConn :=
  {| conn_locked := false; conn_closed := false; conn_written := [] |}.

(** A world in which everything the client needs is there; the
    dialing config can be made unavailable. *)
Definition world (dialingConfig : bool) : ConnEnv :=
  {| ReadFile := λ _, FileNotExist;
     persistKeywheelLocked := λ _, None;
     wheel_UnmarshalBinary := λ b, inl b;
     CurrentConfig := λ service,
       if decide (service = "AddFriend") then ConfigOf "coordinator" [1%Z]
       else if dialingConfig then ConfigOf "coordinator" [2%Z]
       else ConfigError "not found";
     typesocket_Dial := λ addr key, inl (String.length addr);
     conn_Close := λ h, None |}.

Definition offline : connClient :=
  {| cc_connected := false; cc_hasConfigClient := true;
     cc_hasAddFriendConfig := true; cc_hasDialingConfig := true;
     cc_KeywheelPersistPath := "keywheel"; cc_wheel := [];
     cc_friends := None; cc_addFriendRounds := None; cc_dialingRounds := None;
     cc_addFriendConn := None; cc_dialingConn := None |}.

End SampleConn.

(** The PKG [server] answers for the round of [v]: the client has a
    registration with it; the extraction through that registration,
    made with the client's long-term key, succeeds; and the identity
    signature it returns verifies, as the client's attestation, under
    the BLS key that the settings of [v] give for the key of the
    registration. *)
Definition extractionVerifies (E : Env) (c : Client) (v : PKGRound)
    (server : PublicServerConfig) : Prop :=
  ∃ pkgc0 res,
    registrations c !! regid E (Key server) (Username c) = Some pkgc0 ∧
    pkg_Extract E (set_UserLongTermKey (LongTermPublicKey c) pkgc0) (pr_Round v)
      = inl res ∧
    let bk := rs_BLSPublicKey
                (default zeroRoundSettings
                   (pr_PKGSettings v
                      !! hex_EncodeToString E (Key (pkgc_PublicServerConfig pkgc0)))) in
    bls_Verify E [bk] [attestationOf E c bk] (er_IdentitySig res) = true.

Module SampleSigned.

Import Sample.

(** A toy signature scheme: the signature of [m] under the key [k] is
    [k] followed by [m].  The PKG at "p1" signs with the key 12, the
    one at "p2" with 22, as announced in [SampleExtract.pkg3]; an
    attestation is the identity followed by the long-term key. *)
Definition blsKeyOf (address : string) : bytes :=
  if decide (address = "p1") then [12%Z] else [22%Z].

Definition sign (k m : bytes) : bytes := k ++ m.

Definition world : Env :=
  let E := SampleExtract.envOk in
  {| config_Hash := config_Hash E;
     fetchAndVerifyConfig := fetchAndVerifyConfig E;
     regid := regid E;
     pkg_CheckStatus := pkg_CheckStatus E;
     pkg_Register := pkg_Register E;
     pkg_Extract := λ p r,
       inl {| er_PrivateKey := Some [9%Z];
              er_IdentitySig :=
                sign (blsKeyOf (Address (pkgc_PublicServerConfig p)))
                  (ascii_codes (pkgc_Username p) ++ pkgc_UserLongTermKey p) |};
     PKGSettings_Verify := PKGSettings_Verify E;
     ValidUsernameToIdentity := ValidUsernameToIdentity E;
     IdentityToUsername := IdentityToUsername E;
     attestation_Marshal := λ a, UserIdentity a ++ UserLongTermKey a;
     persistLocked := persistLocked E;
     hex_EncodeToString := hex_EncodeToString E;
     SigningMessage := SigningMessage E;
     intro_MarshalBinary := intro_MarshalBinary E;
     intro_UnmarshalBinary := intro_UnmarshalBinary E;
     ciphertext_MarshalBinary := ciphertext_MarshalBinary E;
     ciphertext_UnmarshalBinary := ciphertext_UnmarshalBinary E;
     SizeEncryptedIntro := SizeEncryptedIntro E;
     ed25519_Verify := ed25519_Verify E;
     bls_Verify := λ keys msgs sg,
       bool_decide (sg = mjoin (zip_with (λ k m, sign (default [] k) m) keys msgs));
     bls_Aggregate_Compress := bls_Aggregate_Compress E;
     box_GenerateKey := box_GenerateKey E;
     box_Precompute := box_Precompute E;
     intro_Sign := intro_Sign E;
     intro_Verify_multisig := intro_Verify_multisig E;
     intro_Verify_signature := intro_Verify_signature E;
     ibe_AggregateMaster := ibe_AggregateMaster E;
     ibe_AggregatePrivate := ibe_AggregatePrivate E;
     ibe_Encrypt := ibe_Encrypt E;
     ibe_Decrypt := ibe_Decrypt E;
     onionbox_Seal := onionbox_Seal E;
     siphash_key := siphash_key E;
     siphash_Hash := siphash_Hash E;
     fetchMailbox := fetchMailbox E |}.

End SampleSigned.

(** ** Properties *)

(** *** newround: a round announced twice *)

Section NewRound.

Context (E : Env).

(** C4. A [newround] message for a round that is already known does
    nothing when the announced hash is the hash of the round's config;
    when it differs, the application receives one [Error] and the
    client, so also the config stored for the round, is unchanged. *)
Theorem newAddFriendRound_known_round (c : Client) (v : NewRound)
    (st : addFriendRoundState) :
  addFriendRounds c !! nr_Round v = Some st →
  (config_Hash E (Config st) = nr_ConfigHash v →
     newAddFriendRound E c v = Returned c []) ∧
  (config_Hash E (Config st) ≠ nr_ConfigHash v →
     newAddFriendRound E c v
       = Returned c [HandlerError (DifferentConfigs (nr_Round v))]
     ∧ addFriendRounds (out_client (newAddFriendRound E c v)) !! nr_Round v
       = Some st).
Proof.
  intros Hst. unfold newAddFriendRound. rewrite Hst.
  split; intros Hh.
  - destruct (decide _) as [_|n]; [reflexivity | contradiction].
  - destruct (decide _) as [e|_]; [contradiction | ].
    split; [reflexivity | exact Hst].
Qed.

(** Scenario S3 of the specification: a round announced under the
    current config hash and then again under another hash keeps the
    config, and the hash, of the first announcement. *)
Lemma newAddFriendRound_reannounced (c : Client) (v1 v2 : NewRound) :
  addFriendRounds c !! nr_Round v1 = None →
  nr_ConfigHash v1 = addFriendConfigHash c →
  config_Hash E (addFriendConfig c) = addFriendConfigHash c →
  nr_Round v2 = nr_Round v1 →
  nr_ConfigHash v2 ≠ nr_ConfigHash v1 →
  ∃ c1 st,
    newAddFriendRound E c v1 = Returned c1 [] ∧
    addFriendRounds c1 !! nr_Round v1 = Some st ∧
    config_Hash E (Config st) = nr_ConfigHash v1 ∧
    newAddFriendRound E c1 v2
      = Returned c1 [HandlerError (DifferentConfigs (nr_Round v1))].
Proof.
  intros Hnew Hh1 Hcur Hr Hh2.
  unfold newAddFriendRound at 1. rewrite Hnew.
  destruct (decide _) as [_|]; [|done].
  eexists _, _. split; [reflexivity|]. simpl.
  split; [apply lookup_insert_eq|]. split; [simpl; congruence|].
  unfold newAddFriendRound. rewrite Hr. simpl. rewrite lookup_insert_eq. simpl.
  destruct (decide _) as [Heq|_]; [|done]. congruence.
Qed.

End NewRound.

Lemma newAddFriendRound_known_round_witness :
  newAddFriendRound (Sample.env Sample.persistOk (inl []) (λ _, true))
      (Sample.alice [] []) {| nr_Round := 3; nr_ConfigHash := "H2" |}
    = Returned (Sample.alice [] []) [HandlerError (DifferentConfigs 3)]
  ∧ addFriendRounds
      (out_client
         (newAddFriendRound (Sample.env Sample.persistOk (inl []) (λ _, true))
            (Sample.alice [] []) {| nr_Round := 3; nr_ConfigHash := "H2" |}))
      !! 3%Z
    = Some (newRoundState 3 Sample.config1).
Proof.
  apply (newAddFriendRound_known_round
           (Sample.env Sample.persistOk (inl []) (λ _, true))
           (Sample.alice [] []) {| nr_Round := 3; nr_ConfigHash := "H2" |}
           (newRoundState 3 Sample.config1)).
  - vm_compute. reflexivity.
  - vm_compute. discriminate.
Defined.

(** *** pkg: extraction happens at most once per round *)

Section Extract.

Context (E : Env).

Lemma store_allocated {A} (i : nat) (x : A) (a : option (list A)) (n : nat) :
  (∃ l, a = Some l ∧ length l = n) → ∃ l, store i x a = Some l ∧ length l = n.
Proof.
  intros (l & -> & Hl). exists (<[i:=x]> l). split; [reflexivity|].
  by rewrite length_insert.
Qed.

Lemma keysAllocated_set_keys n i mk bk pk st :
  keysAllocated n st → keysAllocated n (set_keys i mk bk pk st).
Proof.
  intros (H1 & H2 & H3 & H4). repeat split; simpl; auto using store_allocated.
Qed.

Lemma keysAllocated_set_sig n i sg st :
  keysAllocated n st → keysAllocated n (set_sig i sg st).
Proof.
  intros (H1 & H2 & H3 & H4). repeat split; simpl; auto using store_allocated.
Qed.

Lemma keysAllocated_allocKeys st :
  keysAllocated (length (PKGServers (Config st))) (allocKeys st).
Proof.
  repeat split; simpl; eexists; (split; [reflexivity|]); apply length_replicate.
Qed.

Lemma sigSlot_set_keys i mk bk pk st j :
  sigSlot (set_keys i mk bk pk st) j = sigSlot st j.
Proof. reflexivity. Qed.

Lemma sigSlot_set_sig_ne i sg st j :
  i ≠ j → sigSlot (set_sig i sg st) j = sigSlot st j.
Proof.
  intros Hne. unfold sigSlot, set_sig, store; simpl.
  destruct (IdentitySigs st) as [l|]; simpl; [|reflexivity].
  by apply list_lookup_insert_ne.
Qed.

Lemma sigSlot_set_sig_eq n i sg st :
  keysAllocated n st → i < n → sigSlot (set_sig i sg st) i = Some (Some sg).
Proof.
  intros (_ & _ & _ & l & Hl & Hn) Hi. unfold sigSlot, set_sig, store; simpl.
  rewrite Hl; simpl. apply list_lookup_insert_eq. lia.
Qed.

Lemma sigSlot_allocKeys st j :
  j < length (PKGServers (Config st)) → sigSlot (allocKeys st) j = Some None.
Proof.
  intros Hj. unfold sigSlot, allocKeys; simpl. by apply lookup_replicate_2.
Qed.

(** What the loop guarantees, whatever way it ends: the slices keep
    their length, round and config are untouched, signatures below the
    index reached are in place, and after an early return the slot of
    the failing index still holds no signature. *)
Lemma extractLoop_spec (v : PKGRound) (id : bytes) (n : nat) :
  ∀ servers i c st c' st' tr x,
    extractLoop E v id i servers c st = (c', st', tr, x) →
    i + length servers = n →
    keysAllocated n st →
    (∀ j, j < i → ∃ sg, sigSlot st j = Some (Some sg)) →
    (∀ j, i ≤ j → j < n → sigSlot st j = Some None) →
    keysAllocated n st' ∧ Round st' = Round st ∧ Config st' = Config st ∧
    match exitIndex x with
    | None => ∀ j, j < n → ∃ sg, sigSlot st' j = Some (Some sg)
    | Some k =>
        k < n ∧ sigSlot st' k = Some None ∧
        ∀ j, j < k → ∃ sg, sigSlot st' j = Some (Some sg)
    end.
Proof.
  induction servers as [|pkgServer rest IH]; intros i c st c' st' tr x Hrun Hlen Hal Hlo Hhi.
  - simpl in Hrun. injection Hrun as <- <- <- <-. simpl in *.
    refine (conj Hal (conj eq_refl (conj eq_refl _))).
    intros j Hj. apply Hlo. lia.
  - simpl in Hrun, Hlen.
    destruct (registrations c !! _) as [pkgc0|].
    2:{ injection Hrun as <- <- <- <-. simpl.
        refine (conj Hal (conj eq_refl (conj eq_refl (conj _ (conj _ Hlo))))); [lia|].
        apply Hhi; lia. }
    destruct (pkg_Extract E _ _) as [res|err].
    2:{ injection Hrun as <- <- <- <-. simpl.
        refine (conj Hal (conj eq_refl (conj eq_refl (conj _ (conj _ Hlo))))); [lia|].
        apply Hhi; lia. }
    destruct (bls_Verify E _ _ _).
    2:{ injection Hrun as <- <- <- <-. simpl.
        refine (conj _ (conj eq_refl (conj eq_refl (conj _ (conj _ _))))).
        - by apply keysAllocated_set_keys.
        - lia.
        - rewrite sigSlot_set_keys. apply Hhi; lia.
        - intros j Hj. rewrite sigSlot_set_keys. by apply Hlo. }
    apply IH in Hrun; try lia.
    + destruct Hrun as (Hal' & HR & HC & Hx).
      refine (conj Hal' (conj _ (conj _ Hx))); [by rewrite HR | by rewrite HC].
    + by apply keysAllocated_set_sig, keysAllocated_set_keys.
    + intros j Hj. destruct (decide (j = i)) as [->|Hne].
      * eexists. eapply sigSlot_set_sig_eq; [by apply keysAllocated_set_keys|lia].
      * rewrite sigSlot_set_sig_ne; [|done]. rewrite sigSlot_set_keys.
        apply Hlo. lia.
    + intros j Hj1 Hj2. rewrite sigSlot_set_sig_ne; [|lia].
      rewrite sigSlot_set_keys. apply Hhi; lia.
Qed.

(** C9. Once the private keys of a round are set, a [pkg] message for
    that round changes nothing and reports nothing: no extraction is
    attempted. *)
Theorem extractPKGKeys_idempotent (c : Client) (v : PKGRound)
    (st : addFriendRoundState) (keys : list (option bytes)) :
  addFriendRounds c !! pr_Round v = Some st →
  PrivateKeys st = Some keys →
  extractPKGKeys E c v = Returned c [].
Proof.
  intros Hst Hk. unfold extractPKGKeys. by rewrite Hst, Hk.
Qed.

(** A [pkg] message whose settings verify always leaves the round with
    its slices allocated, however the extraction went. *)
Lemma extractPKGKeys_allocates (c : Client) (v : PKGRound) (st : addFriendRoundState) :
  addFriendRounds c !! pr_Round v = Some st →
  PrivateKeys st = None →
  PKGSettings_Verify E (pr_PKGSettings v) (pr_Round v)
    (Key <$> PKGServers (Config st)) = true →
  ∃ c1 st1 tr x,
    extractLoop E v (ValidUsernameToIdentity E (Username c)) 0
      (PKGServers (Config st)) c (allocKeys st) = (c1, st1, tr, x) ∧
    extractPKGKeys E c v
      = Returned (set_addFriendRounds (<[pr_Round v := st1]> (addFriendRounds c1)) c1) tr.
Proof.
  intros Hst Hk Hv. unfold extractPKGKeys. rewrite Hst, Hk, Hv.
  destruct (extractLoop E v _ 0 _ c (allocKeys st)) as [[[c1 st1] tr] x].
  by exists c1, st1, tr, x.
Qed.

(** C10. When the extraction loop of a round leaves through one of its
    [return] statements (no registration, [Extract] error, or identity
    signature rejected, at server [k]), the round keeps four non-nil
    slices of full length in which the signatures below [k] are set
    and the signature slot [k] is not; from then on every [pkg] message
    for the round returns at the [PrivateKeys] test, without events and
    without touching the state. *)
Theorem extractPKGKeys_failure_is_final (c : Client) (v : PKGRound)
    (st : addFriendRoundState) (c1 : Client) (st1 : addFriendRoundState)
    (tr : list Effect) (x : loopExit) (k : nat) :
  addFriendRounds c !! pr_Round v = Some st →
  PrivateKeys st = None →
  PKGSettings_Verify E (pr_PKGSettings v) (pr_Round v)
    (Key <$> PKGServers (Config st)) = true →
  extractLoop E v (ValidUsernameToIdentity E (Username c)) 0
    (PKGServers (Config st)) c (allocKeys st) = (c1, st1, tr, x) →
  exitIndex x = Some k →
  ∃ c' st',
    extractPKGKeys E c v = Returned c' tr ∧
    addFriendRounds c' !! pr_Round v = Some st' ∧
    keysAllocated (length (PKGServers (Config st))) st' ∧
    k < length (PKGServers (Config st)) ∧
    sigSlot st' k = Some None ∧
    (∀ j, j < k → ∃ sg, sigSlot st' j = Some (Some sg)) ∧
    ∀ v', pr_Round v' = pr_Round v → extractPKGKeys E c' v' = Returned c' [].
Proof.
  intros Hst Hk Hv Hrun Hx.
  destruct (extractPKGKeys_allocates c v st Hst Hk Hv) as (c1' & st1' & tr' & x' & Hrun' & Hres).
  rewrite Hrun in Hrun'. injection Hrun' as <- <- <- <-.
  pose proof (extractLoop_spec v _ (length (PKGServers (Config st)))
                _ _ _ _ _ _ _ _ Hrun eq_refl (keysAllocated_allocKeys st)) as Hspec.
  destruct Hspec as (Hal & _ & _ & Hslots).
  { intros j Hj. lia. }
  { intros j _ Hj. by apply sigSlot_allocKeys. }
  rewrite Hx in Hslots. destruct Hslots as (Hlt & Hnone & Hbelow).
  eexists _, st1. split; [exact Hres|].
  assert (Hlook : addFriendRounds
            (set_addFriendRounds (<[pr_Round v:=st1]> (addFriendRounds c1)) c1)
            !! pr_Round v = Some st1) by (simpl; apply lookup_insert_eq).
  refine (conj Hlook (conj Hal (conj Hlt (conj Hnone (conj Hbelow _))))).
  intros v' Hr. destruct Hal as (_ & (l & Hl & _) & _).
  unfold extractPKGKeys. by rewrite Hr, Hlook, Hl.
Qed.

(** Two [pkg] messages in a row for a known round, the first with
    settings that verify: the second one finds the private keys set,
    whatever the first extraction achieved. *)
Lemma extractPKGKeys_second_dispatch (c : Client) (v v' : PKGRound)
    (st : addFriendRoundState) :
  addFriendRounds c !! pr_Round v = Some st →
  PKGSettings_Verify E (pr_PKGSettings v) (pr_Round v)
    (Key <$> PKGServers (Config st)) = true →
  pr_Round v' = pr_Round v →
  extractPKGKeys E (out_client (extractPKGKeys E c v)) v'
    = Returned (out_client (extractPKGKeys E c v)) [].
Proof.
  intros Hst Hv Hr. destruct (PrivateKeys st) as [keys|] eqn:Hk.
  - unfold extractPKGKeys at 2 3. rewrite Hst, Hk. simpl.
    unfold extractPKGKeys. by rewrite Hr, Hst, Hk.
  - destruct (extractPKGKeys_allocates c v st Hst Hk Hv)
      as (c1 & st1 & tr & x & Hrun & ->). simpl.
    destruct (extractLoop_spec v _ (length (PKGServers (Config st)))
                _ _ _ _ _ _ _ _ Hrun eq_refl (keysAllocated_allocKeys st))
      as ((_ & (l & Hl & _) & _) & _).
    { intros j Hj. lia. }
    { intros j _ Hj. by apply sigSlot_allocKeys. }
    unfold extractPKGKeys. rewrite Hr. simpl. by rewrite lookup_insert_eq, Hl.
Qed.

End Extract.

Lemma extractPKGKeys_idempotent_witness :
  extractPKGKeys SampleExtract.envOk (SampleExtract.afterPkg SampleExtract.envOk)
      SampleExtract.pkg3
    = Returned (SampleExtract.afterPkg SampleExtract.envOk) [].
Proof.
  eapply (extractPKGKeys_idempotent SampleExtract.envOk
            (SampleExtract.afterPkg SampleExtract.envOk) SampleExtract.pkg3).
  - vm_compute. reflexivity.
  - vm_compute. reflexivity.
Defined.

Lemma extractPKGKeys_failure_is_final_witness :
  ∃ c' st',
    extractPKGKeys SampleExtract.envP2Down (Sample.alice [] []) SampleExtract.pkg3
      = Returned c' [HandlerError (ExtractFailed 3 "p2" "unauthorized")] ∧
    addFriendRounds c' !! pr_Round SampleExtract.pkg3 = Some st' ∧
    keysAllocated 2 st' ∧
    1 < 2 ∧
    sigSlot st' 1 = Some None ∧
    (∀ j, j < 1 → ∃ sg, sigSlot st' j = Some (Some sg)) ∧
    ∀ v', pr_Round v' = pr_Round SampleExtract.pkg3 →
          extractPKGKeys SampleExtract.envP2Down c' v' = Returned c' [].
Proof.
  eapply (extractPKGKeys_failure_is_final SampleExtract.envP2Down
            (Sample.alice [] []) SampleExtract.pkg3
            (newRoundState 3 Sample.config1) _ _ _ (ExtractError 1) 1).
  - vm_compute. reflexivity.
  - reflexivity.
  - reflexivity.
  - vm_compute. reflexivity.
  - reflexivity.
Defined.

(** *** mailbox: spans that do not verify are dropped in silence *)

(** The fuel of [Spans_from] is enough: for a positive span size the
    spans of a mailbox, read in order, give back the whole mailbox. *)
Lemma Spans_from_cover (mailbox : bytes) (spanSize : nat) :
  0 < spanSize →
  ∀ fuel start,
    start ≤ length mailbox →
    length mailbox - start ≤ fuel →
    concat (spanBytes mailbox <$> Spans_from fuel start (length mailbox) spanSize)
    = drop start mailbox.
Proof.
  intros Hsize. induction fuel as [|fuel IH]; intros start Hle Hfuel; simpl.
  - rewrite drop_ge; [done | lia].
  - destruct (decide (start < length mailbox)) as [Hlt|Hge].
    2:{ rewrite drop_ge; [done | lia]. }
    simpl. set (count := if decide (start + spanSize ≤ length mailbox)
                         then spanSize else length mailbox - start).
    assert (Hcount : 0 < count ∧ start + count ≤ length mailbox).
    { unfold count. destruct (decide _); lia. }
    rewrite IH by lia. unfold spanBytes. simpl.
    rewrite <- (take_drop count (drop start mailbox)) at 2.
    by rewrite drop_drop.
Qed.

Lemma Spans_cover (mailbox : bytes) (spanSize : nat) :
  0 < spanSize →
  concat (spanBytes mailbox <$> Spans (length mailbox) spanSize) = mailbox.
Proof.
  intros Hsize. unfold Spans.
  by rewrite (Spans_from_cover mailbox spanSize Hsize (length mailbox) 0) by lia.
Qed.

Section Mailbox.

Context (E : Env).

Lemma spanFails_spec privKey keys b :
  spanFails E privKey keys b = true ↔ spanFailure E privKey keys b.
Proof.
  unfold spanFails. split.
  - destruct (ciphertext_UnmarshalBinary E b) as [ctxt|] eqn:H1;
      [|intros _; by apply CiphertextUnmarshalFails].
    destruct (ibe_Decrypt E privKey ctxt) as [msg|] eqn:H2;
      [|intros _; by eapply DecryptFails].
    destruct (intro_UnmarshalBinary E msg) as [intro|] eqn:H3;
      [|intros _; by eapply IntroUnmarshalFails].
    destruct (intro_Verify_multisig E intro keys) eqn:H4;
      [|intros _; by eapply MultisigFails].
    destruct (intro_Verify_signature E intro) eqn:H5;
      [discriminate|intros _; by eapply SignatureFails].
  - intros [H1|ctxt H1 H2|ctxt msg H1 H2 H3|ctxt msg intro H1 H2 H3 H4
            |ctxt msg intro H1 H2 H3 H4].
    + by rewrite H1.
    + by rewrite H1, H2.
    + by rewrite H1, H2, H3.
    + by rewrite H1, H2, H3, H4.
    + rewrite H1, H2, H3, H4. apply orb_true_r.
Qed.

Lemma scanSpan_failure st privKey mailbox c span :
  spanFails E privKey (default [] (ServerBLSKeys st)) (spanBytes mailbox span) = true →
  scanSpan E st privKey mailbox c span = (c, []).
Proof.
  unfold spanFails, scanSpan, spanBytes, decodeAddFriendMessage, intro_Verify.
  destruct (ciphertext_UnmarshalBinary E _) as [ctxt|]; [|done].
  destruct (ibe_Decrypt E privKey ctxt) as [msg|]; [|done].
  destruct (intro_UnmarshalBinary E msg) as [intro|]; [|done].
  destruct (intro_Verify_multisig E intro _); [|done].
  destruct (intro_Verify_signature E intro); done.
Qed.

Lemma scanSpans_filter st privKey mailbox spans :
  ∀ c,
    scanSpans E st privKey mailbox spans c
    = scanSpans E st privKey mailbox
        (filter (λ s, spanFails E privKey (default [] (ServerBLSKeys st))
                        (spanBytes mailbox s) = false) spans) c.
Proof.
  induction spans as [|span rest IH]; intros c; [reflexivity|].
  rewrite filter_cons.
  destruct (spanFails E privKey _ (spanBytes mailbox span)) eqn:Hf.
  - destruct (decide _) as [?|_]; [done|].
    simpl. rewrite (scanSpan_failure _ _ _ _ _ Hf). rewrite IH.
    by destruct (scanSpans _ _ _ _ _ c).
  - destruct (decide _) as [_|?]; [|done].
    simpl. destruct (scanSpan E st privKey mailbox c span) as [c1 tr1].
    by rewrite IH.
Qed.

Lemma newFriend_errors c i s e :
  HandlerError e ∈ (newFriend E c i s).2 → ∃ err, e = PersistError err.
Proof.
  unfold newFriend. destruct (persistLocked E _) as [err|]; simpl; intros Hin.
  - apply elem_of_cons in Hin as [[= ->]|Hin]; [by eexists|].
    apply elem_of_cons in Hin as [?|Hin]; [done|]. by apply elem_of_nil in Hin.
  - apply elem_of_cons in Hin as [?|Hin]; [done|]. by apply elem_of_nil in Hin.
Qed.

Lemma decodeAddFriendMessage_errors c msg verifiers keys e :
  HandlerError e ∈ (decodeAddFriendMessage E c msg verifiers keys).2 →
  ∃ err, e = PersistError err.
Proof.
  unfold decodeAddFriendMessage.
  destruct (intro_UnmarshalBinary E msg) as [intro|];
    [|intros Hin; by apply elem_of_nil in Hin].
  destruct (intro_Verify E intro keys);
    [|intros Hin; by apply elem_of_nil in Hin].
  destruct (matchToSent _ _) as [s|].
  - apply newFriend_errors.
  - simpl. intros Hin. apply elem_of_cons in Hin as [?|Hin]; [done|].
    by apply elem_of_nil in Hin.
Qed.

Lemma scanSpans_errors st privKey mailbox spans e :
  ∀ c, HandlerError e ∈ (scanSpans E st privKey mailbox spans c).2 →
       ∃ err, e = PersistError err.
Proof.
  induction spans as [|span rest IH]; intros c; simpl.
  - intros Hin. by apply elem_of_nil in Hin.
  - destruct (scanSpan E st privKey mailbox c span) as [c1 tr1] eqn:H1.
    destruct (scanSpans E st privKey mailbox rest c1) as [c2 tr2] eqn:H2.
    simpl. intros Hin. apply elem_of_app in Hin as [Hin|Hin].
    + unfold scanSpan in H1.
      destruct (ciphertext_UnmarshalBinary E _) as [ctxt|];
        [|injection H1 as <- <-; by apply elem_of_nil in Hin].
      destruct (ibe_Decrypt E privKey ctxt) as [msg|];
        [|injection H1 as <- <-; by apply elem_of_nil in Hin].
      eapply decodeAddFriendMessage_errors. rewrite H1. exact Hin.
    + apply (IH c1). rewrite H2. exact Hin.
Qed.

(** C6. In a mailbox scan of a known round: a failed fetch is reported
    to the application; after a successful fetch, a span whose
    ciphertext does not unmarshal, does not decrypt, does not unmarshal
    as an introduction, or fails the multisig or the signature check
    changes nothing and emits nothing, so the scan equals the scan of
    the remaining spans; and the only [Error] a scan can then emit is
    the persistence error of [newFriend]. *)
Theorem scanMailbox_drops_bad_spans (c : Client) (v : MailboxURL)
    (st : addFriendRoundState) :
  addFriendRounds c !! mu_Round v = Some st →
  let fetched :=
    fetchMailbox E (CDNServer (Config st)) (mu_URL v)
      (usernameToMailbox E (Username c) (mu_NumMailboxes v)) in
  let privKey := ibe_AggregatePrivate E (default [] (PrivateKeys st)) in
  let keys := default [] (ServerBLSKeys st) in
  (∀ err, fetched = inr err →
     scanMailbox E c v = Returned c [HandlerError (FetchingMailbox err)]) ∧
  (∀ mailbox, fetched = inl mailbox →
     (∀ c0 span,
        spanFailure E privKey keys (spanBytes mailbox span) →
        scanSpan E st privKey mailbox c0 span = (c0, [])) ∧
     (∃ c1 tr,
        scanSpans E st privKey mailbox
          (filter (λ s, spanFails E privKey keys (spanBytes mailbox s) = false)
             (Spans (length mailbox) (SizeEncryptedIntro E))) c = (c1, tr) ∧
        scanMailbox E c v = Returned c1 tr) ∧
     (∀ e, HandlerError e ∈ out_trace (scanMailbox E c v) →
           ∃ err, e = PersistError err)).
Proof.
  intros Hst fetched privKey keys. split.
  - intros err Hf. unfold scanMailbox. rewrite Hst. fold fetched. by rewrite Hf.
  - intros mailbox Hf. split; [|split].
    + intros c0 span Hfail. apply scanSpan_failure. by apply spanFails_spec.
    + destruct (scanSpans E st privKey mailbox
                  (filter (λ s, spanFails E privKey keys (spanBytes mailbox s) = false)
                     (Spans (length mailbox) (SizeEncryptedIntro E))) c)
        as [c1 tr] eqn:Hs.
      exists c1, tr. split; [reflexivity|].
      unfold scanMailbox. rewrite Hst. fold fetched. rewrite Hf.
      fold privKey. rewrite scanSpans_filter. fold keys. by rewrite Hs.
    + intros e. unfold scanMailbox. rewrite Hst. fold fetched. rewrite Hf.
      fold privKey.
      destruct (scanSpans E st privKey mailbox _ c) as [c1 tr] eqn:Hs. simpl.
      intros Hin. eapply (scanSpans_errors st privKey mailbox _ e c).
      rewrite Hs. exact Hin.
Qed.

End Mailbox.

Lemma scanMailbox_drops_bad_spans_witness :
  ∃ c1 tr,
    scanSpans (Sample.env Sample.persistOk (inl [0; 1; 2; 3; 4; 5; 6; 7; 9; 9; 9]%Z) (λ _, true))
      (newRoundState 3 Sample.config1) [] [0; 1; 2; 3; 4; 5; 6; 7; 9; 9; 9]%Z
      [] (Sample.alice [] []) = (c1, tr) ∧
    scanMailbox (Sample.env Sample.persistOk (inl [0; 1; 2; 3; 4; 5; 6; 7; 9; 9; 9]%Z) (λ _, true))
      (Sample.alice [] []) {| mu_Round := 3; mu_URL := "u"; mu_NumMailboxes := 4 |}
    = Returned c1 tr.
Proof.
  destruct (scanMailbox_drops_bad_spans
              (Sample.env Sample.persistOk (inl [0; 1; 2; 3; 4; 5; 6; 7; 9; 9; 9]%Z) (λ _, true))
              (Sample.alice [] []) {| mu_Round := 3; mu_URL := "u"; mu_NumMailboxes := 4 |}
              (newRoundState 3 Sample.config1)) as [_ Hgood].
  - vm_compute. reflexivity.
  - destruct (Hgood [0; 1; 2; 3; 4; 5; 6; 7; 9; 9; 9]%Z eq_refl) as (_ & Hscan & _).
    exact Hscan.
Defined.

(** *** mix: the mix message *)

Lemma le_bytes_length (w : nat) (n : Z) : length (le_bytes w n) = w.
Proof. revert n. induction w as [|w IH]; intros n; simpl; [done|]. by rewrite IH. Qed.

Lemma MixMessage_MarshalBinary_length (m : MixMessage) :
  length (MixMessage_MarshalBinary m) = 8 + length (mm_EncryptedIntro m).
Proof. unfold MixMessage_MarshalBinary. by rewrite length_app, le_bytes_length. Qed.

Lemma copyLoop_result (xmask ymask : Z) (x : bytes) :
  ∀ y i, (copyLoop xmask ymask i x y).2
         = zip_with (λ xi yi, Z.lor (Z.land xi xmask) (Z.land yi ymask)) x y.
Proof.
  induction x as [|a x IH]; intros [|b y] i; simpl; try done.
  specialize (IH y (S i)). destruct (copyLoop xmask ymask (S i) x y). simpl in *.
  by rewrite IH.
Qed.

(** The loop visits every index once, in order, whatever the masks. *)
Lemma copyLoop_steps (xmask ymask : Z) (x : bytes) :
  ∀ y i, length x = length y →
         (copyLoop xmask ymask i x y).1
         = (j ← seq i (length x); [LoadX j; LoadY j; StoreX j]).
Proof.
  induction x as [|a x IH]; intros [|b y] i Hl; simpl in *; try done.
  specialize (IH y (S i)). destruct (copyLoop xmask ymask (S i) x y). simpl in *.
  rewrite IH by lia. done.
Qed.

Lemma ConstantTimeCopy_unfold v x y :
  ConstantTimeCopy v x y
  = if decide (length x = length y) then
      Some (zip_with (λ xi yi, Z.lor (Z.land xi (byte (v - 1)))
                                 (Z.land yi (byte (Z.lnot (v - 1))))) x y)
    else None.
Proof.
  unfold ConstantTimeCopy, ConstantTimeCopy_steps. destruct (decide _); [|done].
  pose proof (copyLoop_result (byte (v - 1)) (byte (Z.lnot (v - 1))) x y 0) as H.
  destruct (copyLoop _ _ 0 x y). simpl in *. by rewrite H.
Qed.

Lemma ConstantTimeCopy_steps_ok v x y :
  length x = length y →
  ∃ buf, ConstantTimeCopy_steps v x y = (copySteps (length x), inl buf)
         ∧ ConstantTimeCopy v x y = Some buf.
Proof.
  intros Hl. unfold ConstantTimeCopy, ConstantTimeCopy_steps.
  destruct (decide _); [|done].
  pose proof (copyLoop_steps (byte (v - 1)) (byte (Z.lnot (v - 1))) x y 0 Hl) as H.
  destruct (copyLoop _ _ 0 x y) as [tr out]. simpl in *. subst tr. by exists out.
Qed.

Lemma ConstantTimeCopy_length v x y buf :
  ConstantTimeCopy v x y = Some buf → length buf = length x.
Proof.
  rewrite ConstantTimeCopy_unfold. destruct (decide _) as [Hl|]; [|done].
  intros [= <-]. rewrite length_zip_with. lia.
Qed.

Lemma zip_with_select_y (x y : bytes) :
  length x = length y →
  zip_with (λ xi yi, Z.lor (Z.land xi 0) (Z.land yi 255)) x y = byte <$> y.
Proof.
  revert y. induction x as [|a x IH]; intros [|b y] Hl; simpl in *; try done.
  rewrite Z.land_0_r, Z.lor_0_l. f_equal. apply IH. lia.
Qed.

Lemma zip_with_select_x (x y : bytes) :
  length x = length y →
  zip_with (λ xi yi, Z.lor (Z.land xi 255) (Z.land yi 0)) x y = byte <$> x.
Proof.
  revert y. induction x as [|a x IH]; intros [|b y] Hl; simpl in *; try done.
  rewrite Z.land_0_r, Z.lor_0_r. f_equal. apply IH. lia.
Qed.

(** With [v = 1] the buffer receives [y]. *)
Lemma ConstantTimeCopy_1 (x y : bytes) :
  length x = length y → ConstantTimeCopy 1 x y = Some (byte <$> y).
Proof.
  intros Hl. rewrite ConstantTimeCopy_unfold. destruct (decide _); [|done].
  change (byte (1 - 1)) with 0%Z. change (byte (Z.lnot (1 - 1))) with 255%Z.
  by rewrite zip_with_select_y.
Qed.

(** With [v = 0] the buffer keeps its content. *)
Lemma ConstantTimeCopy_0 (x y : bytes) :
  length x = length y → ConstantTimeCopy 0 x y = Some (byte <$> x).
Proof.
  intros Hl. rewrite ConstantTimeCopy_unfold. destruct (decide _); [|done].
  change (byte (0 - 1)) with 255%Z. change (byte (Z.lnot (0 - 1))) with 0%Z.
  by rewrite zip_with_select_x.
Qed.

Lemma byte_zeros (n : nat) : byte <$> replicate n 0%Z = replicate n 0%Z.
Proof. by rewrite fmap_replicate. Qed.

Section MixMessage.

Context (E : Env).

Lemma isRealOf_real s : sent_Username s ≠ "" → isRealOf s = 1%Z.
Proof. intros H. unfold isRealOf. by destruct (decide _). Qed.

Lemma isRealOf_cover s : sent_Username s = "" → isRealOf s = 0%Z.
Proof. intros H. unfold isRealOf. by destruct (decide _). Qed.

(** The mix message without the steps. *)
Lemma buildMixMessage_unfold rnd st intro s N :
  buildMixMessage E rnd st intro s N
  = match intro_MarshalBinary E intro with
    | inr err => inr ("marshalling error: " +:+ err)
    | inl introBytes =>
        match ciphertext_MarshalBinary E
                (ibe_Encrypt E rnd
                   (ibe_AggregateMaster E (default [] (ServerMasterKeys st)))
                   (ValidUsernameToIdentity E (sent_Username s)) introBytes) with
        | inr err => inr ("marshalling error: " +:+ err)
        | inl encIntroBytes =>
            match ConstantTimeCopy (isRealOf s)
                    (replicate (SizeEncryptedIntro E) 0%Z) encIntroBytes with
            | None => inr "subtle: slices have different lengths"
            | Some buf =>
                inl {| mm_Mailbox := usernameToMailbox E (sent_Username s) N;
                       mm_EncryptedIntro := buf |}
            end
        end
    end.
Proof.
  unfold buildMixMessage, mixMessageSteps, mustMarshal, call, mbind, Steps_bind, mret,
    Steps_ret.
  destruct (intro_MarshalBinary E intro) as [introBytes|err]; [|done].
  destruct (ciphertext_MarshalBinary E _) as [encIntroBytes|err]; [|done].
  unfold ConstantTimeCopy.
  destruct (ConstantTimeCopy_steps _ _ encIntroBytes) as [tr [buf|msg]] eqn:Hc; simpl.
  - done.
  - unfold ConstantTimeCopy_steps in Hc. destruct (decide _).
    + by destruct (copyLoop _ _ _ _ _).
    + by injection Hc as <- <-.
Qed.

(** Under [librariesBehave] the construction of the mix message does
    not panic, and its payload is the constant-time selection between
    the zeroed buffer and the encrypted introduction. *)
Lemma buildMixMessage_ok (HE : librariesBehave E) rnd st intro s N :
  ∃ enc buf,
    encIntroBytesOf E rnd st intro s = Some enc ∧
    length enc = SizeEncryptedIntro E ∧
    ConstantTimeCopy (isRealOf s) (replicate (SizeEncryptedIntro E) 0%Z) enc = Some buf ∧
    length buf = SizeEncryptedIntro E ∧
    buildMixMessage E rnd st intro s N
      = inl {| mm_Mailbox := usernameToMailbox E (sent_Username s) N;
               mm_EncryptedIntro := buf |}.
Proof.
  destruct HE as (_ & Hm & Hc).
  destruct (Hm intro) as [m Hmi].
  destruct (Hc rnd (ibe_AggregateMaster E (default [] (ServerMasterKeys st)))
              (ValidUsernameToIdentity E (sent_Username s)) intro m Hmi) as (enc & Henc & Hlen).
  assert (Hcopy : ∃ buf, ConstantTimeCopy (isRealOf s)
                    (replicate (SizeEncryptedIntro E) 0%Z) enc = Some buf).
  { rewrite ConstantTimeCopy_unfold, length_replicate.
    destruct (decide _); [by eexists | congruence]. }
  destruct Hcopy as [buf Hbuf].
  exists enc, buf. split; [|split; [|split; [|split]]].
  - unfold encIntroBytesOf. by rewrite Hmi, Henc.
  - exact Hlen.
  - exact Hbuf.
  - apply ConstantTimeCopy_length in Hbuf. by rewrite Hbuf, length_replicate.
  - rewrite buildMixMessage_unfold. by rewrite Hmi, Henc, Hbuf.
Qed.

(** Under [librariesBehave] the steps are the same for every request:
    the library calls, then the copy over every byte of the payload
    buffer. *)
Lemma mixMessageSteps_ok (HE : librariesBehave E) rnd st intro s N :
  (mixMessageSteps E rnd st intro s N).1
  = mixCalls ++ copySteps (SizeEncryptedIntro E).
Proof.
  destruct HE as (_ & Hm & Hc).
  destruct (Hm intro) as [m Hmi].
  destruct (Hc rnd (ibe_AggregateMaster E (default [] (ServerMasterKeys st)))
              (ValidUsernameToIdentity E (sent_Username s)) intro m Hmi) as (enc & Henc & Hlen).
  destruct (ConstantTimeCopy_steps_ok (isRealOf s)
              (replicate (SizeEncryptedIntro E) 0%Z) enc) as (buf & Hsteps & _).
  { by rewrite length_replicate. }
  rewrite length_replicate in Hsteps.
  unfold mixMessageSteps, mustMarshal, call, mbind, Steps_bind, mret, Steps_ret.
  rewrite Hmi, Henc, Hsteps. simpl. by rewrite app_nil_r.
Qed.

(** C5. Whatever the round state, the introductions and the entropy,
    the mix message of a real request and that of a cover request are
    both built, and by the same steps: the same library calls in the
    same order, one aggregation and one encryption among them, then
    the copy on the is-real bit, which loads and stores every byte of
    the zeroed payload buffer of [SizeEncryptedIntro] bytes.  Their
    encodings have the same length, 8 bytes of mailbox plus
    [SizeEncryptedIntro]; the payload is the result of
    [ConstantTimeCopy] over the zeroed buffer and the encrypted
    introduction: the encrypted introduction for a real request, zeros
    for a cover request.  The bytes of a message are its mailbox field
    followed by the selected payload, and real and cover differ in
    both: the mailbox of the cover message is the number of mailboxes,
    that of the real message is the recipient's and lies below it. *)
Theorem mixMessage_real_cover_same_length (HE : librariesBehave E)
    (rnd rnd' : bytes) (st st' : addFriendRoundState) (intro intro' : introduction)
    (real cover : sentFriendRequest) (N N' : Z) :
  sent_Username real ≠ "" →
  sent_Username cover = "" →
  ∃ mr mc enc enc',
    buildMixMessage E rnd st intro real N = inl mr ∧
    buildMixMessage E rnd' st' intro' cover N' = inl mc ∧
    (mixMessageSteps E rnd st intro real N).1
      = (mixMessageSteps E rnd' st' intro' cover N').1 ∧
    (mixMessageSteps E rnd st intro real N).1
      = mixCalls ++ copySteps (SizeEncryptedIntro E) ∧
    length (MixMessage_MarshalBinary mr) = length (MixMessage_MarshalBinary mc) ∧
    length (MixMessage_MarshalBinary mr) = 8 + SizeEncryptedIntro E ∧
    encIntroBytesOf E rnd st intro real = Some enc ∧
    encIntroBytesOf E rnd' st' intro' cover = Some enc' ∧
    ConstantTimeCopy 1 (replicate (SizeEncryptedIntro E) 0%Z) enc
      = Some (mm_EncryptedIntro mr) ∧
    ConstantTimeCopy 0 (replicate (SizeEncryptedIntro E) 0%Z) enc'
      = Some (mm_EncryptedIntro mc) ∧
    mm_EncryptedIntro mr = byte <$> enc ∧
    mm_EncryptedIntro mc = replicate (SizeEncryptedIntro E) 0%Z ∧
    MixMessage_MarshalBinary mr
      = le_bytes 8 (usernameToMailbox E (sent_Username real) N) ++ (byte <$> enc) ∧
    MixMessage_MarshalBinary mc
      = le_bytes 8 N' ++ replicate (SizeEncryptedIntro E) 0%Z ∧
    ((0 < N)%Z → (0 ≤ mm_Mailbox mr < N)%Z).
Proof.
  intros Hreal Hcover.
  destruct (buildMixMessage_ok HE rnd st intro real N)
    as (enc & buf & He & Hle & Hcp & Hlb & Hb).
  destruct (buildMixMessage_ok HE rnd' st' intro' cover N')
    as (enc' & buf' & He' & Hle' & Hcp' & Hlb' & Hb').
  rewrite (isRealOf_real _ Hreal) in Hcp. rewrite (isRealOf_cover _ Hcover) in Hcp'.
  assert (Hpr : buf = byte <$> enc).
  { rewrite ConstantTimeCopy_1 in Hcp; [congruence | by rewrite length_replicate]. }
  assert (Hpc : buf' = replicate (SizeEncryptedIntro E) 0%Z).
  { rewrite ConstantTimeCopy_0 in Hcp'; [| by rewrite length_replicate].
    rewrite byte_zeros in Hcp'. congruence. }
  eexists _, _, enc, enc'.
  split; [exact Hb|]. split; [exact Hb'|].
  split; [by rewrite !(mixMessageSteps_ok HE)|].
  split; [apply (mixMessageSteps_ok HE)|].
  rewrite !MixMessage_MarshalBinary_length. simpl.
  split; [by rewrite Hlb, Hlb'|]. split; [by rewrite Hlb|].
  split; [exact He|]. split; [exact He'|].
  split; [exact Hcp|]. split; [exact Hcp'|].
  split; [exact Hpr|]. split; [exact Hpc|].
  unfold MixMessage_MarshalBinary. simpl.
  split; [by rewrite Hpr|]. split.
  - rewrite Hpc, Hcover. unfold usernameToMailbox. by destruct (decide _).
  - intros HN. unfold usernameToMailbox. destruct (decide _); [done|].
    by apply Z.mod_pos_bound.
Qed.

(** C8. For a positive mailbox count [N]: the empty username is sent
    to mailbox [N]; any other username [u] is sent to
    siphash(k, ValidUsernameToIdentity(u)) mod N, which is below [N];
    so in every mix message the engine builds, the mailbox field is
    [N] exactly when the request is a cover request. *)
Theorem usernameToMailbox_spec (u : string) (N : Z) :
  (0 < N)%Z →
  usernameToMailbox E "" N = N ∧
  (u ≠ "" →
     usernameToMailbox E u N
       = (siphash_Hash E (siphash_key E) (ValidUsernameToIdentity E u) `mod` N)%Z
     ∧ (0 ≤ usernameToMailbox E u N < N)%Z) ∧
  (usernameToMailbox E u N = N ↔ u = "") ∧
  (∀ rnd st intro s m,
     buildMixMessage E rnd st intro s N = inl m →
     (mm_Mailbox m = N ↔ isRealOf s = 0%Z)).
Proof.
  intros HN.
  assert (Hne : ∀ w, w ≠ "" →
            usernameToMailbox E w N
              = (siphash_Hash E (siphash_key E) (ValidUsernameToIdentity E w) `mod` N)%Z
            ∧ (0 ≤ usernameToMailbox E w N < N)%Z).
  { intros w Hw. unfold usernameToMailbox. destruct (decide _); [done|].
    split; [reflexivity|]. by apply Z.mod_pos_bound. }
  assert (Hiff : ∀ w, usernameToMailbox E w N = N ↔ w = "").
  { intros w. split.
    - intros Heq. destruct (decide (w = "")) as [|Hw]; [done|].
      destruct (Hne w Hw) as [_ Hb]. lia.
    - intros ->. reflexivity. }
  split; [reflexivity|]. split; [apply Hne|]. split; [apply Hiff|].
  intros rnd st intro s m Hb. rewrite buildMixMessage_unfold in Hb.
  destruct (intro_MarshalBinary E intro); [|done].
  destruct (ciphertext_MarshalBinary E _); [|done].
  destruct (ConstantTimeCopy _ _ _); [|done].
  injection Hb as <-. simpl. rewrite Hiff. unfold isRealOf.
  destruct (decide (sent_Username s ≠ "")) as [Hs|Hs]; split; try done.
  intros _. by apply dec_stable.
Qed.

End MixMessage.

Lemma Sample_env_behaves persist mailbox extractOk :
  librariesBehave (Sample.env persist mailbox extractOk).
Proof.
  split; [|split]; simpl.
  - intros rnd. by eexists.
  - intros intro. by eexists.
  - intros rnd mk id intro m _. eexists. split; [reflexivity|].
    unfold Sample.pad. rewrite length_take, length_app, length_replicate. lia.
Qed.

Lemma mixMessage_real_cover_same_length_witness :
  ∃ mr mc enc enc',
    buildMixMessage SampleMix.E0 [7%Z] SampleMix.st3 SampleMix.introOfAlice
      SampleMix.toBob 4 = inl mr ∧
    buildMixMessage SampleMix.E0 [8%Z] SampleMix.st3 SampleMix.introOfAlice
      SampleMix.toNobody 4 = inl mc ∧
    (mixMessageSteps SampleMix.E0 [7%Z] SampleMix.st3 SampleMix.introOfAlice
       SampleMix.toBob 4).1
      = (mixMessageSteps SampleMix.E0 [8%Z] SampleMix.st3 SampleMix.introOfAlice
           SampleMix.toNobody 4).1 ∧
    (mixMessageSteps SampleMix.E0 [7%Z] SampleMix.st3 SampleMix.introOfAlice
       SampleMix.toBob 4).1
      = mixCalls ++ copySteps (SizeEncryptedIntro SampleMix.E0) ∧
    length (MixMessage_MarshalBinary mr) = length (MixMessage_MarshalBinary mc) ∧
    length (MixMessage_MarshalBinary mr) = 8 + SizeEncryptedIntro SampleMix.E0 ∧
    encIntroBytesOf SampleMix.E0 [7%Z] SampleMix.st3 SampleMix.introOfAlice
      SampleMix.toBob = Some enc ∧
    encIntroBytesOf SampleMix.E0 [8%Z] SampleMix.st3 SampleMix.introOfAlice
      SampleMix.toNobody = Some enc' ∧
    ConstantTimeCopy 1 (replicate (SizeEncryptedIntro SampleMix.E0) 0%Z) enc
      = Some (mm_EncryptedIntro mr) ∧
    ConstantTimeCopy 0 (replicate (SizeEncryptedIntro SampleMix.E0) 0%Z) enc'
      = Some (mm_EncryptedIntro mc) ∧
    mm_EncryptedIntro mr = byte <$> enc ∧
    mm_EncryptedIntro mc = replicate (SizeEncryptedIntro SampleMix.E0) 0%Z ∧
    MixMessage_MarshalBinary mr
      = le_bytes 8 (usernameToMailbox SampleMix.E0 (sent_Username SampleMix.toBob) 4)
          ++ (byte <$> enc) ∧
    MixMessage_MarshalBinary mc
      = le_bytes 8 4 ++ replicate (SizeEncryptedIntro SampleMix.E0) 0%Z ∧
    ((0 < 4)%Z → (0 ≤ mm_Mailbox mr < 4)%Z).
Proof.
  apply (mixMessage_real_cover_same_length SampleMix.E0
           (Sample_env_behaves _ _ _) [7%Z] [8%Z] SampleMix.st3 SampleMix.st3
           SampleMix.introOfAlice SampleMix.introOfAlice
           SampleMix.toBob SampleMix.toNobody 4 4).
  - vm_compute. discriminate.
  - reflexivity.
Defined.

(** C5 as worded fails on the mailbox field: the real and the cover
    message built in the same round from the same introduction and the
    same entropy, for the same number of mailboxes, differ in their
    first 8 bytes, which are not part of the selected payload. *)
Lemma mixMessage_mailbox_shows_cover :
  sent_Username SampleMix.toBob ≠ "" ∧
  sent_Username SampleMix.toNobody = "" ∧
  buildMixMessage SampleMix.E0 [7%Z] SampleMix.st3 SampleMix.introOfAlice
    SampleMix.toBob 4
  = inl {| mm_Mailbox := 3;
           mm_EncryptedIntro := [5; 1; 97; 108; 105; 99; 101; 0]%Z |} ∧
  buildMixMessage SampleMix.E0 [7%Z] SampleMix.st3 SampleMix.introOfAlice
    SampleMix.toNobody 4
  = inl {| mm_Mailbox := 4;
           mm_EncryptedIntro := [0; 0; 0; 0; 0; 0; 0; 0]%Z |} ∧
  take 8 (MixMessage_MarshalBinary
            {| mm_Mailbox := 3;
               mm_EncryptedIntro := [5; 1; 97; 108; 105; 99; 101; 0]%Z |})
  = [3; 0; 0; 0; 0; 0; 0; 0]%Z ∧
  take 8 (MixMessage_MarshalBinary
            {| mm_Mailbox := 4;
               mm_EncryptedIntro := [0; 0; 0; 0; 0; 0; 0; 0]%Z |})
  = [4; 0; 0; 0; 0; 0; 0; 0]%Z.
Proof. vm_compute. repeat split. discriminate. Qed.

Lemma usernameToMailbox_spec_witness :
  usernameToMailbox SampleMix.E0 "" 4 = 4%Z ∧
  (usernameToMailbox SampleMix.E0 "bob" 4 = 4%Z ↔ "bob" = "").
Proof.
  destruct (usernameToMailbox_spec SampleMix.E0 "bob" 4) as (H0 & _ & Hiff & _).
  - lia.
  - split; [exact H0 | exact Hiff].
Defined.

(** *** mix: one onion per round *)

Section OneOnion.

Context (E : Env).

Lemma verifyMixSignatures_ok (msg : bytes) (sigs : list bytes) :
  ∀ mixers off,
    (∀ i mixer, mixers !! i = Some mixer →
       ∃ sg, sigs !! (off + i) = Some sg ∧ ed25519_Verify E (Key mixer) msg sg = true) →
    verifyMixSignatures E msg sigs off mixers = SigsOk.
Proof.
  induction mixers as [|mixer rest IH]; intros off Hall; simpl; [done|].
  destruct (Hall 0 mixer eq_refl) as (sg & Hsg & Hv).
  rewrite Nat.add_0_r in Hsg. rewrite Hsg, Hv.
  apply IH. intros i m Hi. destruct (Hall (S i) m Hi) as (sg' & Hsg' & Hv').
  exists sg'. split; [|done]. by replace (S off + i) with (off + S i) by lia.
Qed.

Lemma newFriend_outgoing c i s :
  outgoingFriendRequests (newFriend E c i s).1 = outgoingFriendRequests c.
Proof. unfold newFriend. by destruct (persistLocked E _). Qed.

Lemma newFriend_onionsSent c i s : onionsSent (newFriend E c i s).2 = 0.
Proof. unfold newFriend. by destruct (persistLocked E _). Qed.

Lemma afterSend_outgoing c o s :
  outgoingFriendRequests (afterSend E c o s).1 = outgoingFriendRequests c.
Proof.
  unfold afterSend. destruct (decide _); [|done].
  destruct (matchToIncoming c s) as [i|]; [|done].
  pose proof (newFriend_outgoing c i s) as H.
  by destruct (newFriend E c i s).
Qed.

Lemma afterSend_onionsSent c o s : onionsSent (afterSend E c o s).2 = 0.
Proof.
  unfold afterSend. destruct (decide _); [|done].
  destruct (matchToIncoming c s) as [i|]; [|done].
  pose proof (newFriend_onionsSent c i s) as H.
  by destruct (newFriend E c i s).
Qed.

(** A real request is announced to the application first; a cover
    request leaves no trace and no change. *)
Lemma afterSend_shape c o s :
  (sent_Username s ≠ "" →
     ∃ tr', (afterSend E c o s).2 = HandlerSentFriendRequest o :: tr') ∧
  (sent_Username s = "" → afterSend E c o s = (c, [])).
Proof.
  unfold afterSend. split; intros Hs; destruct (decide _); try done.
  destruct (matchToIncoming c s) as [i|]; [|by eexists].
  destruct (newFriend E c i s). by eexists.
Qed.

Lemma genIntro_ok (HE : librariesBehave E) rnd c st out :
  ∃ intro sent,
    genIntro E rnd c st out = inl (intro, sent, set_heap_next (S (heap_next c)) c) ∧
    sent_Username sent = out_Username out ∧
    sent_ExpectedKey sent = out_ExpectedKey out ∧
    sent_ptr sent = heap_next c.
Proof.
  destruct HE as (Hk & _ & _). destruct (Hk rnd) as [[pub priv] Hg].
  unfold genIntro. rewrite Hg. by eexists _, _.
Qed.

(** C1, as the code has it.  In a known round whose mixer signatures
    all verify, and with libraries that do not fail, the handler
    returns after exactly one [conn.Send], of an onion for that round.
    The request it is built from is the head of the outgoing queue,
    which is removed, or the synthesized request with empty username
    when the queue is empty.  The request counts as real exactly when
    its username is not empty: then [SentFriendRequest] follows the
    send; a request with empty username, queued or synthesized, is
    sent as cover with no further event. *)
Theorem sendAddFriendOnion_one_onion (HE : librariesBehave E)
    (rnd : bytes) (c : Client) (v : MixRound) (st : addFriendRoundState) :
  addFriendRounds c !! ms_Round (mr_MixSettings v) = Some st →
  (∀ i mixer, MixServers (Config st) !! i = Some mixer →
     ∃ sg, mr_MixSignatures v !! i = Some sg ∧
           ed25519_Verify E (Key mixer) (SigningMessage E (mr_MixSettings v)) sg = true) →
  ∃ c' onion tr req intro sentReq m,
    sendAddFriendOnion E rnd c v
      = Returned c'
          (ConnSend "onion" {| om_Round := ms_Round (mr_MixSettings v);
                               om_Onion := onion |} :: tr) ∧
    onionsSent (out_trace (sendAddFriendOnion E rnd c v)) = 1 ∧
    match outgoingFriendRequests c with
    | head :: rest => req = head ∧ outgoingFriendRequests c' = rest
    | [] => req = coverRequest ∧ outgoingFriendRequests c' = []
    end ∧
    sent_Username sentReq = out_Username req ∧
    buildMixMessage E rnd st intro sentReq (ms_NumMailboxes (mr_MixSettings v)) = inl m ∧
    onion = onionbox_Seal E rnd (MixMessage_MarshalBinary m) zeroNonce
              (ms_OnionKeys (mr_MixSettings v)) ∧
    (out_Username req ≠ "" → ∃ tr', tr = HandlerSentFriendRequest req :: tr') ∧
    (out_Username req = "" → tr = []).
Proof.
  intros Hst Hsigs.
  unfold sendAddFriendOnion. rewrite Hst.
  rewrite (verifyMixSignatures_ok _ _ _ 0 Hsigs).
  destruct (nextOutgoingFriendRequest c) as [req c1] eqn:Hnext.
  destruct (genIntro_ok HE rnd c1 st req) as (intro & sent & Hgen & Hname & _ & _).
  rewrite Hgen.
  destruct (buildMixMessage_ok E HE rnd st intro sent (ms_NumMailboxes (mr_MixSettings v)))
    as (enc & buf & _ & _ & _ & _ & Hbuild).
  rewrite Hbuild.
  pose proof (afterSend_outgoing (set_heap_next (S (heap_next c1)) c1) req sent) as Hout.
  pose proof (afterSend_onionsSent (set_heap_next (S (heap_next c1)) c1) req sent) as Hcnt.
  pose proof (afterSend_shape (set_heap_next (S (heap_next c1)) c1) req sent) as [Hre Hco].
  destruct (afterSend E _ req sent) as [c3 tr] eqn:Hafter. simpl in Hout, Hcnt, Hre, Hco.
  eexists c3, _, tr, req, intro, sent, _.
  split; [reflexivity|]. split; [simpl; by rewrite Hcnt|].
  split.
  { unfold nextOutgoingFriendRequest in Hnext.
    destruct (outgoingFriendRequests c) as [|h t] eqn:Hq.
    - injection Hnext as <- <-. split; [done|]. by rewrite Hout.
    - injection Hnext as <- <-. split; [done|]. by rewrite Hout. }
  split; [exact Hname|]. split; [exact Hbuild|]. split; [reflexivity|].
  split.
  - intros Hr. apply Hre. by rewrite Hname.
  - intros Hr. rewrite Hname in Hco. specialize (Hco Hr). by injection Hco.
Qed.

End OneOnion.

Lemma sendAddFriendOnion_one_onion_witness :
  onionsSent
    (out_trace
       (sendAddFriendOnion SampleMix.E0 [7%Z]
          (Sample.alice [SampleSend.bobRequest] []) Sample.mix3)) = 1.
Proof.
  destruct (sendAddFriendOnion_one_onion SampleMix.E0 (Sample_env_behaves _ _ _)
              [7%Z] (Sample.alice [SampleSend.bobRequest] []) Sample.mix3
              (newRoundState 3 Sample.config1))
    as (c' & onion & tr & req & intro & sentReq & m & _ & Hone & _).
  - vm_compute. reflexivity.
  - intros [|i] mixer; simpl; intros Hm; [|destruct i; discriminate].
    injection Hm as <-. eexists. split; reflexivity.
  - exact Hone.
Defined.

(** C1 as worded fails on a queue whose head has an empty username:
    the queue is not empty, the head is dequeued, and what is sent is
    the cover onion (mailbox 4 of 4, zeroed payload) with no
    [SentFriendRequest] and nothing recorded as sent. *)
Lemma sendAddFriendOnion_queued_empty_username_is_cover :
  outgoingFriendRequests (Sample.alice [SampleSend.emptyNameRequest] [])
    = [SampleSend.emptyNameRequest] ∧
  out_trace
    (sendAddFriendOnion SampleMix.E0 [7%Z]
       (Sample.alice [SampleSend.emptyNameRequest] []) Sample.mix3)
    = [ConnSend "onion"
         {| om_Round := 3;
            om_Onion := [4; 0; 0; 0; 0; 0; 0; 0; 0; 0; 0; 0; 0; 0; 0; 0]%Z |}] ∧
  out_trace
    (sendAddFriendOnion SampleMix.E0 [7%Z]
       (Sample.alice [SampleSend.emptyNameRequest] []) Sample.mix3)
    = out_trace
        (sendAddFriendOnion SampleMix.E0 [7%Z] (Sample.alice [] []) Sample.mix3) ∧
  outgoingFriendRequests
    (out_client
       (sendAddFriendOnion SampleMix.E0 [7%Z]
          (Sample.alice [SampleSend.emptyNameRequest] []) Sample.mix3)) = [] ∧
  sentFriendRequests
    (out_client
       (sendAddFriendOnion SampleMix.E0 [7%Z]
          (Sample.alice [SampleSend.emptyNameRequest] []) Sample.mix3)) = [].
Proof. vm_compute. repeat split. Qed.

(** *** Pairing of sent and incoming requests *)

Section Pairing.

Context (E : Env).

Lemma matchToSent_loop_Some q i s :
  matchToSent_loop q i = Some s → s ∈ q ∧ matches i s.
Proof.
  induction q as [|x q IH]; simpl; [done|].
  destruct (decide _) as [Hm|Hm].
  - intros [= <-]. split; [apply list_elem_of_here | exact Hm].
  - intros H. destruct (IH H) as [Hin Hmt]. split; [by apply list_elem_of_further | done].
Qed.

Lemma matchToSent_loop_None q i :
  matchToSent_loop q i = None ↔ ∀ s, s ∈ q → ¬ matches i s.
Proof.
  induction q as [|x q IH]; simpl.
  - split; [|done]. intros _ s Hs. by apply elem_of_nil in Hs.
  - destruct (decide _) as [Hm|Hm].
    + split; [done|]. intros H. exfalso. apply (H x); [apply list_elem_of_here | exact Hm].
    + rewrite IH. split.
      * intros H s Hs. apply elem_of_cons in Hs as [->|Hs]; [exact Hm | by apply H].
      * intros H s Hs. apply H. by apply list_elem_of_further.
Qed.

Lemma matchToIncoming_loop_Some q s i :
  matchToIncoming_loop q s = Some i → i ∈ q ∧ matches i s.
Proof.
  induction q as [|x q IH]; simpl; [done|].
  destruct (decide _) as [Hm|Hm].
  - intros [= <-]. split; [apply list_elem_of_here | exact Hm].
  - intros H. destruct (IH H) as [Hin Hmt]. split; [by apply list_elem_of_further | done].
Qed.

Lemma matchToIncoming_loop_None q s :
  matchToIncoming_loop q s = None ↔ ∀ i, i ∈ q → ¬ matches i s.
Proof.
  induction q as [|x q IH]; simpl.
  - split; [|done]. intros _ i Hi. by apply elem_of_nil in Hi.
  - destruct (decide _) as [Hm|Hm].
    + split; [done|]. intros H. exfalso. apply (H x); [apply list_elem_of_here | exact Hm].
    + rewrite IH. split.
      * intros H i Hi. apply elem_of_cons in Hi as [->|Hi]; [exact Hm | by apply H].
      * intros H i Hi. apply H. by apply list_elem_of_further.
Qed.

(** The store after [newFriend]. *)
Lemma newFriend_store c i s :
  friends (newFriend E c i s).1 = <[in_Username i := friendOf i]> (friends c) ∧
  wheel (newFriend E c i s).1
    = wheel_Put (in_Username i) (in_DialRound i)
        (box_Precompute E (in_DHPublicKey i) (sent_DHPrivateKey s)) (wheel c) ∧
  incomingFriendRequests (newFriend E c i s).1
    = filter (λ req, in_ptr req ≠ in_ptr i) (incomingFriendRequests c) ∧
  sentFriendRequests (newFriend E c i s).1
    = filter (λ req, sent_ptr req ≠ sent_ptr s) (sentFriendRequests c) ∧
  HandlerConfirmedFriend (friendOf i) ∈ (newFriend E c i s).2.
Proof.
  unfold newFriend, friendOf. destruct (persistLocked E _); simpl;
    repeat split; auto; repeat constructor.
Qed.

Lemma newFriend_befriended c i s : befriended (newFriend E c i s) i s.
Proof.
  destruct (newFriend_store c i s) as (Hf & _ & Hi & Hs & Hev).
  unfold befriended. rewrite Hf, Hi, Hs.
  split; [apply lookup_insert_eq|]. split; [exact Hev|].
  split; intros Hin; apply list_elem_of_filter in Hin as [Hne _]; by apply Hne.
Qed.

Lemma newFriend_noPendingPair c i s :
  noPendingPair c → noPendingPair (newFriend E c i s).1.
Proof.
  intros Hinv. destruct (newFriend_store c i s) as (_ & _ & Hi & Hs & _).
  intros x y. rewrite Hi, Hs. intros Hx Hy.
  apply list_elem_of_filter in Hx as [_ Hx]. apply list_elem_of_filter in Hy as [_ Hy].
  by apply Hinv.
Qed.

(** C3. A pairing happens exactly when username and dial round agree.
    On the receiving side, for a verified introduction: if some sent
    request has its username and dial round, the earliest such one is
    paired with it (a [Friend] for that username is stored and
    announced, the sent request leaves the sent queue and the incoming
    request is in no queue); if none has, no friend is made and the
    request is queued.  On the sending side, for a real request, the
    same with the roles exchanged.  Either step keeps the queues free
    of a waiting pair that agrees on username and dial round. *)
Theorem pairing_iff_username_and_dialround :
  (∀ c msg verifiers keys intro,
     intro_UnmarshalBinary E msg = Some intro →
     intro_Verify E intro keys = true →
     let req := incomingOf E c intro verifiers in
     let r := decodeAddFriendMessage E c msg verifiers keys in
     ((∃ s, s ∈ sentFriendRequests c ∧ matches req s) →
        ∃ s, matchToSent c req = Some s ∧ s ∈ sentFriendRequests c ∧ matches req s
             ∧ befriended r req s) ∧
     ((∀ s, s ∈ sentFriendRequests c → ¬ matches req s) →
        friends r.1 = friends c ∧
        sentFriendRequests r.1 = sentFriendRequests c ∧
        incomingFriendRequests r.1 = incomingFriendRequests c ++ [req] ∧
        r.2 = [HandlerReceivedFriendRequest req]) ∧
     (noPendingPair c → noPendingPair r.1)) ∧
  (∀ c out s,
     sent_Username s ≠ "" →
     let r := afterSend E c out s in
     ((∃ i, i ∈ incomingFriendRequests c ∧ matches i s) →
        ∃ i, matchToIncoming c s = Some i ∧ i ∈ incomingFriendRequests c ∧ matches i s
             ∧ befriended r i s) ∧
     ((∀ i, i ∈ incomingFriendRequests c → ¬ matches i s) →
        friends r.1 = friends c ∧
        incomingFriendRequests r.1 = incomingFriendRequests c ∧
        sentFriendRequests r.1 = sentFriendRequests c ++ [s] ∧
        r.2 = [HandlerSentFriendRequest out]) ∧
     (noPendingPair c → noPendingPair r.1)).
Proof.
  split.
  - intros c msg verifiers keys intro Hun Hver req r.
    assert (Hr : r = match matchToSent c req with
                     | Some s => newFriend E (set_heap_next (S (heap_next c)) c) req s
                     | None =>
                         (set_incomingFriendRequests (incomingFriendRequests c ++ [req])
                            (set_heap_next (S (heap_next c)) c),
                          [HandlerReceivedFriendRequest req])
                     end).
    { unfold r, decodeAddFriendMessage. by rewrite Hun, Hver. }
    clearbody r. subst r. unfold matchToSent.
    split; [|split].
    + intros (s & Hs & Hm).
      destruct (matchToSent_loop (sentFriendRequests c) req) as [s0|] eqn:Hloop.
      * destruct (matchToSent_loop_Some _ _ _ Hloop) as [Hin Hm0].
        exists s0. split; [reflexivity|]. split; [exact Hin|]. split; [exact Hm0|].
        apply newFriend_befriended.
      * exfalso. by apply (proj1 (matchToSent_loop_None _ _) Hloop s).
    + intros Hno. by rewrite (proj2 (matchToSent_loop_None _ _) Hno).
    + intros Hinv.
      destruct (matchToSent_loop (sentFriendRequests c) req) as [s0|] eqn:Hloop.
      * by apply newFriend_noPendingPair.
      * simpl. intros x y Hx Hy. simpl in Hx, Hy.
        apply elem_of_app in Hx as [Hx|Hx]; [by apply Hinv|].
        apply list_elem_of_singleton in Hx as ->.
        by apply (proj1 (matchToSent_loop_None _ _) Hloop).
  - intros c out s Hreal r.
    assert (Hr : r = match matchToIncoming c s with
                     | Some i =>
                         ((newFriend E c i s).1,
                          HandlerSentFriendRequest out :: (newFriend E c i s).2)
                     | None =>
                         (set_sentFriendRequests (sentFriendRequests c ++ [s]) c,
                          [HandlerSentFriendRequest out])
                     end).
    { unfold r, afterSend. destruct (decide _); [|done].
      destruct (matchToIncoming c s) as [i|]; [|done]. by destruct (newFriend E c i s). }
    clearbody r. subst r. unfold matchToIncoming.
    split; [|split].
    + intros (i & Hi & Hm).
      destruct (matchToIncoming_loop (incomingFriendRequests c) s) as [i0|] eqn:Hloop.
      * destruct (matchToIncoming_loop_Some _ _ _ Hloop) as [Hin Hm0].
        exists i0. split; [reflexivity|]. split; [exact Hin|]. split; [exact Hm0|].
        destruct (newFriend_befriended c i0 s) as (H1 & H2 & H3 & H4).
        split; [exact H1|]. split; [by apply list_elem_of_further|]. by split.
      * exfalso. by apply (proj1 (matchToIncoming_loop_None _ _) Hloop i).
    + intros Hno. by rewrite (proj2 (matchToIncoming_loop_None _ _) Hno).
    + intros Hinv.
      destruct (matchToIncoming_loop (incomingFriendRequests c) s) as [i0|] eqn:Hloop.
      * simpl. by apply newFriend_noPendingPair.
      * simpl. intros x y Hx Hy. simpl in Hx, Hy.
        apply elem_of_app in Hy as [Hy|Hy]; [by apply Hinv|].
        apply list_elem_of_singleton in Hy as ->.
        by apply (proj1 (matchToIncoming_loop_None _ _) Hloop).
Qed.

End Pairing.

Lemma pairing_iff_username_and_dialround_witness :
  ∃ s,
    matchToSent (Sample.alice [] [SamplePair.sentToBob])
      (incomingOf SamplePair.E0 (Sample.alice [] [SamplePair.sentToBob])
         SamplePair.introFromBob []) = Some s ∧
    s ∈ sentFriendRequests (Sample.alice [] [SamplePair.sentToBob]) ∧
    matches
      (incomingOf SamplePair.E0 (Sample.alice [] [SamplePair.sentToBob])
         SamplePair.introFromBob []) s ∧
    befriended
      (decodeAddFriendMessage SamplePair.E0 (Sample.alice [] [SamplePair.sentToBob])
         SamplePair.fromBob [] [])
      (incomingOf SamplePair.E0 (Sample.alice [] [SamplePair.sentToBob])
         SamplePair.introFromBob []) s.
Proof.
  destruct (pairing_iff_username_and_dialround SamplePair.E0) as [Hdec _].
  destruct (Hdec (Sample.alice [] [SamplePair.sentToBob]) SamplePair.fromBob [] []
              SamplePair.introFromBob eq_refl eq_refl) as (Hpair & _ & _).
  apply Hpair. exists SamplePair.sentToBob.
  split; [apply list_elem_of_here | split; reflexivity].
Defined.

(** *** The expected key of a sent request *)

(** C2, what the code does.  No path of [decodeAddFriendMessage] calls
    [UnexpectedSigningKey]; and on the sample input, where alice
    expects key [66] from bob and the matching introduction carries
    key [77], the handler makes bob a friend with key [77], announces
    [ConfirmedFriend] and empties the sent queue. *)
Theorem decodeAddFriendMessage_ignores_expected_key :
  (∀ E c msg verifiers keys i o,
     HandlerUnexpectedSigningKey i o
       ∉ (decodeAddFriendMessage E c msg verifiers keys).2) ∧
  sent_ExpectedKey SamplePair.sentToBob = Some [66%Z] ∧
  (decodeAddFriendMessage SamplePair.E0 (Sample.alice [] [SamplePair.sentToBob])
     SamplePair.fromBob [] []).2
    = [HandlerConfirmedFriend SamplePair.bob77] ∧
  friends
    (decodeAddFriendMessage SamplePair.E0 (Sample.alice [] [SamplePair.sentToBob])
       SamplePair.fromBob [] []).1 !! "bob"
    = Some SamplePair.bob77 ∧
  sentFriendRequests
    (decodeAddFriendMessage SamplePair.E0 (Sample.alice [] [SamplePair.sentToBob])
       SamplePair.fromBob [] []).1
    = [].
Proof.
  split; [|vm_compute; repeat split].
  intros E c msg verifiers keys i o. unfold decodeAddFriendMessage.
  destruct (intro_UnmarshalBinary E msg) as [intro|]; simpl; [|apply not_elem_of_nil].
  destruct (intro_Verify E intro keys); simpl; [|apply not_elem_of_nil].
  destruct (matchToSent _ _) as [s|]; simpl.
  - unfold newFriend. destruct (persistLocked E _); simpl; intros Hin;
      repeat (apply elem_of_cons in Hin as [?|Hin]; [done|]);
      by apply elem_of_nil in Hin.
  - intros Hin. apply elem_of_cons in Hin as [?|Hin]; [done|].
    by apply elem_of_nil in Hin.
Qed.

(** *** Failure to persist *)

(** C7 as worded fails in [newFriend]: with a disk that refuses the
    write, a mailbox scan that makes bob a friend returns normally, the
    friend is in memory, and the application gets [Error] followed by
    [ConfirmedFriend]. *)
Lemma scanMailbox_persist_failure_returns :
  persistLocked SamplePair.EdiskFull
    (out_client
       (scanMailbox SamplePair.EdiskFull (Sample.alice [] [SamplePair.sentToBob])
          SamplePair.mailbox3))
    = Some "disk full" ∧
  panicked
    (scanMailbox SamplePair.EdiskFull (Sample.alice [] [SamplePair.sentToBob])
       SamplePair.mailbox3) = false ∧
  out_trace
    (scanMailbox SamplePair.EdiskFull (Sample.alice [] [SamplePair.sentToBob])
       SamplePair.mailbox3)
    = [HandlerError (PersistError "disk full");
       HandlerConfirmedFriend SamplePair.bob77] ∧
  friends
    (out_client
       (scanMailbox SamplePair.EdiskFull (Sample.alice [] [SamplePair.sentToBob])
          SamplePair.mailbox3)) !! "bob"
    = Some SamplePair.bob77 ∧
  friends (Sample.alice [] [SamplePair.sentToBob]) !! "bob" = None.
Proof. vm_compute. repeat split. Qed.

Section Persist.

Context (E : Env).

(** C7, as the code has it.  When the write fails at the end of
    [loadAddFriendConfig], the handler panics: so does a [newround]
    that installs a fetched config.  When the write fails in
    [newFriend], the new friend and the filtered queues stay in memory,
    the error goes to the application as an [Error] event, and
    [ConfirmedFriend] follows. *)
Theorem persist_failure_handling :
  (∀ c config err,
     persistLocked E
       (registerLoop E (PKGServers config)
          (set_addFriendConfig config (config_Hash E config) c)).1 = Some err →
     ∃ c' tr,
       loadAddFriendConfig E c config
         = Panicked ("failed to persist state: " +:+ err) c' tr) ∧
  (∀ c v config err,
     addFriendRounds c !! nr_Round v = None →
     nr_ConfigHash v ≠ addFriendConfigHash c →
     fetchAndVerifyConfig E (addFriendConfig c) (nr_ConfigHash v) = inl config →
     (∀ c0, persistLocked E c0 = Some err) →
     panicked (newAddFriendRound E c v) = true) ∧
  (∀ c i s err,
     persistLocked E (newFriend E c i s).1 = Some err →
     (newFriend E c i s).2
       = [HandlerError (PersistError err); HandlerConfirmedFriend (friendOf i)]
     ∧ friends (newFriend E c i s).1 !! in_Username i = Some (friendOf i)).
Proof.
  split; [|split].
  - intros c config err. unfold loadAddFriendConfig.
    destruct (registerLoop E _ _) as [c2 tr]. simpl. intros ->. by eexists _, _.
  - intros c v config err Hnew Hhash Hfetch Hfail.
    unfold newAddFriendRound. rewrite Hnew.
    destruct (decide _) as [|_]; [done|]. rewrite Hfetch.
    unfold loadAddFriendConfig. destruct (registerLoop E _ _) as [c2 tr].
    by rewrite Hfail.
  - intros c i s err. unfold newFriend, friendOf. simpl. intros ->.
    split; [reflexivity | apply lookup_insert_eq].
Qed.

End Persist.

Lemma persist_failure_handling_witness :
  (newFriend SamplePair.EdiskFull (Sample.alice [] [SamplePair.sentToBob])
     (incomingOf SamplePair.EdiskFull (Sample.alice [] [SamplePair.sentToBob])
        SamplePair.introFromBob []) SamplePair.sentToBob).2
    = [HandlerError (PersistError "disk full");
       HandlerConfirmedFriend SamplePair.bob77]
  ∧ friends
      (newFriend SamplePair.EdiskFull (Sample.alice [] [SamplePair.sentToBob])
         (incomingOf SamplePair.EdiskFull (Sample.alice [] [SamplePair.sentToBob])
            SamplePair.introFromBob []) SamplePair.sentToBob).1 !! "bob"
    = Some SamplePair.bob77.
Proof.
  destruct (persist_failure_handling SamplePair.EdiskFull) as (_ & _ & Hnf).
  apply (Hnf (Sample.alice [] [SamplePair.sentToBob])
           (incomingOf SamplePair.EdiskFull (Sample.alice [] [SamplePair.sentToBob])
              SamplePair.introFromBob []) SamplePair.sentToBob "disk full").
  vm_compute. reflexivity.
Defined.

(** ** Further properties of the engine *)

(** *** What each handler leaves alone *)

Section Frames.

Context (E : Env).

Lemma registerLoop_frame servers :
  ∀ c, (registerLoop E servers c).1
       = set_registrations (registrations (registerLoop E servers c).1) c.
Proof.
  induction servers as [|pkgServer rest IH]; intros c; simpl.
  - by destruct c.
  - destruct (registrations c !! _); [apply IH|].
    destruct (pkg_CheckStatus E _) as [[[] m|m]|];
      try (specialize (IH c); destruct (registerLoop E rest c); exact IH);
      try (rewrite IH at 1; reflexivity).
    destruct (pkg_Register E _).
    + specialize (IH c). destruct (registerLoop E rest c). exact IH.
    + rewrite IH at 1. reflexivity.
Qed.

Lemma registerLoop_storeKept servers c :
  storeKept c (registerLoop E servers c).1
  ∧ addFriendRounds (registerLoop E servers c).1 = addFriendRounds c.
Proof. rewrite registerLoop_frame. by repeat split. Qed.

Lemma extractLoop_frame v id :
  ∀ servers i c st,
    (extractLoop E v id i servers c st).1.1.1
    = set_registrations (registrations (extractLoop E v id i servers c st).1.1.1) c
    ∧ Round (extractLoop E v id i servers c st).1.1.2 = Round st
    ∧ Config (extractLoop E v id i servers c st).1.1.2 = Config st.
Proof.
  induction servers as [|pkgServer rest IH]; intros i c st; simpl.
  - by destruct c.
  - destruct (registrations c !! _); [|by destruct c].
    destruct (pkg_Extract E _ _); [|by destruct c].
    destruct (bls_Verify E _ _ _); [|by destruct c].
    destruct (IH (S i) (set_registrations
                          (<[regid E (Key pkgServer) (Username c) :=
                               set_UserLongTermKey (LongTermPublicKey c) p]>
                             (registrations c)) c)
                (set_sig i (er_IdentitySig e)
                   (set_keys i
                      (rs_MasterPublicKey
                         (default zeroRoundSettings
                            (pr_PKGSettings v !!
                               hex_EncodeToString E
                                 (Key (pkgc_PublicServerConfig
                                         (set_UserLongTermKey (LongTermPublicKey c) p))))))
                      (rs_BLSPublicKey
                         (default zeroRoundSettings
                            (pr_PKGSettings v !!
                               hex_EncodeToString E
                                 (Key (pkgc_PublicServerConfig
                                         (set_UserLongTermKey (LongTermPublicKey c) p))))))
                      (er_PrivateKey e) st))) as (Hc & HR & HC).
    split; [|split]; [|exact HR|exact HC].
    rewrite Hc at 1. reflexivity.
Qed.

End Frames.

Section HandlerFrames.

Context (E : Env).

Lemma newFriend_roundsSame c i s :
  roundsSame c (newFriend E c i s).1
  ∧ outgoingFriendRequests (newFriend E c i s).1 = outgoingFriendRequests c.
Proof. unfold newFriend. by repeat split. Qed.

Lemma newFriend_friendsKept c i s : friendsKept c (newFriend E c i s).1.
Proof.
  intros u [f Hf]. unfold newFriend. simpl.
  destruct (decide (in_Username i = u)) as [->|Hne].
  - rewrite lookup_insert_eq. by eexists.
  - rewrite lookup_insert_ne by done. by eexists.
Qed.

Lemma newFriend_trace c i s :
  onionsSent (newFriend E c i s).2 = 0 ∧ sentEvents (newFriend E c i s).2 = [].
Proof. unfold newFriend. simpl. by destruct (persistLocked E _). Qed.

Lemma decodeAddFriendMessage_roundsSame c msg verifiers keys :
  roundsSame c (decodeAddFriendMessage E c msg verifiers keys).1
  ∧ outgoingFriendRequests (decodeAddFriendMessage E c msg verifiers keys).1
    = outgoingFriendRequests c.
Proof.
  unfold decodeAddFriendMessage.
  destruct (intro_UnmarshalBinary E msg) as [intro|]; [|by repeat split].
  destruct (intro_Verify E intro keys); [|by repeat split].
  destruct (matchToSent _ _) as [s|]; [|by repeat split].
  exact (newFriend_roundsSame (set_heap_next (S (heap_next c)) c) _ s).
Qed.

Lemma decodeAddFriendMessage_friendsKept c msg verifiers keys :
  friendsKept c (decodeAddFriendMessage E c msg verifiers keys).1.
Proof.
  unfold decodeAddFriendMessage.
  destruct (intro_UnmarshalBinary E msg) as [intro|]; [|by intros u].
  destruct (intro_Verify E intro keys); [|by intros u].
  destruct (matchToSent _ _) as [s|]; [|by intros u].
  exact (newFriend_friendsKept (set_heap_next (S (heap_next c)) c) _ s).
Qed.

Lemma decodeAddFriendMessage_trace c msg verifiers keys :
  onionsSent (decodeAddFriendMessage E c msg verifiers keys).2 = 0
  ∧ sentEvents (decodeAddFriendMessage E c msg verifiers keys).2 = [].
Proof.
  unfold decodeAddFriendMessage.
  destruct (intro_UnmarshalBinary E msg) as [intro|]; [|done].
  destruct (intro_Verify E intro keys); [|done].
  destruct (matchToSent _ _) as [s|]; [|done].
  apply newFriend_trace.
Qed.

Lemma onionsSent_app tr1 tr2 : onionsSent (tr1 ++ tr2) = onionsSent tr1 + onionsSent tr2.
Proof.
  induction tr1 as [|e tr1 IH]; simpl; [done|]. destruct e; simpl; by rewrite ?IH.
Qed.

Lemma sentEvents_app tr1 tr2 : sentEvents (tr1 ++ tr2) = sentEvents tr1 ++ sentEvents tr2.
Proof.
  induction tr1 as [|e tr1 IH]; simpl; [done|]. destruct e; simpl; by rewrite ?IH.
Qed.

Lemma scanSpan_cases st privKey mailbox c span :
  scanSpan E st privKey mailbox c span = (c, [])
  ∨ ∃ msg, scanSpan E st privKey mailbox c span
           = decodeAddFriendMessage E c msg (PKGServers (Config st))
               (default [] (ServerBLSKeys st)).
Proof.
  unfold scanSpan.
  destruct (ciphertext_UnmarshalBinary E _) as [ctxt|]; [|by left].
  destruct (ibe_Decrypt E privKey ctxt) as [msg|]; [|by left].
  right. by exists msg.
Qed.

Lemma scanSpans_roundsSame st privKey mailbox spans :
  ∀ c, roundsSame c (scanSpans E st privKey mailbox spans c).1
       ∧ outgoingFriendRequests (scanSpans E st privKey mailbox spans c).1
         = outgoingFriendRequests c.
Proof.
  induction spans as [|span rest IH]; intros c; simpl; [by repeat split|].
  assert (H1 : roundsSame c (scanSpan E st privKey mailbox c span).1
               ∧ outgoingFriendRequests (scanSpan E st privKey mailbox c span).1
                 = outgoingFriendRequests c).
  { destruct (scanSpan_cases st privKey mailbox c span) as [->|[msg ->]];
      [by repeat split | apply decodeAddFriendMessage_roundsSame]. }
  destruct (scanSpan E st privKey mailbox c span) as [c1 tr1].
  specialize (IH c1). destruct (scanSpans E st privKey mailbox rest c1) as [c2 tr2].
  simpl in *. destruct H1 as ((U1 & L1 & R1) & O1). destruct IH as ((U2 & L2 & R2) & O2).
  repeat split; congruence.
Qed.

Lemma scanSpans_friendsKept st privKey mailbox spans :
  ∀ c, friendsKept c (scanSpans E st privKey mailbox spans c).1.
Proof.
  induction spans as [|span rest IH]; intros c; simpl; [by intros u|].
  assert (H1 : friendsKept c (scanSpan E st privKey mailbox c span).1).
  { destruct (scanSpan_cases st privKey mailbox c span) as [->|[msg ->]];
      [by intros u | apply decodeAddFriendMessage_friendsKept]. }
  destruct (scanSpan E st privKey mailbox c span) as [c1 tr1].
  specialize (IH c1). destruct (scanSpans E st privKey mailbox rest c1) as [c2 tr2].
  simpl in *. intros u Hu. by apply IH, H1.
Qed.

Lemma scanSpans_trace st privKey mailbox spans :
  ∀ c, onionsSent (scanSpans E st privKey mailbox spans c).2 = 0
       ∧ sentEvents (scanSpans E st privKey mailbox spans c).2 = [].
Proof.
  induction spans as [|span rest IH]; intros c; simpl; [done|].
  assert (H1 : onionsSent (scanSpan E st privKey mailbox c span).2 = 0
               ∧ sentEvents (scanSpan E st privKey mailbox c span).2 = []).
  { destruct (scanSpan_cases st privKey mailbox c span) as [->|[msg ->]];
      [done | apply decodeAddFriendMessage_trace]. }
  destruct (scanSpan E st privKey mailbox c span) as [c1 tr1].
  specialize (IH c1). destruct (scanSpans E st privKey mailbox rest c1) as [c2 tr2].
  simpl in *. rewrite onionsSent_app, sentEvents_app.
  destruct H1 as [-> ->]. by destruct IH as [-> ->].
Qed.

Lemma afterSend_roundsSame c o s : roundsSame c (afterSend E c o s).1.
Proof.
  unfold afterSend. destruct (decide _); [|by repeat split].
  destruct (matchToIncoming c s) as [i|]; [|by repeat split].
  pose proof (newFriend_roundsSame c i s) as [H _].
  by destruct (newFriend E c i s).
Qed.

Lemma afterSend_friendsKept c o s : friendsKept c (afterSend E c o s).1.
Proof.
  unfold afterSend. destruct (decide _); [|by intros u].
  destruct (matchToIncoming c s) as [i|]; [|by intros u].
  pose proof (newFriend_friendsKept c i s) as H.
  by destruct (newFriend E c i s).
Qed.

Lemma afterSend_sentEvents c o s :
  sentEvents (afterSend E c o s).2 = if decide (sent_Username s ≠ "") then [o] else [].
Proof.
  unfold afterSend. destruct (decide _); [|done].
  destruct (matchToIncoming c s) as [i|]; [|done].
  pose proof (newFriend_trace c i s) as [_ H].
  destruct (newFriend E c i s). simpl in *. by rewrite H.
Qed.

Lemma genIntro_inv rnd c st out intro sent c2 :
  genIntro E rnd c st out = inl (intro, sent, c2) →
  c2 = set_heap_next (S (heap_next c)) c ∧ sent_Username sent = out_Username out.
Proof.
  unfold genIntro. destruct (box_GenerateKey E rnd) as [[pub priv]|]; [|done].
  by intros [= <- <- <-].
Qed.

Lemma registerLoop_trace servers :
  ∀ c, onionsSent (registerLoop E servers c).2 = 0
       ∧ sentEvents (registerLoop E servers c).2 = [].
Proof.
  induction servers as [|p l IH]; intros c; simpl; [done|].
  destruct (registrations c !! _); [apply IH|].
  destruct (pkg_CheckStatus E _) as [[[] m|m]|];
    try (specialize (IH c); destruct (registerLoop E l c); exact IH);
    try apply IH.
  destruct (pkg_Register E _); [|apply IH].
  specialize (IH c). by destruct (registerLoop E l c).
Qed.

Lemma extractLoop_trace v id servers :
  ∀ i c st, onionsSent (extractLoop E v id i servers c st).1.2 = 0
            ∧ sentEvents (extractLoop E v id i servers c st).1.2 = [].
Proof.
  induction servers as [|p l IH]; intros i c st; simpl; [done|].
  destruct (registrations c !! _); [|done].
  destruct (pkg_Extract E _ _); [|done].
  destruct (bls_Verify E _ _ _); [apply IH|done].
Qed.

(** [newround] and [pkg] leave the friends, the queues and the
    identity of the client alone, and send nothing. *)
Lemma newAddFriendRound_storeKept c v :
  storeKept c (out_client (newAddFriendRound E c v))
  ∧ onionsSent (out_trace (newAddFriendRound E c v)) = 0
  ∧ sentEvents (out_trace (newAddFriendRound E c v)) = [].
Proof.
  unfold newAddFriendRound.
  destruct (addFriendRounds c !! nr_Round v) as [st|].
  { destruct (decide _); by repeat split. }
  destruct (decide _); [by repeat split|].
  destruct (fetchAndVerifyConfig E _ _) as [config|err]; [|by repeat split].
  unfold loadAddFriendConfig.
  match goal with |- context [registerLoop E ?l ?c0] =>
    pose proof (registerLoop_storeKept E l c0) as [Hk _];
    pose proof (registerLoop_trace l c0) as Htr;
    destruct (registerLoop E l c0) as [c2 tr]
  end.
  simpl in *. destruct (persistLocked E c2); simpl; by split.
Qed.

Lemma extractPKGKeys_storeKept c v :
  storeKept c (out_client (extractPKGKeys E c v))
  ∧ onionsSent (out_trace (extractPKGKeys E c v)) = 0
  ∧ sentEvents (out_trace (extractPKGKeys E c v)) = [].
Proof.
  unfold extractPKGKeys.
  destruct (addFriendRounds c !! pr_Round v) as [st|]; [|by repeat split].
  destruct (PrivateKeys st); [by repeat split|].
  destruct (PKGSettings_Verify E _ _ _); [|by repeat split].
  match goal with |- context [extractLoop E ?v ?id ?i ?l ?c0 ?s0] =>
    pose proof (extractLoop_frame E v id l i c0 s0) as (Hc & _);
    pose proof (extractLoop_trace v id l i c0 s0) as Htr;
    destruct (extractLoop E v id i l c0 s0) as [[[c1 st1] tr] x]
  end.
  simpl in *. split; [|exact Htr]. rewrite Hc. unfold storeKept. by simpl.
Qed.

End HandlerFrames.

(** *** Runs of the dispatcher *)

Section Runs.

Context (E : Env).

Lemma newAddFriendRound_rounds c v :
  addFriendRounds (out_client (newAddFriendRound E c v)) = addFriendRounds c
  ∨ (addFriendRounds c !! nr_Round v = None
     ∧ ∃ cfg, addFriendRounds (out_client (newAddFriendRound E c v))
              = <[nr_Round v := newRoundState (nr_Round v) cfg]> (addFriendRounds c)).
Proof.
  unfold newAddFriendRound.
  destruct (addFriendRounds c !! nr_Round v) as [st|] eqn:Hr.
  { left. by destruct (decide _). }
  destruct (decide _); [right; split; [done|]; by eexists|].
  destruct (fetchAndVerifyConfig E _ _) as [config|err]; [|by left].
  right. split; [done|]. exists config.
  unfold loadAddFriendConfig.
  match goal with |- context [registerLoop E ?l ?c0] =>
    pose proof (registerLoop_storeKept E l c0) as [_ Hk];
    destruct (registerLoop E l c0) as [c2 tr]
  end.
  simpl in *. by destruct (persistLocked E c2).
Qed.

Lemma extractPKGKeys_rounds c v :
  addFriendRounds (out_client (extractPKGKeys E c v)) = addFriendRounds c
  ∨ ∃ st st1,
      addFriendRounds c !! pr_Round v = Some st
      ∧ Round st1 = Round st ∧ Config st1 = Config st
      ∧ addFriendRounds (out_client (extractPKGKeys E c v))
        = <[pr_Round v := st1]> (addFriendRounds c).
Proof.
  unfold extractPKGKeys.
  destruct (addFriendRounds c !! pr_Round v) as [st|] eqn:Hr; [|by left].
  destruct (PrivateKeys st); [by left|].
  destruct (PKGSettings_Verify E _ _ _); [|by left].
  right. exists st.
  match goal with |- context [extractLoop E ?v ?id ?i ?l ?c0 ?s0] =>
    pose proof (extractLoop_frame E v id l i c0 s0) as (Hc & HR & HC);
    destruct (extractLoop E v id i l c0 s0) as [[[c1 st1] tr] x]
  end.
  simpl in *. exists st1. rewrite Hc. by repeat split.
Qed.

Lemma sendAddFriendOnion_roundsSame rnd c v :
  roundsSame c (out_client (sendAddFriendOnion E rnd c v)).
Proof.
  unfold sendAddFriendOnion.
  destruct (addFriendRounds c !! _) as [st|]; [|by repeat split].
  destruct (verifyMixSignatures E _ _ _ _); try by repeat split.
  assert (Hn : roundsSame c (nextOutgoingFriendRequest c).2).
  { unfold nextOutgoingFriendRequest. by destruct (outgoingFriendRequests c). }
  destruct (nextOutgoingFriendRequest c) as [req c1]. simpl in Hn.
  destruct (genIntro E rnd c1 st req) as [[[intro sent] c2]|msg] eqn:Hg; [|exact Hn].
  apply genIntro_inv in Hg as [-> _].
  destruct (buildMixMessage E _ _ _ _ _); [|exact Hn].
  pose proof (afterSend_roundsSame E (set_heap_next (S (heap_next c1)) c1) req sent) as Ha.
  destruct (afterSend E _ req sent) as [c3 tr]. simpl in *.
  destruct Hn as (U & L & R). destruct Ha as (U' & L' & R'). simpl in *.
  repeat split; congruence.
Qed.

Lemma sendAddFriendOnion_friendsKept rnd c v :
  friendsKept c (out_client (sendAddFriendOnion E rnd c v)).
Proof.
  unfold sendAddFriendOnion.
  destruct (addFriendRounds c !! _) as [st|]; [|by intros u].
  destruct (verifyMixSignatures E _ _ _ _); try by intros u.
  assert (Hn : friends (nextOutgoingFriendRequest c).2 = friends c).
  { unfold nextOutgoingFriendRequest. by destruct (outgoingFriendRequests c). }
  destruct (nextOutgoingFriendRequest c) as [req c1]. simpl in Hn.
  destruct (genIntro E rnd c1 st req) as [[[intro sent] c2]|msg] eqn:Hg;
    [|intros u; simpl; by rewrite Hn].
  apply genIntro_inv in Hg as [-> _].
  destruct (buildMixMessage E _ _ _ _ _); [|intros u; simpl; by rewrite Hn].
  pose proof (afterSend_friendsKept E (set_heap_next (S (heap_next c1)) c1) req sent) as Ha.
  destruct (afterSend E _ req sent) as [c3 tr]. simpl in *.
  intros u Hu. apply Ha. simpl. by rewrite Hn.
Qed.

Lemma sendAddFriendOnion_onions rnd c v :
  onionsSent (out_trace (sendAddFriendOnion E rnd c v)) ≤ 1.
Proof.
  unfold sendAddFriendOnion.
  destruct (addFriendRounds c !! _) as [st|]; [|simpl; lia].
  destruct (verifyMixSignatures E _ _ _ _); try (simpl; lia).
  destruct (nextOutgoingFriendRequest c) as [req c1].
  destruct (genIntro E rnd c1 st req) as [[[intro sent] c2]|msg]; [|simpl; lia].
  destruct (buildMixMessage E _ _ _ _ _); [|simpl; lia].
  pose proof (afterSend_onionsSent E c2 req sent) as Ha.
  destruct (afterSend E c2 req sent) as [c3 tr]. simpl in *. lia.
Qed.

(** A mix handler that returns has taken at most the head of the
    outgoing queue, and has announced it exactly when it is real. *)
Lemma sendAddFriendOnion_queue rnd c v c' tr :
  sendAddFriendOnion E rnd c v = Returned c' tr →
  ∃ k, outgoingFriendRequests c' = drop k (outgoingFriendRequests c)
       ∧ sentEvents tr
         = filter (λ r, out_Username r ≠ "") (take k (outgoingFriendRequests c)).
Proof.
  unfold sendAddFriendOnion.
  destruct (addFriendRounds c !! _) as [st|]; [|intros [= <- <-]; by exists 0].
  destruct (verifyMixSignatures E _ _ _ _); [|intros [= <- <-]; by exists 0|done].
  destruct (nextOutgoingFriendRequest c) as [req c1] eqn:Hn.
  destruct (genIntro E rnd c1 st req) as [[[intro sent] c2]|msg] eqn:Hg; [|done].
  apply genIntro_inv in Hg as [-> Hname].
  destruct (buildMixMessage E _ _ _ _ _); [|done].
  pose proof (afterSend_outgoing E (set_heap_next (S (heap_next c1)) c1) req sent) as Ho.
  pose proof (afterSend_sentEvents E (set_heap_next (S (heap_next c1)) c1) req sent) as Hs.
  destruct (afterSend E _ req sent) as [c3 tr3]. simpl in Ho, Hs.
  intros [= <- <-]. simpl. rewrite Hs, Ho, Hname.
  unfold nextOutgoingFriendRequest in Hn.
  destruct (outgoingFriendRequests c) as [|h t] eqn:Hq.
  - injection Hn as <- <-. exists 0. simpl. by rewrite Hq.
  - injection Hn as <- <-. exists 1. simpl. split; [done|].
    rewrite take_0, filter_cons, filter_nil. by destruct (decide _).
Qed.

Lemma scanMailbox_roundsSame c v :
  roundsSame c (out_client (scanMailbox E c v))
  ∧ outgoingFriendRequests (out_client (scanMailbox E c v)) = outgoingFriendRequests c
  ∧ friendsKept c (out_client (scanMailbox E c v))
  ∧ onionsSent (out_trace (scanMailbox E c v)) = 0
  ∧ sentEvents (out_trace (scanMailbox E c v)) = [].
Proof.
  unfold scanMailbox.
  destruct (addFriendRounds c !! _) as [st|];
    [|repeat split; try done; by intros u].
  destruct (fetchMailbox E _ _ _) as [mailbox|err];
    [|repeat split; try done; by intros u].
  match goal with |- context [scanSpans E ?st ?k ?mb ?l ?c0] =>
    pose proof (scanSpans_roundsSame E st k mb l c0) as [Hr Ho];
    pose proof (scanSpans_friendsKept E st k mb l c0) as Hf;
    pose proof (scanSpans_trace E st k mb l c0) as [Ht1 Ht2];
    destruct (scanSpans E st k mb l c0) as [c1 tr]
  end.
  by simpl in *.
Qed.

Lemma roundsKept_refl c : roundsKept c c.
Proof. intros r st H. by exists st. Qed.

Lemma roundsKept_trans a b c : roundsKept a b → roundsKept b c → roundsKept a c.
Proof.
  intros Hab Hbc r st H. destruct (Hab r st H) as (st1 & H1 & R1 & C1).
  destruct (Hbc r st1 H1) as (st2 & H2 & R2 & C2). exists st2.
  repeat split; congruence.
Qed.

Lemma roundsKept_same c c' : addFriendRounds c' = addFriendRounds c → roundsKept c c'.
Proof. intros Heq r st H. exists st. by rewrite Heq. Qed.

Lemma addFriendMux_roundsKept c m : roundsKept c (out_client (addFriendMux E c m)).
Proof.
  destruct m as [v|v|rnd v|v|v]; simpl.
  - destruct (newAddFriendRound_rounds c v) as [Heq|[Hnone [cfg Heq]]];
      [by apply roundsKept_same|].
    intros r st H. exists st. rewrite Heq.
    rewrite lookup_insert_ne; [done|]. intros <-. congruence.
  - destruct (extractPKGKeys_rounds c v) as [Heq|(st0 & st1 & Hst & HR & HC & Heq)];
      [by apply roundsKept_same|].
    intros r st H. rewrite Heq. destruct (decide (pr_Round v = r)) as [<-|Hne].
    + exists st1. rewrite lookup_insert_eq. split; [done|]. split; congruence.
    + exists st. by rewrite lookup_insert_ne.
  - apply roundsKept_same. by destruct (sendAddFriendOnion_roundsSame rnd c v) as (_ & _ & ?).
  - apply roundsKept_same. by destruct (scanMailbox_roundsSame c v) as ((_ & _ & ?) & _).
  - apply roundsKept_refl.
Qed.

Lemma addFriendMux_roundsWellKeyed c m :
  roundsWellKeyed c → roundsWellKeyed (out_client (addFriendMux E c m)).
Proof.
  intros Hwk. destruct m as [v|v|rnd v|v|v]; simpl.
  - destruct (newAddFriendRound_rounds c v) as [Heq|[Hnone [cfg Heq]]];
      intros r st; rewrite Heq; [apply Hwk|].
    destruct (decide (nr_Round v = r)) as [<-|Hne].
    + rewrite lookup_insert_eq. by intros [= <-].
    + rewrite lookup_insert_ne by done. apply Hwk.
  - destruct (extractPKGKeys_rounds c v) as [Heq|(st0 & st1 & Hst & HR & HC & Heq)];
      intros r st; rewrite Heq; [apply Hwk|].
    destruct (decide (pr_Round v = r)) as [<-|Hne].
    + rewrite lookup_insert_eq. intros [= <-]. rewrite HR. by apply Hwk.
    + rewrite lookup_insert_ne by done. apply Hwk.
  - destruct (sendAddFriendOnion_roundsSame rnd c v) as (_ & _ & Heq).
    intros r st. rewrite Heq. apply Hwk.
  - destruct (scanMailbox_roundsSame c v) as ((_ & _ & Heq) & _).
    intros r st. rewrite Heq. apply Hwk.
  - exact Hwk.
Qed.

Lemma addFriendMux_friendsKept c m : friendsKept c (out_client (addFriendMux E c m)).
Proof.
  destruct m as [v|v|rnd v|v|v]; simpl.
  - destruct (newAddFriendRound_storeKept E c v) as ((_ & _ & Hf & _) & _).
    intros u. by rewrite Hf.
  - destruct (extractPKGKeys_storeKept E c v) as ((_ & _ & Hf & _) & _).
    intros u. by rewrite Hf.
  - apply sendAddFriendOnion_friendsKept.
  - by destruct (scanMailbox_roundsSame c v) as (_ & _ & ? & _).
  - by intros u.
Qed.

Lemma addFriendMux_onions c m :
  onionsSent (out_trace (addFriendMux E c m))
  ≤ if decide (messageID m = "mix") then 1 else 0.
Proof.
  destruct m as [v|v|rnd v|v|v]; simpl.
  - destruct (newAddFriendRound_storeKept E c v) as (_ & -> & _). lia.
  - destruct (extractPKGKeys_storeKept E c v) as (_ & -> & _). lia.
  - apply sendAddFriendOnion_onions.
  - destruct (scanMailbox_roundsSame c v) as (_ & _ & _ & -> & _). lia.
  - lia.
Qed.

Lemma addFriendMux_queue c m c' tr :
  addFriendMux E c m = Returned c' tr →
  ∃ k, outgoingFriendRequests c' = drop k (outgoingFriendRequests c)
       ∧ sentEvents tr
         = filter (λ r, out_Username r ≠ "") (take k (outgoingFriendRequests c)).
Proof.
  destruct m as [v|v|rnd v|v|v]; simpl; intros Hm.
  - destruct (newAddFriendRound_storeKept E c v) as ((_ & _ & _ & _ & _ & Ho) & _ & Hs).
    rewrite Hm in Ho, Hs. simpl in *. exists 0. by rewrite Ho, Hs.
  - destruct (extractPKGKeys_storeKept E c v) as ((_ & _ & _ & _ & _ & Ho) & _ & Hs).
    rewrite Hm in Ho, Hs. simpl in *. exists 0. by rewrite Ho, Hs.
  - by eapply sendAddFriendOnion_queue.
  - destruct (scanMailbox_roundsSame c v) as (_ & Ho & _ & _ & Hs).
    rewrite Hm in Ho, Hs. simpl in *. exists 0. by rewrite Ho, Hs.
  - injection Hm as <- <-. by exists 0.
Qed.

Lemma run_step c m rest :
  out_client (run E c (m :: rest))
  = (if panicked (addFriendMux E c m) then out_client (addFriendMux E c m)
     else out_client (run E (out_client (addFriendMux E c m)) rest)).
Proof.
  simpl. destruct (addFriendMux E c m) as [c1 tr1|msg c1 tr1]; simpl; [|done].
  by destruct (run E c1 rest).
Qed.

Lemma run_preorder (R : Client → Client → Prop) :
  (∀ c, R c c) →
  (∀ a b c, R a b → R b c → R a c) →
  (∀ c m, R c (out_client (addFriendMux E c m))) →
  ∀ msgs c, R c (out_client (run E c msgs)).
Proof.
  intros Hrefl Htrans Hstep. induction msgs as [|m rest IH]; intros c; [apply Hrefl|].
  rewrite run_step. destruct (panicked _); [apply Hstep|].
  eapply Htrans; [apply Hstep | apply IH].
Qed.

Lemma run_invariant (P : Client → Prop) :
  (∀ c m, P c → P (out_client (addFriendMux E c m))) →
  ∀ msgs c, P c → P (out_client (run E c msgs)).
Proof.
  intros Hstep. induction msgs as [|m rest IH]; intros c Hc; [exact Hc|].
  rewrite run_step. destruct (panicked _); [by apply Hstep|].
  by apply IH, Hstep.
Qed.

(** X1. No handler ever forgets a round: whatever messages arrive,
    every round the client knew is still known afterwards, under the
    same round number and with the config it was announced with. *)
Theorem run_keeps_rounds (c : Client) (msgs : list addFriendMessage) :
  roundsKept c (out_client (run E c msgs)).
Proof.
  revert c. apply run_preorder.
  - apply roundsKept_refl.
  - apply roundsKept_trans.
  - apply addFriendMux_roundsKept.
Qed.

(** X2. In a client whose round states are stored under their own
    round numbers, they still are after any sequence of messages. *)
Theorem run_rounds_well_keyed (c : Client) (msgs : list addFriendMessage) :
  roundsWellKeyed c → roundsWellKeyed (out_client (run E c msgs)).
Proof. revert c. apply run_invariant. apply addFriendMux_roundsWellKeyed. Qed.

(** X3. No handler removes a friend: every username in the friends
    map stays in it through any sequence of messages. *)
Theorem run_keeps_friends (c : Client) (msgs : list addFriendMessage) :
  friendsKept c (out_client (run E c msgs)).
Proof.
  revert c. apply run_preorder.
  - by intros c u.
  - intros a b c Hab Hbc u Hu. by apply Hbc, Hab.
  - apply addFriendMux_friendsKept.
Qed.

(** X4. Only [mix] messages make the engine send, and each at most
    once: the onions sent during a run are at most as many as its mix
    messages. *)
Theorem run_onions_bounded (c : Client) (msgs : list addFriendMessage) :
  onionsSent (out_trace (run E c msgs)) ≤ mixCount msgs.
Proof.
  revert c. induction msgs as [|m rest IH]; intros c; [simpl; lia|].
  pose proof (addFriendMux_onions c m) as Hm.
  assert (Hcount : mixCount (m :: rest)
                   = (if decide (messageID m = "mix") then 1 else 0) + mixCount rest).
  { unfold mixCount. rewrite filter_cons. by destruct (decide _). }
  rewrite Hcount. simpl.
  destruct (addFriendMux E c m) as [c1 tr1|msg c1 tr1]; simpl in *; [|lia].
  specialize (IH c1). destruct (run E c1 rest) as [c2 tr2|msg c2 tr2]; simpl in *;
    rewrite onionsSent_app; lia.
Qed.

(** X5. Requests leave the outgoing queue from the front and are
    announced in that order: after a run that returns, the queue is
    the old one without its first [k] entries, and the
    [SentFriendRequest] events are those [k] entries, in order, less
    the ones with an empty username. *)
Theorem run_sends_in_queue_order (c c' : Client) (msgs : list addFriendMessage)
    (tr : list Effect) :
  run E c msgs = Returned c' tr →
  ∃ k, outgoingFriendRequests c' = drop k (outgoingFriendRequests c)
       ∧ sentEvents tr
         = filter (λ r, out_Username r ≠ "") (take k (outgoingFriendRequests c)).
Proof.
  revert c c' tr. induction msgs as [|m rest IH]; intros c c' tr; simpl.
  - intros [= <- <-]. by exists 0.
  - destruct (addFriendMux E c m) as [c1 tr1|msg c1 tr1] eqn:Hm; [|done].
    destruct (run E c1 rest) as [c2 tr2|msg c2 tr2] eqn:Hr; [|done].
    intros [= <- <-].
    destruct (addFriendMux_queue c m c1 tr1 Hm) as (k1 & Hq1 & Hs1).
    destruct (IH c1 c2 tr2 Hr) as (k2 & Hq2 & Hs2).
    exists (k1 + k2). rewrite Hq2, Hq1, drop_drop. split; [done|].
    rewrite sentEvents_app, Hs1, Hs2, Hq1.
    by rewrite <- filter_app, take_take_drop.
Qed.

End Runs.

Section RunInvariants.

Context (E : Env).

Lemma noPendingPair_same c c' :
  incomingFriendRequests c' = incomingFriendRequests c →
  sentFriendRequests c' = sentFriendRequests c →
  noPendingPair c → noPendingPair c'.
Proof. intros Hi Hs Hinv i s. rewrite Hi, Hs. apply Hinv. Qed.

Lemma decodeAddFriendMessage_noPendingPair c msg verifiers keys :
  noPendingPair c → noPendingPair (decodeAddFriendMessage E c msg verifiers keys).1.
Proof.
  intros Hinv. unfold decodeAddFriendMessage.
  destruct (intro_UnmarshalBinary E msg) as [intro|]; [|exact Hinv].
  destruct (intro_Verify E intro keys); [|exact Hinv].
  unfold matchToSent. simpl.
  destruct (matchToSent_loop (sentFriendRequests c) _) as [s|] eqn:Hloop.
  - apply newFriend_noPendingPair. exact Hinv.
  - simpl. intros x y Hx Hy. simpl in Hx, Hy.
    apply elem_of_app in Hx as [Hx|Hx]; [by apply Hinv|].
    apply list_elem_of_singleton in Hx as ->.
    by apply (proj1 (matchToSent_loop_None _ _) Hloop).
Qed.

Lemma scanSpans_noPendingPair st privKey mailbox spans :
  ∀ c, noPendingPair c → noPendingPair (scanSpans E st privKey mailbox spans c).1.
Proof.
  induction spans as [|span rest IH]; intros c Hinv; simpl; [exact Hinv|].
  assert (H1 : noPendingPair (scanSpan E st privKey mailbox c span).1).
  { destruct (scanSpan_cases E st privKey mailbox c span) as [->|[msg ->]];
      [exact Hinv | by apply decodeAddFriendMessage_noPendingPair]. }
  destruct (scanSpan E st privKey mailbox c span) as [c1 tr1].
  specialize (IH c1 H1). by destruct (scanSpans E st privKey mailbox rest c1).
Qed.

Lemma afterSend_noPendingPair c o s :
  noPendingPair c → noPendingPair (afterSend E c o s).1.
Proof.
  intros Hinv. unfold afterSend. destruct (decide _); [|exact Hinv].
  unfold matchToIncoming.
  destruct (matchToIncoming_loop (incomingFriendRequests c) s) as [i|] eqn:Hloop.
  - pose proof (newFriend_noPendingPair E c i s Hinv) as H.
    by destruct (newFriend E c i s).
  - simpl. intros x y Hx Hy. simpl in Hx, Hy.
    apply elem_of_app in Hy as [Hy|Hy]; [by apply Hinv|].
    apply list_elem_of_singleton in Hy as ->.
    by apply (proj1 (matchToIncoming_loop_None _ _) Hloop).
Qed.

Lemma addFriendMux_noPendingPair c m :
  noPendingPair c → noPendingPair (out_client (addFriendMux E c m)).
Proof.
  intros Hinv. destruct m as [v|v|rnd v|v|v]; simpl.
  - destruct (newAddFriendRound_storeKept E c v) as ((_ & _ & _ & Hi & Hs & _) & _).
    by apply (noPendingPair_same c).
  - destruct (extractPKGKeys_storeKept E c v) as ((_ & _ & _ & Hi & Hs & _) & _).
    by apply (noPendingPair_same c).
  - unfold sendAddFriendOnion.
    destruct (addFriendRounds c !! _) as [st|]; [|exact Hinv].
    destruct (verifyMixSignatures E _ _ _ _); try exact Hinv.
    assert (Hn : noPendingPair (nextOutgoingFriendRequest c).2).
    { unfold nextOutgoingFriendRequest. by destruct (outgoingFriendRequests c). }
    destruct (nextOutgoingFriendRequest c) as [req c1]. simpl in Hn.
    destruct (genIntro E rnd c1 st req) as [[[intro sent] c2]|msg] eqn:Hg; [|exact Hn].
    apply genIntro_inv in Hg as [-> _].
    destruct (buildMixMessage E _ _ _ _ _); [|exact Hn].
    pose proof (afterSend_noPendingPair (set_heap_next (S (heap_next c1)) c1) req sent Hn)
      as Ha.
    by destruct (afterSend E _ req sent).
  - unfold scanMailbox.
    destruct (addFriendRounds c !! _) as [st|]; [|exact Hinv].
    destruct (fetchMailbox E _ _ _) as [mailbox|err]; [|exact Hinv].
    match goal with |- context [scanSpans E ?st ?k ?mb ?l ?c0] =>
      pose proof (scanSpans_noPendingPair st k mb l c0 Hinv) as Hs;
      destruct (scanSpans E st k mb l c0) as [c1 tr]
    end.
    exact Hs.
  - exact Hinv.
Qed.

(** X6. A client whose queues hold no sent request and incoming
    request that agree on username and dial round never gets into a
    state where they do, whatever messages arrive: a match is always
    consumed when the second of the two requests appears. *)
Theorem run_noPendingPair (c : Client) (msgs : list addFriendMessage) :
  noPendingPair c → noPendingPair (out_client (run E c msgs)).
Proof. revert c. apply run_invariant. apply addFriendMux_noPendingPair. Qed.

Lemma slice1_store {A} (i : nat) (x : A) (l : list A) :
  i < length l → slice1 i (store i x (Some l)) = [x].
Proof.
  unfold slice1, store. simpl. revert i.
  induction l as [|a l IH]; intros i Hi; simpl in *; [lia|].
  destruct i as [|i]; simpl; [by rewrite take_0|]. apply IH. lia.
Qed.

Lemma blsSlot_set_sig i sg st j : blsSlot (set_sig i sg st) j = blsSlot st j.
Proof. reflexivity. Qed.

Lemma blsSlot_set_keys_ne i mk bk pk st j :
  i ≠ j → blsSlot (set_keys i mk bk pk st) j = blsSlot st j.
Proof.
  intros Hne. unfold blsSlot, set_keys, store; simpl.
  destruct (ServerBLSKeys st) as [l|]; simpl; [|reflexivity].
  by apply list_lookup_insert_ne.
Qed.

Lemma blsSlot_set_keys_eq n i mk bk pk st :
  keysAllocated n st → i < n → blsSlot (set_keys i mk bk pk st) i = Some bk.
Proof.
  intros (_ & _ & (l & Hl & Hn) & _) Hi. unfold blsSlot, set_keys, store; simpl.
  rewrite Hl; simpl. apply list_lookup_insert_eq. lia.
Qed.

(** The loop stores a signature only after [bls.Verify] accepted it
    under the BLS key it has just stored in the same slot. *)
Lemma extractLoop_sigsVerified (v : PKGRound) (n : nat) :
  ∀ servers i c st,
    i + length servers = n →
    keysAllocated n st →
    (∀ j sg, i ≤ j → sigSlot st j ≠ Some (Some sg)) →
    (∀ j sg, j < i → sigSlot st j = Some (Some sg) →
       ∃ bk, blsSlot st j = Some bk
             ∧ bls_Verify E [bk] [attestationOf E c bk] sg = true) →
    sigsVerified E c
      (extractLoop E v (ValidUsernameToIdentity E (Username c)) i servers c st).1.1.2.
Proof.
  induction servers as [|pkgServer rest IH]; intros i c st Hlen Hal Hhi Hlo.
  - simpl. intros j sg Hj. destruct (decide (j < i)) as [Hlt|Hge].
    + by apply Hlo.
    + exfalso. apply (Hhi j sg); [lia | done].
  - simpl in Hlen. cbn [extractLoop].
    assert (Hstop : sigsVerified E c st).
    { intros j sg Hj. destruct (decide (j < i)) as [Hlt|Hge].
      - by apply Hlo.
      - exfalso. apply (Hhi j sg); [lia | done]. }
    destruct (registrations c !! _) as [pkgc0|]; [|exact Hstop].
    destruct (pkg_Extract E _ _) as [res|err]; [|exact Hstop].
    set (settings := default zeroRoundSettings (pr_PKGSettings v !! _)).
    set (st1 := set_keys i (rs_MasterPublicKey settings) (rs_BLSPublicKey settings)
                  (er_PrivateKey res) st).
    assert (Hal1 : keysAllocated n st1) by by apply keysAllocated_set_keys.
    assert (Hslice : slice1 i (ServerBLSKeys st1) = [rs_BLSPublicKey settings]).
    { destruct Hal as (_ & _ & (l & Hl & Hn) & _). unfold st1, set_keys. simpl.
      rewrite Hl. apply slice1_store. lia. }
    rewrite Hslice.
    destruct (bls_Verify E _ _ _) eqn:Hv.
    + match goal with |- sigsVerified E c (extractLoop E v _ _ _ ?c1 ?st2).1.1.2 =>
        pose proof (IH (S i) c1 st2) as IH'
      end.
      simpl in IH'. apply IH'; clear IH'.
      * lia.
      * by apply keysAllocated_set_sig.
      * intros j sg Hj. rewrite sigSlot_set_sig_ne by lia.
        unfold st1. rewrite sigSlot_set_keys. apply Hhi. lia.
      * intros j sg Hj. destruct (decide (j = i)) as [->|Hne].
        -- rewrite (sigSlot_set_sig_eq n) by (done || lia). intros [= <-].
           exists (rs_BLSPublicKey settings). rewrite blsSlot_set_sig.
           split; [by apply (blsSlot_set_keys_eq n); [|lia]|exact Hv].
        -- rewrite sigSlot_set_sig_ne by done. unfold st1.
           rewrite sigSlot_set_keys, blsSlot_set_sig, blsSlot_set_keys_ne by done.
           apply Hlo. lia.
    + simpl. intros j sg Hj. unfold st1 in Hj. rewrite sigSlot_set_keys in Hj.
      destruct (decide (j < i)) as [Hlt|Hge].
      * unfold st1. rewrite blsSlot_set_keys_ne by lia. by apply Hlo.
      * exfalso. apply (Hhi j sg); [lia | done].
Qed.

Lemma sigsVerified_same c c' st :
  Username c' = Username c → LongTermPublicKey c' = LongTermPublicKey c →
  sigsVerified E c st → sigsVerified E c' st.
Proof.
  intros HU HL Hs j sg Hj. destruct (Hs j sg Hj) as (bk & Hb & Hv).
  exists bk. split; [done|]. unfold attestationOf in *. by rewrite HU, HL.
Qed.

Lemma addFriendMux_allSigsVerified c m :
  allSigsVerified E c → allSigsVerified E (out_client (addFriendMux E c m)).
Proof.
  intros Hinv. destruct m as [v|v|rnd v|v|v]; simpl.
  - destruct (newAddFriendRound_storeKept E c v) as ((HU & HL & _) & _).
    intros r st Hr. apply (sigsVerified_same c); [done..|].
    destruct (newAddFriendRound_rounds E c v) as [Heq|[_ [cfg Heq]]];
      rewrite Heq in Hr; [by eapply Hinv|].
    destruct (decide (nr_Round v = r)) as [<-|Hne].
    + rewrite lookup_insert_eq in Hr. injection Hr as <-. by intros j sg.
    + rewrite lookup_insert_ne in Hr by done. by eapply Hinv.
  - destruct (extractPKGKeys_storeKept E c v) as ((HU & HL & _) & _).
    intros r st' Hr. apply (sigsVerified_same c); [done..|].
    revert Hr. unfold extractPKGKeys.
    destruct (addFriendRounds c !! pr_Round v) as [st|] eqn:Hst; [|apply Hinv].
    destruct (PrivateKeys st); [apply Hinv|].
    destruct (PKGSettings_Verify E _ _ _); [|apply Hinv].
    pose proof (extractLoop_sigsVerified v (length (PKGServers (Config st)))
                  (PKGServers (Config st)) 0 c (allocKeys st) eq_refl
                  (keysAllocated_allocKeys st)) as Hloop.
    pose proof (extractLoop_frame E v (ValidUsernameToIdentity E (Username c))
                  (PKGServers (Config st)) 0 c (allocKeys st)) as (Hc & _).
    destruct (extractLoop E v _ 0 _ c (allocKeys st)) as [[[c1 st1] tr] x].
    simpl in *. rewrite Hc. simpl.
    destruct (decide (pr_Round v = r)) as [<-|Hne].
    + rewrite lookup_insert_eq. intros [= <-]. apply Hloop.
      * intros j sg _. unfold sigSlot, allocKeys. simpl.
        destruct (replicate _ _ !! j) as [o|] eqn:Hl; [|done].
        apply lookup_replicate in Hl as [-> _]. done.
      * intros j sg Hj. lia.
    + rewrite lookup_insert_ne by done. apply Hinv.
  - destruct (sendAddFriendOnion_roundsSame E rnd c v) as (HU & HL & HR).
    intros r st Hr. rewrite HR in Hr. apply (sigsVerified_same c); [done..|].
    by eapply Hinv.
  - destruct (scanMailbox_roundsSame E c v) as ((HU & HL & HR) & _).
    intros r st Hr. rewrite HR in Hr. apply (sigsVerified_same c); [done..|].
    by eapply Hinv.
  - exact Hinv.
Qed.

(** X7. The engine never keeps an identity signature it has not
    checked: if in every round state each stored signature verifies,
    as the attestation of this user's identity and long-term key,
    under the PKG BLS key stored in the same slot, then so it is after
    any sequence of messages.  A client with no round is such a
    client. *)
Theorem run_allSigsVerified (c : Client) (msgs : list addFriendMessage) :
  allSigsVerified E c → allSigsVerified E (out_client (run E c msgs)).
Proof. revert c. apply run_invariant. apply addFriendMux_allSigsVerified. Qed.

End RunInvariants.

(** *** mix: a message that is not accepted *)

Section MixRejected.

Context (E : Env).

Lemma verifyMixSignatures_first_failure (msg : bytes) (sigs : list bytes) :
  ∀ mixers off i mixer,
    mixers !! i = Some mixer →
    (∀ j m, j < i → mixers !! j = Some m →
       ∃ sg, sigs !! (off + j) = Some sg ∧ ed25519_Verify E (Key m) msg sg = true) →
    verifyMixSignatures E msg sigs off mixers
    = match sigs !! (off + i) with
      | None => SigIndexOutOfRange
      | Some sg =>
          if ed25519_Verify E (Key mixer) msg sg
          then verifyMixSignatures E msg sigs (off + S i) (drop (S i) mixers)
          else SigBad (Key mixer)
      end.
Proof.
  induction mixers as [|m0 rest IH]; intros off i mixer Hi Hbefore; [done|].
  destruct i as [|i]; simpl in *.
  - injection Hi as ->. rewrite Nat.add_0_r, drop_0.
    destruct (sigs !! off); [|done]. destruct (ed25519_Verify E _ _ _); [|done].
    by rewrite Nat.add_1_r.
  - destruct (Hbefore 0 m0) as (sg & Hsg & Hv); [lia|done|].
    rewrite Nat.add_0_r in Hsg. rewrite Hsg, Hv.
    rewrite (IH (S off) i mixer Hi).
    + by replace (S off + i) with (off + S i) by lia;
        replace (S off + S i) with (off + S (S i)) by lia.
    + intros j m Hj Hm. destruct (Hbefore (S j) m) as (sg' & Hsg' & Hv'); [lia|done|].
      exists sg'. split; [|done]. by replace (S off + j) with (off + S j) by lia.
Qed.

(** X8. A mix message for a round the client does not know, or with a
    mixer signature that does not verify, is answered by one [Error]
    and nothing else: no onion is sent and the client is unchanged, so
    the request at the head of the outgoing queue is not used up.  The
    error names the first mixer, in the order of the config, whose
    signature fails.  When the signatures before position [i] verify
    and there is no signature at position [i] for a mixer of the
    config, the handler panics. *)
Theorem sendAddFriendOnion_rejected (rnd : bytes) (c : Client) (v : MixRound) :
  (addFriendRounds c !! ms_Round (mr_MixSettings v) = None →
     sendAddFriendOnion E rnd c v
     = Returned c [HandlerError (RoundNotConfigured "sendAddFriendOnion"
                                   (ms_Round (mr_MixSettings v)))]) ∧
  (∀ st i mixer,
     addFriendRounds c !! ms_Round (mr_MixSettings v) = Some st →
     MixServers (Config st) !! i = Some mixer →
     (∀ j m, j < i → MixServers (Config st) !! j = Some m →
        ∃ sg, mr_MixSignatures v !! j = Some sg
              ∧ ed25519_Verify E (Key m) (SigningMessage E (mr_MixSettings v)) sg = true) →
     (∀ sg, mr_MixSignatures v !! i = Some sg →
        ed25519_Verify E (Key mixer) (SigningMessage E (mr_MixSettings v)) sg = false →
        sendAddFriendOnion E rnd c v
        = Returned c [HandlerError (VerifyMixSettingsFailed
                                      (ms_Round (mr_MixSettings v)) (Key mixer))]) ∧
     (mr_MixSignatures v !! i = None →
        sendAddFriendOnion E rnd c v = Panicked "index out of range" c [])).
Proof.
  split.
  - intros Hr. unfold sendAddFriendOnion. by rewrite Hr.
  - intros st i mixer Hst Hi Hbefore.
    pose proof (verifyMixSignatures_first_failure
                  (SigningMessage E (mr_MixSettings v)) (mr_MixSignatures v)
                  (MixServers (Config st)) 0 i mixer Hi Hbefore) as Hv.
    simpl in Hv. split.
    + intros sg Hsg Hbad. rewrite Hsg, Hbad in Hv.
      unfold sendAddFriendOnion. by rewrite Hst, Hv.
    + intros Hnone. rewrite Hnone in Hv.
      unfold sendAddFriendOnion. by rewrite Hst, Hv.
Qed.

End MixRejected.

(** *** mix: the record of a sent request *)

Section SentRecord.

Context (E : Env).

(** X9. A real request that finds no matching incoming request is
    recorded at the end of the sent queue with the username, expected
    key and confirmation flag of the request, the round of the mix
    message's round state, the fresh DH key pair, and as dial round
    the request's own when it is a confirmation and the last dialing
    round the client has seen otherwise.  Friends and incoming
    requests are unchanged. *)
Theorem sendAddFriendOnion_records_sent (HE : librariesBehave E)
    (rnd : bytes) (c : Client) (v : MixRound) (st : addFriendRoundState)
    (head : OutgoingFriendRequest) (rest : list OutgoingFriendRequest) :
  addFriendRounds c !! ms_Round (mr_MixSettings v) = Some st →
  (∀ i mixer, MixServers (Config st) !! i = Some mixer →
     ∃ sg, mr_MixSignatures v !! i = Some sg ∧
           ed25519_Verify E (Key mixer) (SigningMessage E (mr_MixSettings v)) sg = true) →
  outgoingFriendRequests c = head :: rest →
  out_Username head ≠ "" →
  let dialRound :=
    if out_Confirmation head then out_DialRound head else lastDialingRound c in
  (∀ i, i ∈ incomingFriendRequests c →
        ¬ (in_Username i = out_Username head ∧ in_DialRound i = dialRound)) →
  ∃ dhPublic dhPrivate,
    box_GenerateKey E rnd = inl (dhPublic, dhPrivate) ∧
    let c' := out_client (sendAddFriendOnion E rnd c v) in
    sentFriendRequests c'
    = sentFriendRequests c ++
        [{| sent_ptr := heap_next c;
            sent_Username := out_Username head;
            sent_ExpectedKey := out_ExpectedKey head;
            sent_Confirmation := out_Confirmation head;
            sent_DialRound := dialRound;
            sent_SentRound := Round st;
            sent_DHPublicKey := dhPublic;
            sent_DHPrivateKey := dhPrivate |}] ∧
    outgoingFriendRequests c' = rest ∧
    incomingFriendRequests c' = incomingFriendRequests c ∧
    friends c' = friends c.
Proof.
  intros Hst Hsigs Hq Hreal dialRound Hnone.
  destruct (HE) as (Hk & _ & _). destruct (Hk rnd) as [[pub priv] Hg].
  exists pub, priv. split; [exact Hg|].
  unfold sendAddFriendOnion. rewrite Hst.
  rewrite (verifyMixSignatures_ok E _ _ _ 0 Hsigs).
  unfold nextOutgoingFriendRequest. rewrite Hq.
  unfold genIntro. rewrite Hg. simpl.
  match goal with |- context [buildMixMessage E rnd st ?intro ?s ?N] =>
    destruct (buildMixMessage_ok E HE rnd st intro s N) as (enc & buf & _ & _ & _ & _ & ->)
  end.
  unfold afterSend. simpl. destruct (decide _) as [_|?]; [|done].
  unfold matchToIncoming. simpl.
  rewrite (proj2 (matchToIncoming_loop_None _ _)); [by simpl|].
  intros i Hi. simpl. by apply Hnone.
Qed.

End SentRecord.

(** *** The earliest match *)

Section Earliest.

(** X10. Of several queued requests that agree with a new one on
    username and dial round, the one queued first is taken: a request
    is the result of [matchToSent] (of [matchToIncoming]) exactly when
    it matches and no request before it in the queue does. *)
Theorem match_is_earliest (c : Client) :
  (∀ i s,
     matchToSent c i = Some s ↔
     ∃ l1 l2, sentFriendRequests c = l1 ++ s :: l2 ∧ matches i s
              ∧ ∀ x, x ∈ l1 → ¬ matches i x) ∧
  (∀ s i,
     matchToIncoming c s = Some i ↔
     ∃ l1 l2, incomingFriendRequests c = l1 ++ i :: l2 ∧ matches i s
              ∧ ∀ x, x ∈ l1 → ¬ matches x s).
Proof.
  split.
  - intros i s. unfold matchToSent. generalize (sentFriendRequests c) as q.
    induction q as [|x q IH]; simpl.
    + split; [done|]. intros (l1 & l2 & Hq & _). by destruct l1.
    + destruct (decide _) as [Hm|Hm].
      * split.
        -- intros [= <-]. exists [], q. split; [done|]. split; [exact Hm|].
           intros y Hy. by apply elem_of_nil in Hy.
        -- intros ([|y l1] & l2 & Hq & Hs & Hbefore).
           ++ by injection Hq as ->.
           ++ injection Hq as -> _. exfalso. apply (Hbefore y); [apply list_elem_of_here|done].
      * rewrite IH. split.
        -- intros (l1 & l2 & -> & Hs & Hbefore). exists (x :: l1), l2.
           split; [done|]. split; [done|]. intros y Hy.
           apply elem_of_cons in Hy as [->|Hy]; [exact Hm | by apply Hbefore].
        -- intros ([|y l1] & l2 & Hq & Hs & Hbefore).
           ++ injection Hq as -> _. by exfalso.
           ++ injection Hq as -> ->. exists l1, l2. split; [done|]. split; [done|].
              intros z Hz. apply Hbefore. by apply list_elem_of_further.
  - intros s i. unfold matchToIncoming. generalize (incomingFriendRequests c) as q.
    induction q as [|x q IH]; simpl.
    + split; [done|]. intros (l1 & l2 & Hq & _). by destruct l1.
    + destruct (decide _) as [Hm|Hm].
      * split.
        -- intros [= <-]. exists [], q. split; [done|]. split; [exact Hm|].
           intros y Hy. by apply elem_of_nil in Hy.
        -- intros ([|y l1] & l2 & Hq & Hs & Hbefore).
           ++ by injection Hq as ->.
           ++ injection Hq as -> _. exfalso. apply (Hbefore y); [apply list_elem_of_here|done].
      * rewrite IH. split.
        -- intros (l1 & l2 & -> & Hs & Hbefore). exists (x :: l1), l2.
           split; [done|]. split; [done|]. intros y Hy.
           apply elem_of_cons in Hy as [->|Hy]; [exact Hm | by apply Hbefore].
        -- intros ([|y l1] & l2 & Hq & Hs & Hbefore).
           ++ injection Hq as -> _. by exfalso.
           ++ injection Hq as -> ->. exists l1, l2. split; [done|]. split; [done|].
              intros z Hz. apply Hbefore. by apply list_elem_of_further.
Qed.

End Earliest.

(** *** Registration with the PKGs of a config *)

Section Registration.

Context (E : Env).

Lemma registerLoop_keeps servers :
  ∀ c id p, registrations c !! id = Some p →
            registrations (registerLoop E servers c).1 !! id = Some p.
Proof.
  induction servers as [|pkgServer rest IH]; intros c id p Hp; simpl; [done|].
  destruct (registrations c !! regid E _ _) as [q|] eqn:Hq; [by apply IH|].
  assert (Hins : ∀ pkgc,
            registrations
              (registerLoop E rest
                 (set_registrations
                    (<[regid E (Key pkgServer) (Username c) := pkgc]> (registrations c)) c)).1
              !! id = Some p).
  { intros pkgc. apply IH. simpl. rewrite lookup_insert_ne; [done|]. intros <-. congruence. }
  destruct (pkg_CheckStatus E _) as [[[] m|m]|];
    try (specialize (IH c id p Hp); destruct (registerLoop E rest c); exact IH);
    try apply Hins.
  destruct (pkg_Register E _); [|apply Hins].
  specialize (IH c id p Hp). by destruct (registerLoop E rest c).
Qed.

Lemma registerLoop_covers servers :
  ∀ c server,
    server ∈ servers →
    registeredWith E (registerLoop E servers c).1 server
    ∨ registrationErrorFor (registerLoop E servers c).2 (Address server).
Proof.
  induction servers as [|pkgServer rest IH]; intros c server Hin;
    [by apply elem_of_nil in Hin|].
  assert (HU : ∀ c0, Username (registerLoop E (pkgServer :: rest) c0).1 = Username c0).
  { intros c0. by destruct (registerLoop_storeKept E (pkgServer :: rest) c0) as [[? _] _]. }
  unfold registeredWith. rewrite HU.
  apply elem_of_cons in Hin as [->|Hin].
  - (* the server at the head of the list *)
    simpl.
    destruct (registrations c !! regid E _ _) as [q|] eqn:Hq.
    { left. exists q. by apply registerLoop_keeps. }
    assert (Hins : ∀ pkgc,
              is_Some (registrations
                (registerLoop E rest
                   (set_registrations
                      (<[regid E (Key pkgServer) (Username c) := pkgc]> (registrations c)) c)).1
                !! regid E (Key pkgServer) (Username c))).
    { intros pkgc. exists pkgc. apply registerLoop_keeps. simpl. apply lookup_insert_eq. }
    destruct (pkg_CheckStatus E _) as [[[] m|m]|] eqn:Hcs;
      try (left; apply Hins);
      try (right; destruct (registerLoop E rest c) as [c' tr]; simpl;
           eexists; right; apply list_elem_of_here).
    destruct (pkg_Register E _) as [err|]; [|left; apply Hins].
    right. destruct (registerLoop E rest c) as [c' tr]. simpl.
    eexists. left. apply list_elem_of_here.
  - (* a server further down *)
    assert (Hrest : ∀ c0,
              is_Some (registrations (registerLoop E rest c0).1
                         !! regid E (Key server) (Username c0))
              ∨ registrationErrorFor (registerLoop E rest c0).2 (Address server)).
    { intros c0. destruct (IH c0 server Hin) as [Hr|He]; [left|by right].
      unfold registeredWith in Hr.
      by destruct (registerLoop_storeKept E rest c0) as [[<- _] _]. }
    assert (Herr : ∀ e,
              is_Some (registrations
                         (let '(c', tr) := registerLoop E rest c in (c', e :: tr)).1
                         !! regid E (Key server) (Username c))
              ∨ registrationErrorFor
                  (let '(c', tr) := registerLoop E rest c in (c', e :: tr)).2
                  (Address server)).
    { intros e. destruct (Hrest c) as [Hr|[err He]];
        destruct (registerLoop E rest c) as [c' tr]; simpl in *; [by left|].
      right. exists err. destruct He as [He|He]; [left|right];
        by apply list_elem_of_further. }
    simpl.
    destruct (registrations c !! regid E _ _) as [q|] eqn:Hq; [apply Hrest|].
    destruct (pkg_CheckStatus E _) as [[[] m|m]|]; try apply Herr;
      try (match goal with |- context [registerLoop E rest ?c0] => exact (Hrest c0) end).
    destruct (pkg_Register E _); [apply Herr|].
    match goal with |- context [registerLoop E rest ?c0] => exact (Hrest c0) end.
Qed.

Lemma registerLoop_registered (E0 : Env) servers :
  ∀ c, (∀ server, server ∈ servers → registeredWith E0 c server) →
       registerLoop E0 servers c = (c, []).
Proof.
  induction servers as [|pkgServer rest IH]; intros c Hall; simpl; [done|].
  destruct (Hall pkgServer (list_elem_of_here _ _)) as [q Hq]. rewrite Hq.
  apply IH. intros server Hin. apply Hall. by apply list_elem_of_further.
Qed.

(** X11. After [loadAddFriendConfig], whether it returns or panics,
    the config and its hash are the client's current ones, and every
    PKG server of the config either has a registration or has caused
    an [Error] event that carries its address; a registration that
    existed before is still there, unchanged. *)
Theorem loadAddFriendConfig_registers (c : Client) (config : AlpenhornConfig) :
  let o := loadAddFriendConfig E c config in
  addFriendConfig (out_client o) = config ∧
  addFriendConfigHash (out_client o) = config_Hash E config ∧
  (∀ server, server ∈ PKGServers config →
     registeredWith E (out_client o) server
     ∨ registrationErrorFor (out_trace o) (Address server)) ∧
  (∀ id p, registrations c !! id = Some p →
           registrations (out_client o) !! id = Some p).
Proof.
  unfold loadAddFriendConfig.
  pose proof (registerLoop_frame E (PKGServers config)
                (set_addFriendConfig config (config_Hash E config) c)) as Hf.
  pose proof (registerLoop_covers (PKGServers config)
                (set_addFriendConfig config (config_Hash E config) c)) as Hc.
  pose proof (registerLoop_keeps (PKGServers config)
                (set_addFriendConfig config (config_Hash E config) c)) as Hk.
  destruct (registerLoop E _ _) as [c2 tr]. simpl in *.
  assert (Hgoal : addFriendConfig c2 = config ∧
                  addFriendConfigHash c2 = config_Hash E config ∧
                  (∀ server, server ∈ PKGServers config →
                     registeredWith E c2 server
                     ∨ registrationErrorFor tr (Address server)) ∧
                  (∀ id p, registrations c !! id = Some p →
                           registrations c2 !! id = Some p)).
  { split; [by rewrite Hf|]. split; [by rewrite Hf|]. by split. }
  by destruct (persistLocked E c2).
Qed.

(** X12. Loading a config twice.  [E'] is the world at the time of the
    second load: the same functions [regid] and [Hash], any PKG servers
    and any disk.  When the first [loadAddFriendConfig] returns without
    any event, the second one for the same config asks no PKG server,
    every one of them being registered and skipped: it raises no event
    and leaves the client as it is.  It writes the state again, and
    returns or panics as that write succeeds or fails. *)
Theorem loadAddFriendConfig_again (E' : Env) (c c1 : Client) (config : AlpenhornConfig) :
  regid E' = regid E →
  config_Hash E' config = config_Hash E config →
  loadAddFriendConfig E c config = Returned c1 [] →
  loadAddFriendConfig E' c1 config
  = match persistLocked E' c1 with
    | Some err => Panicked ("failed to persist state: " +:+ err) c1 []
    | None => Returned c1 []
    end.
Proof.
  intros Hid Hhash. unfold loadAddFriendConfig at 1.
  pose proof (registerLoop_frame E (PKGServers config)
                (set_addFriendConfig config (config_Hash E config) c)) as Hf.
  pose proof (registerLoop_covers (PKGServers config)
                (set_addFriendConfig config (config_Hash E config) c)) as Hc.
  destruct (registerLoop E _ _) as [c2 tr]. simpl in *.
  destruct (persistLocked E c2) eqn:Hp; [done|]. intros [= -> ->].
  assert (Hsame : set_addFriendConfig config (config_Hash E' config) c1 = c1).
  { rewrite Hhash, Hf. reflexivity. }
  assert (Hreg : ∀ server, server ∈ PKGServers config → registeredWith E' c1 server).
  { intros server Hin. unfold registeredWith. rewrite Hid.
    destruct (Hc server Hin) as [Hr|[err [He|He]]];
      [exact Hr | by apply elem_of_nil in He | by apply elem_of_nil in He]. }
  unfold loadAddFriendConfig. rewrite Hsame.
  by rewrite (registerLoop_registered E' _ _ Hreg).
Qed.

(** X13. A [newround] for an unknown round under a hash that is not
    the current one: when the config cannot be fetched and verified,
    the application gets an [Error] and nothing changes, so the round
    stays unknown; when it can, the round is recorded with the fetched
    config, which becomes the current one, so that a later round
    announced under that config's hash is adopted without fetching or
    persisting. *)
Theorem newAddFriendRound_new_config (c : Client) (v : NewRound) :
  addFriendRounds c !! nr_Round v = None →
  nr_ConfigHash v ≠ addFriendConfigHash c →
  (∀ err, fetchAndVerifyConfig E (addFriendConfig c) (nr_ConfigHash v) = inr err →
     newAddFriendRound E c v = Returned c [HandlerError (FetchingConfig err)]) ∧
  (∀ config, fetchAndVerifyConfig E (addFriendConfig c) (nr_ConfigHash v) = inl config →
     let c' := out_client (newAddFriendRound E c v) in
     addFriendRounds c' !! nr_Round v = Some (newRoundState (nr_Round v) config) ∧
     addFriendConfig c' = config ∧
     addFriendConfigHash c' = config_Hash E config ∧
     ∀ v', addFriendRounds c' !! nr_Round v' = None →
           nr_ConfigHash v' = config_Hash E config →
           newAddFriendRound E c' v'
           = Returned
               (set_addFriendRounds
                  (<[nr_Round v' := newRoundState (nr_Round v') config]>
                     (addFriendRounds c')) c') []).
Proof.
  intros Hnew Hhash. split.
  - intros err Hf. unfold newAddFriendRound. rewrite Hnew.
    destruct (decide _); [done|]. by rewrite Hf.
  - intros config Hf c'.
    assert (Hc' : addFriendRounds c' !! nr_Round v = Some (newRoundState (nr_Round v) config)
                  ∧ addFriendConfig c' = config
                  ∧ addFriendConfigHash c' = config_Hash E config).
    { unfold c', newAddFriendRound. rewrite Hnew.
      destruct (decide _); [done|]. rewrite Hf.
      unfold loadAddFriendConfig.
      match goal with |- context [registerLoop E ?l ?c0] =>
        pose proof (registerLoop_frame E l c0) as Hfr;
        destruct (registerLoop E l c0) as [c2 tr]
      end.
      simpl in Hfr. assert (Hc2 : out_client
        match persistLocked E c2 with
        | Some err => Panicked ("failed to persist state: " +:+ err) c2 tr
        | None => Returned c2 tr
        end = c2) by by destruct (persistLocked E c2).
      rewrite Hc2, Hfr. simpl. by rewrite lookup_insert_eq. }
    destruct Hc' as (Hr & Hcfg & Hh). split; [exact Hr|]. split; [exact Hcfg|].
    split; [exact Hh|].
    intros v' Hnew' Hhash'. unfold newAddFriendRound. rewrite Hnew'.
    destruct (decide _) as [_|Hne]; [by rewrite Hcfg|]. congruence.
Qed.

End Registration.

(** *** pkg: an extraction that succeeds *)

Section ExtractComplete.

Context (E : Env).

(** What the loop writes into a registration does not change what the
    PKG servers answer. *)
Lemma extractionVerifies_step (c : Client) (v : PKGRound) (rid : string)
    (pkgc0 : pkgClient) (server : PublicServerConfig) :
  registrations c !! rid = Some pkgc0 →
  extractionVerifies E c v server →
  extractionVerifies E
    (set_registrations
       (<[rid := set_UserLongTermKey (LongTermPublicKey c) pkgc0]> (registrations c)) c)
    v server.
Proof.
  intros Hrid (q & res & Hq & Hres & Hv). unfold extractionVerifies. simpl.
  destruct (decide (rid = regid E (Key server) (Username c))) as [->|Hne].
  - rewrite lookup_insert_eq. rewrite Hrid in Hq. injection Hq as ->.
    exists (set_UserLongTermKey (LongTermPublicKey c) q), res.
    split; [done|]. split; [exact Hres|]. exact Hv.
  - rewrite lookup_insert_ne by done. by exists q, res.
Qed.

Lemma extractLoop_runs_to_end (v : PKGRound) (n : nat) :
  ∀ servers i c st,
    i + length servers = n →
    keysAllocated n st →
    (∀ server, server ∈ servers → extractionVerifies E c v server) →
    (extractLoop E v (ValidUsernameToIdentity E (Username c)) i servers c st).2 = RanToEnd
    ∧ (extractLoop E v (ValidUsernameToIdentity E (Username c)) i servers c st).1.2 = [].
Proof.
  induction servers as [|pkgServer rest IH]; intros i c st Hlen Hal Hall; [done|].
  simpl in Hlen. cbn [extractLoop].
  destruct (Hall pkgServer (list_elem_of_here _ _)) as (pkgc0 & res & Hp & Hres & Hv).
  rewrite Hp, Hres. cbn [pkgc_PublicServerConfig set_UserLongTermKey].
  set (settings := default zeroRoundSettings (pr_PKGSettings v !! _)) in *.
  set (st1 := set_keys i (rs_MasterPublicKey settings) (rs_BLSPublicKey settings)
                (er_PrivateKey res) st).
  assert (Hslice : slice1 i (ServerBLSKeys st1) = [rs_BLSPublicKey settings]).
  { destruct Hal as (_ & _ & (l & Hl & Hn) & _). unfold st1, set_keys. simpl.
    rewrite Hl. apply slice1_store. lia. }
  rewrite Hslice.
  unfold attestationOf in Hv. simpl in Hv. rewrite Hv.
  match goal with |- (extractLoop E v _ _ _ ?c1 ?st2).2 = _ ∧ _ =>
    pose proof (IH (S i) c1 st2) as IH'
  end.
  simpl in IH'. apply IH'; clear IH'.
  - lia.
  - by apply keysAllocated_set_sig, keysAllocated_set_keys.
  - intros server Hin. apply extractionVerifies_step; [exact Hp|].
    apply Hall. by apply list_elem_of_further.
Qed.

(** X14. When every PKG server of the round's config answers, that is,
    the client has a registration with it, the extraction through that
    registration succeeds, and the identity signature returned verifies
    under the BLS key announced for that server in the message, a
    [pkg] message with settings that verify returns without any event
    and leaves the round with four slices of full length in which
    every signature slot is filled. *)
Theorem extractPKGKeys_complete (c : Client) (v : PKGRound) (st : addFriendRoundState) :
  addFriendRounds c !! pr_Round v = Some st →
  PrivateKeys st = None →
  PKGSettings_Verify E (pr_PKGSettings v) (pr_Round v)
    (Key <$> PKGServers (Config st)) = true →
  (∀ server, server ∈ PKGServers (Config st) → extractionVerifies E c v server) →
  ∃ c' st',
    extractPKGKeys E c v = Returned c' [] ∧
    addFriendRounds c' !! pr_Round v = Some st' ∧
    keysAllocated (length (PKGServers (Config st))) st' ∧
    ∀ j, j < length (PKGServers (Config st)) → ∃ sg, sigSlot st' j = Some (Some sg).
Proof.
  intros Hst Hk Hv Hall.
  destruct (extractPKGKeys_allocates E c v st Hst Hk Hv) as (c1 & st1 & tr & x & Hrun & Hres).
  destruct (extractLoop_runs_to_end v (length (PKGServers (Config st)))
              (PKGServers (Config st)) 0 c (allocKeys st) eq_refl
              (keysAllocated_allocKeys st) Hall) as [Hx Htr].
  rewrite Hrun in Hx, Htr. simpl in Hx, Htr. subst x tr.
  destruct (extractLoop_spec E v _ (length (PKGServers (Config st)))
              _ _ _ _ _ _ _ _ Hrun eq_refl (keysAllocated_allocKeys st))
    as (Hal & _ & _ & Hslots).
  { intros j Hj. lia. }
  { intros j _ Hj. by apply sigSlot_allocKeys. }
  simpl in Hslots.
  eexists _, st1. split; [exact Hres|]. split; [simpl; apply lookup_insert_eq|].
  by split.
Qed.

End ExtractComplete.

(** ** The PKG's status request *)

Section StatusProperties.

Context (E : Env) (S : ServerEnv).

(** X15. The message a status request is signed over determines what
    it was built from: two requests whose server keys have the same
    length and whose identities have the same length have equal
    messages only if server key, identity and challenge are equal. *)
Theorem statusArgs_msg_injective (a b : statusArgs) :
  length (sa_ServerSigningKey a) = length (sa_ServerSigningKey b) →
  length (ValidUsernameToIdentity E (sa_Username a))
    = length (ValidUsernameToIdentity E (sa_Username b)) →
  statusArgs_msg E a = statusArgs_msg E b →
  sa_ServerSigningKey a = sa_ServerSigningKey b ∧
  ValidUsernameToIdentity E (sa_Username a) = ValidUsernameToIdentity E (sa_Username b) ∧
  sa_Message a = sa_Message b.
Proof.
  intros Hk Hid. unfold statusArgs_msg. intros Heq.
  apply app_inv_head in Heq.
  apply app_inj_1 in Heq as [Hkey Heq]; [|exact Hk].
  apply app_inj_1 in Heq as [Hident Hmsg]; [|exact Hid].
  by repeat split.
Qed.

(** X16. The PKG answers a status request with success exactly when
    the body decodes, the username is valid, the user exists and is
    verified, and the signature verifies under the user's key over
    the message built with this server's own key, whatever key the
    decoded request carried.  A user that does not exist is reported
    as not registered, and one that is not verified as not verified,
    before the signature is looked at. *)
Theorem statusHandler_ok_iff (body : bytes) :
  (statusHandler E S body = HttpOK (bytes_of_string "{}") ↔
   ∃ args id user,
     decodeStatusArgs S body = inl args ∧
     UsernameToIdentity S (sa_Username args) = inl id ∧
     getUser S (sa_Username args) = inl (Some user) ∧
     user_Status user = statusVerified S ∧
     ed25519_Verify E (user_Key user)
       (bytes_of_string "StatusArgs" ++ srv_publicKey S
          ++ ValidUsernameToIdentity E (sa_Username args) ++ sa_Message args)
       (sa_Signature args) = true) ∧
  (∀ args id,
     decodeStatusArgs S body = inl args →
     UsernameToIdentity S (sa_Username args) = inl id →
     (getUser S (sa_Username args) = inl None →
        statusHandler E S body
        = HttpError (PkgError ErrNotRegistered (sa_Username args))) ∧
     (∀ user, getUser S (sa_Username args) = inl (Some user) →
        user_Status user ≠ statusVerified S →
        statusHandler E S body
        = HttpError (PkgError ErrNotVerified (sa_Username args)))).
Proof.
  split.
  - unfold statusHandler, checkStatus, statusArgs_msg. simpl. split.
    + destruct (decodeStatusArgs S body) as [args|err]; [|done].
      destruct (UsernameToIdentity S (sa_Username args)) as [id|err] eqn:Hid; [|done].
      destruct (getUser S (sa_Username args)) as [[user|]|err] eqn:Hu; [|done..].
      destruct (decide _) as [Hs|Hs]; [done|].
      destruct (ed25519_Verify E _ _ _) eqn:Hv; [|done].
      intros _. exists args, id, user. repeat split; try done. by apply dec_stable.
    + intros (args & id & user & -> & -> & -> & Hs & ->).
      by destruct (decide _).
  - intros args id Hd Hid. unfold statusHandler, checkStatus. simpl. rewrite Hd, Hid.
    split.
    + by intros ->.
    + intros user -> Hs. by destruct (decide _).
Qed.

End StatusProperties.

(** ** The connection *)

Section SendProperties.

Context {V : Type}.
Context (json_Marshal : V → bytes + string).
Context (ws_WriteJSON : clientConn → envelope → option string).

(** X17. A [Send] whose write fails returns the error with the
    connection closed, nothing written, and the mutex still held:
    every later [Send] of a value that marshals waits for the mutex
    and never returns.  A [Send] whose value does not marshal returns
    the error without touching the connection. *)
Theorem Send_write_failure_keeps_lock (conn : clientConn) (msgID : string) (v : V) :
  (∀ err, json_Marshal v = inr err →
     Send json_Marshal ws_WriteJSON conn msgID v = SendReturned (Some err) conn) ∧
  (∀ msg err,
     conn_locked conn = false →
     json_Marshal v = inl msg →
     ws_WriteJSON conn {| env_ID := msgID; env_Message := msg |} = Some err →
     ∃ conn',
       Send json_Marshal ws_WriteJSON conn msgID v = SendReturned (Some err) conn' ∧
       conn_closed conn' = true ∧
       conn_written conn' = conn_written conn ∧
       ∀ msgID' v' msg',
         json_Marshal v' = inl msg' →
         Send json_Marshal ws_WriteJSON conn' msgID' v' = SendBlocked conn').
Proof.
  split.
  - intros err Hm. unfold Send. by rewrite Hm.
  - intros msg err Hl Hm Hw. eexists. unfold Send at 1. rewrite Hm, Hl, Hw.
    split; [reflexivity|]. split; [done|]. split; [done|].
    intros msgID' v' msg' Hm'. unfold Send. by rewrite Hm'.
Qed.

(** X18. Sends that succeed leave the mutex free and write their
    envelopes in the order of the calls: after a successful [Send] on
    a free connection, a second successful [Send] finds it free, and
    the two envelopes are the last two written. *)
Theorem Send_twice (conn : clientConn) (id1 id2 : string) (v1 v2 : V)
    (m1 m2 : bytes) (conn1 : clientConn) :
  conn_locked conn = false →
  json_Marshal v1 = inl m1 →
  json_Marshal v2 = inl m2 →
  Send json_Marshal ws_WriteJSON conn id1 v1 = SendReturned None conn1 →
  ws_WriteJSON conn1 {| env_ID := id2; env_Message := m2 |} = None →
  ∃ conn2,
    Send json_Marshal ws_WriteJSON conn1 id2 v2 = SendReturned None conn2 ∧
    conn_locked conn2 = false ∧
    conn_written conn2
    = conn_written conn ++ [{| env_ID := id1; env_Message := m1 |};
                            {| env_ID := id2; env_Message := m2 |}].
Proof.
  intros Hl Hm1 Hm2. unfold Send at 1. rewrite Hm1, Hl.
  destruct (ws_WriteJSON conn _); [done|]. intros [= <-] Hw2.
  eexists. unfold Send. rewrite Hm2. simpl. rewrite Hw2.
  split; [reflexivity|]. split; [done|]. simpl. by rewrite <- app_assoc.
Qed.

End SendProperties.

(** ** Connecting and closing *)

Section ConnectProperties.

Context (W : ConnEnv).

Lemma loadKeywheel_conns c c1 eff :
  loadKeywheel W c = inl (c1, eff) →
  cc_connected c1 = cc_connected c ∧
  cc_addFriendConn c1 = cc_addFriendConn c ∧
  cc_dialingConn c1 = cc_dialingConn c.
Proof.
  unfold loadKeywheel. destruct (decide _); [|by intros [= <- <-]].
  destruct (ReadFile W _) as [|err|data]; [|done|].
  - destruct (persistKeywheelLocked W c); [done|]. by intros [= <- <-].
  - destruct (wheel_UnmarshalBinary W data); [|done]. by intros [= <- <-].
Qed.

Lemma Connect_connectedHasConns c :
  connectedHasConns c → connectedHasConns (conn_client (Connect W c)).
Proof.
  intros Hinv. unfold Connect. destruct (cc_connected c) eqn:Hc; [exact Hinv|].
  destruct (cc_hasConfigClient c); simpl; [|exact Hinv].
  destruct (cc_hasAddFriendConfig c); simpl; [|exact Hinv].
  destruct (cc_hasDialingConfig c); simpl; [|exact Hinv].
  destruct (loadKeywheel W c) as [[c1 eff1]|err] eqn:Hk; [|exact Hinv].
  apply loadKeywheel_conns in Hk as (Hk1 & Hk2 & Hk3).
  assert (Hno : connectedHasConns (resetMaps c1)).
  { intros Hconn. simpl in Hconn. congruence. }
  destruct (CurrentConfig W "AddFriend") as [err| |aAddr aKey]; simpl; try exact Hno.
  destruct (typesocket_Dial W _ aKey) as [a|err]; simpl; [|exact Hno].
  destruct (CurrentConfig W "Dialing") as [err| |dAddr dKey]; simpl; try exact Hno.
  destruct (typesocket_Dial W _ dKey) as [d|err]; simpl; [|exact Hno].
  intros _. simpl. by split.
Qed.

(** X19. [Connect] connects fully or not at all.  On a connected
    client it returns "already connected" and changes nothing.  On a
    client that is not connected: if it returns without error, the
    client is connected and holds the two connections just dialed,
    the round maps are empty and the friends map exists; in every
    other case, error or panic, the client is still not connected and
    holds the connections it held before. *)
Theorem Connect_all_or_nothing (c : connClient) :
  (cc_connected c = true →
     Connect W c = ConnReturned (Some AlreadyConnected) c []) ∧
  (cc_connected c = false →
     let o := Connect W c in
     (conn_error o = Some None →
        cc_connected (conn_client o) = true ∧
        (∃ a d aAddr dAddr,
           cc_addFriendConn (conn_client o) = Some a ∧
           cc_dialingConn (conn_client o) = Some d ∧
           Dialed a aAddr ∈ conn_effects o ∧ Dialed d dAddr ∈ conn_effects o) ∧
        cc_addFriendRounds (conn_client o) = Some ∅ ∧
        cc_dialingRounds (conn_client o) = Some ∅ ∧
        is_Some (cc_friends (conn_client o))) ∧
     (conn_error o ≠ Some None →
        cc_connected (conn_client o) = false ∧
        cc_addFriendConn (conn_client o) = cc_addFriendConn c ∧
        cc_dialingConn (conn_client o) = cc_dialingConn c)).
Proof.
  split.
  - intros Hc. unfold Connect. by rewrite Hc.
  - intros Hc o. unfold o, Connect. rewrite Hc.
    destruct (cc_hasConfigClient c); simpl; [|by split].
    destruct (cc_hasAddFriendConfig c); simpl; [|by split].
    destruct (cc_hasDialingConfig c); simpl; [|by split].
    destruct (loadKeywheel W c) as [[c1 eff1]|err] eqn:Hk; [|by split].
    apply loadKeywheel_conns in Hk as (Hk1 & Hk2 & Hk3).
    destruct (CurrentConfig W "AddFriend") as [err| |aAddr aKey]; simpl;
      [split; [done|intros _; by rewrite Hk1, Hk2, Hk3, Hc]..|].
    destruct (typesocket_Dial W _ aKey) as [a|err]; simpl;
      [|split; [done|intros _; by rewrite Hk1, Hk2, Hk3, Hc]].
    destruct (CurrentConfig W "Dialing") as [err| |dAddr dKey]; simpl;
      [split; [done|intros _; by rewrite Hk1, Hk2, Hk3, Hc]..|].
    destruct (typesocket_Dial W _ dKey) as [d|err]; simpl;
      [|split; [done|intros _; by rewrite Hk1, Hk2, Hk3, Hc]].
    split; [|done]. intros _. split; [done|]. split.
    + eexists a, d, _, _. split; [done|]. split; [done|].
      split; apply elem_of_app; [left; apply elem_of_app; right|right];
        apply list_elem_of_here.
    + split; [done|]. split; [done|]. by destruct (cc_friends c1); eexists.
Qed.

(** X20. When the add-friend connection has been dialed and the
    dialing config then cannot be fetched, [Connect] returns the error
    and the add-friend connection is neither closed nor kept in the
    client; when instead the second dial fails, the add-friend
    connection is closed before [Connect] returns. *)
Theorem Connect_second_half_fails (c c1 : connClient) (eff1 : list connEffect)
    (aAddr : string) (aKey : bytes) (a : nat) :
  cc_connected c = false →
  cc_hasConfigClient c = true →
  cc_hasAddFriendConfig c = true →
  cc_hasDialingConfig c = true →
  loadKeywheel W c = inl (c1, eff1) →
  CurrentConfig W "AddFriend" = ConfigOf aAddr aKey →
  typesocket_Dial W ("wss://" +:+ aAddr +:+ "/addfriend/ws") aKey = inl a →
  (∀ err, CurrentConfig W "Dialing" = ConfigError err →
     conn_error (Connect W c) = Some (Some (FetchingConfigFailed "dialing" err)) ∧
     conn_effects (Connect W c)
     = eff1 ++ [Dialed a ("wss://" +:+ aAddr +:+ "/addfriend/ws")] ∧
     cc_addFriendConn (conn_client (Connect W c)) = cc_addFriendConn c) ∧
  (∀ dAddr dKey err,
     CurrentConfig W "Dialing" = ConfigOf dAddr dKey →
     typesocket_Dial W ("wss://" +:+ dAddr +:+ "/dialing/ws") dKey = inr err →
     conn_error (Connect W c) = Some (Some (DialFailed err)) ∧
     conn_effects (Connect W c)
     = eff1 ++ [Dialed a ("wss://" +:+ aAddr +:+ "/addfriend/ws"); Closed a]).
Proof.
  intros Hc H1 H2 H3 Hk Ha Hd.
  pose proof (loadKeywheel_conns c c1 eff1 Hk) as (_ & Hk2 & _).
  split.
  - intros err Hcfg. unfold Connect. rewrite Hc, H1, H2, H3, Hk, Ha. simpl.
    rewrite Hd, Hcfg. simpl. by rewrite Hk2.
  - intros dAddr dKey err Hcfg Hdial. unfold Connect.
    rewrite Hc, H1, H2, H3, Hk, Ha. simpl.
    rewrite Hd, Hcfg. simpl. rewrite Hdial. simpl. by rewrite <- app_assoc.
Qed.

(** X21. A client that holds both connections whenever it is
    connected keeps doing so through [Connect] and [Close].  On such
    a client [Close] does not panic: when connected it closes the
    dialing connection and then the add-friend connection, whatever
    the first close reports, returns the first error, and leaves the
    client not connected, so that the next [Connect] is not refused
    as already connected; when not connected it reports so and does
    nothing. *)
Theorem Close_closes_both (c : connClient) :
  connectedHasConns c →
  connectedHasConns (conn_client (Connect W c)) ∧
  connectedHasConns (conn_client (Close W c)) ∧
  (cc_connected c = false → Close W c = ConnReturned (Some NotConnected) c []) ∧
  (cc_connected c = true →
     ∃ a d,
       cc_addFriendConn c = Some a ∧ cc_dialingConn c = Some d ∧
       Close W c
       = ConnReturned
           (CloseFailed <$> (match conn_Close W d with
                             | Some e => Some e
                             | None => conn_Close W a
                             end))
           (set_connected false (Some a) (Some d) c) [Closed d; Closed a] ∧
       conn_error (Connect W (conn_client (Close W c))) ≠ Some (Some AlreadyConnected)).
Proof.
  intros Hinv. split; [|split; [|split]].
  - by apply Connect_connectedHasConns.
  - unfold Close. destruct (cc_connected c) eqn:Hc; simpl; [|exact Hinv].
    destruct (cc_dialingConn c); [|by intros ?].
    destruct (cc_addFriendConn c); by intros ?.
  - intros Hc. unfold Close. by rewrite Hc.
  - intros Hc. destruct (Hinv Hc) as [[a Ha] [d Hd]]. exists a, d.
    split; [done|]. split; [done|].
    assert (Hclose : Close W c
              = ConnReturned
                  (CloseFailed <$> (match conn_Close W d with
                                    | Some e => Some e
                                    | None => conn_Close W a
                                    end))
                  (set_connected false (Some a) (Some d) c) [Closed d; Closed a]).
    { unfold Close. by rewrite Hc, Hd, Ha. }
    split; [exact Hclose|]. rewrite Hclose. simpl. unfold Connect. simpl.
    destruct (negb (cc_hasConfigClient c)); [done|].
    destruct (negb (cc_hasAddFriendConfig c)); [done|].
    destruct (negb (cc_hasDialingConfig c)); [done|].
    destruct (loadKeywheel W _) as [[c1 eff1]|]; [|done].
    destruct (CurrentConfig W "AddFriend"); try done.
    destruct (typesocket_Dial W _ _); [|done].
    destruct (CurrentConfig W "Dialing"); try done.
    by destruct (typesocket_Dial W _ _).
Qed.

End ConnectProperties.

(** *** mix: the same settings twice *)

Section MixTwice.

Context (E : Env).

Lemma sendAddFriendOnion_sends (HE : librariesBehave E) rnd c v st :
  addFriendRounds c !! ms_Round (mr_MixSettings v) = Some st →
  (∀ i mixer, MixServers (Config st) !! i = Some mixer →
     ∃ sg, mr_MixSignatures v !! i = Some sg ∧
           ed25519_Verify E (Key mixer) (SigningMessage E (mr_MixSettings v)) sg = true) →
  panicked (sendAddFriendOnion E rnd c v) = false
  ∧ onionsSent (out_trace (sendAddFriendOnion E rnd c v)) = 1.
Proof.
  intros Hst Hsigs. unfold sendAddFriendOnion. rewrite Hst.
  rewrite (verifyMixSignatures_ok E _ _ _ 0 Hsigs).
  destruct (nextOutgoingFriendRequest c) as [req c1].
  destruct (genIntro_ok E HE rnd c1 st req) as (intro & sent & -> & _).
  destruct (buildMixMessage_ok E HE rnd st intro sent (ms_NumMailboxes (mr_MixSettings v)))
    as (enc & buf & _ & _ & _ & _ & ->).
  pose proof (afterSend_onionsSent E (set_heap_next (S (heap_next c1)) c1) req sent) as Hcnt.
  destruct (afterSend E _ req sent) as [c3 tr]. simpl in *. by rewrite Hcnt.
Qed.

(** X22. The engine keeps no record of the rounds it has sent an
    onion for: when the mix message of a round is dispatched a second
    time, by the same or other entropy, a second onion is sent for
    that round and a second request leaves the outgoing queue. *)
Theorem sendAddFriendOnion_twice (HE : librariesBehave E)
    (rnd rnd' : bytes) (c : Client) (v : MixRound) (st : addFriendRoundState) :
  addFriendRounds c !! ms_Round (mr_MixSettings v) = Some st →
  (∀ i mixer, MixServers (Config st) !! i = Some mixer →
     ∃ sg, mr_MixSignatures v !! i = Some sg ∧
           ed25519_Verify E (Key mixer) (SigningMessage E (mr_MixSettings v)) sg = true) →
  let o1 := sendAddFriendOnion E rnd c v in
  let o2 := sendAddFriendOnion E rnd' (out_client o1) v in
  panicked o1 = false ∧ panicked o2 = false ∧
  onionsSent (out_trace o1) = 1 ∧ onionsSent (out_trace o2) = 1 ∧
  outgoingFriendRequests (out_client o2) = drop 2 (outgoingFriendRequests c).
Proof.
  intros Hst Hsigs o1 o2.
  destruct (sendAddFriendOnion_sends HE rnd c v st Hst Hsigs) as [Hp1 H1].
  destruct (sendAddFriendOnion_roundsSame E rnd c v) as (_ & _ & HR).
  assert (Hst1 : addFriendRounds (out_client o1) !! ms_Round (mr_MixSettings v) = Some st)
    by (unfold o1; by rewrite HR).
  destruct (sendAddFriendOnion_sends HE rnd' (out_client o1) v st Hst1 Hsigs) as [Hp2 H2].
  split; [exact Hp1|]. split; [exact Hp2|]. split; [exact H1|]. split; [exact H2|].
  assert (Hq : ∀ r c0, addFriendRounds c0 !! ms_Round (mr_MixSettings v) = Some st →
             outgoingFriendRequests (out_client (sendAddFriendOnion E r c0 v))
             = drop 1 (outgoingFriendRequests c0)).
  { intros r c0 Hc0. unfold sendAddFriendOnion. rewrite Hc0.
    rewrite (verifyMixSignatures_ok E _ _ _ 0 Hsigs).
    assert (Hn : outgoingFriendRequests (nextOutgoingFriendRequest c0).2
                 = drop 1 (outgoingFriendRequests c0)).
    { unfold nextOutgoingFriendRequest.
      destruct (outgoingFriendRequests c0) eqn:Hq0; simpl; [by rewrite Hq0|done]. }
    destruct (nextOutgoingFriendRequest c0) as [req c1]. simpl in Hn.
    destruct (genIntro_ok E HE r c1 st req) as (intro & sent & -> & _).
    destruct (buildMixMessage_ok E HE r st intro sent (ms_NumMailboxes (mr_MixSettings v)))
      as (enc & buf & _ & _ & _ & _ & ->).
    pose proof (afterSend_outgoing E (set_heap_next (S (heap_next c1)) c1) req sent) as Ho.
    destruct (afterSend E _ req sent) as [c3 tr]. simpl in *. by rewrite Ho. }
  unfold o2. rewrite (Hq rnd' _ Hst1). unfold o1. rewrite (Hq rnd c Hst).
  by rewrite drop_drop.
Qed.

End MixTwice.

(** ** The properties above on the sample inputs *)

Lemma run_rounds_well_keyed_witness :
  roundsWellKeyed (out_client (run SamplePair.E0 SampleRun.start SampleRun.messages)).
Proof.
  apply (run_rounds_well_keyed SamplePair.E0 SampleRun.start SampleRun.messages).
  intros r st H. simpl in H. rewrite lookup_empty in H. discriminate.
Defined.

Lemma run_sends_in_queue_order_witness :
  ∃ k,
    outgoingFriendRequests
      (out_client (run SamplePair.E0 SampleRun.start SampleRun.messages))
    = drop k (outgoingFriendRequests SampleRun.start)
    ∧ sentEvents (out_trace (run SamplePair.E0 SampleRun.start SampleRun.messages))
      = filter (λ r, out_Username r ≠ "")
          (take k (outgoingFriendRequests SampleRun.start)).
Proof.
  apply (run_sends_in_queue_order SamplePair.E0 SampleRun.start _ SampleRun.messages).
  vm_compute. reflexivity.
Defined.

Lemma run_noPendingPair_witness :
  noPendingPair (out_client (run SamplePair.E0 SampleRun.start SampleRun.messages)).
Proof.
  apply (run_noPendingPair SamplePair.E0 SampleRun.start SampleRun.messages).
  intros i s Hi. simpl in Hi. by apply elem_of_nil in Hi.
Defined.

Lemma run_allSigsVerified_witness :
  allSigsVerified SamplePair.E0
    (out_client (run SamplePair.E0 SampleRun.start SampleRun.messages)).
Proof.
  apply (run_allSigsVerified SamplePair.E0 SampleRun.start SampleRun.messages).
  intros r st H. simpl in H. rewrite lookup_empty in H. discriminate.
Defined.

Lemma sendAddFriendOnion_rejected_witness :
  sendAddFriendOnion SampleMix.E0 [7%Z] (Sample.alice [SampleSend.bobRequest] [])
    SampleRun.badMix
  = Returned (Sample.alice [SampleSend.bobRequest] [])
      [HandlerError (VerifyMixSettingsFailed 3 (Sample.ascii_codes "m1"))].
Proof.
  destruct (sendAddFriendOnion_rejected SampleMix.E0 [7%Z]
              (Sample.alice [SampleSend.bobRequest] []) SampleRun.badMix) as [_ H].
  destruct (H (newRoundState 3 Sample.config1) 0 (Sample.server "m1")) as [Hbad _].
  - vm_compute. reflexivity.
  - reflexivity.
  - intros j m Hj. lia.
  - apply (Hbad (Sample.ascii_codes "xx")); vm_compute; reflexivity.
Defined.

Lemma sendAddFriendOnion_records_sent_witness :
  ∃ dhPublic dhPrivate,
    box_GenerateKey SampleMix.E0 [7%Z] = inl (dhPublic, dhPrivate) ∧
    sentFriendRequests
      (out_client
         (sendAddFriendOnion SampleMix.E0 [7%Z]
            (Sample.alice [SampleSend.bobRequest] []) Sample.mix3))
    = [] ++
      [{| sent_ptr := 10; sent_Username := "bob"; sent_ExpectedKey := None;
          sent_Confirmation := false; sent_DialRound := 5; sent_SentRound := 3;
          sent_DHPublicKey := dhPublic; sent_DHPrivateKey := dhPrivate |}] ∧
    outgoingFriendRequests
      (out_client
         (sendAddFriendOnion SampleMix.E0 [7%Z]
            (Sample.alice [SampleSend.bobRequest] []) Sample.mix3)) = [] ∧
    incomingFriendRequests
      (out_client
         (sendAddFriendOnion SampleMix.E0 [7%Z]
            (Sample.alice [SampleSend.bobRequest] []) Sample.mix3)) = [] ∧
    friends
      (out_client
         (sendAddFriendOnion SampleMix.E0 [7%Z]
            (Sample.alice [SampleSend.bobRequest] []) Sample.mix3)) = ∅.
Proof.
  apply (sendAddFriendOnion_records_sent SampleMix.E0 (Sample_env_behaves _ _ _)
           [7%Z] (Sample.alice [SampleSend.bobRequest] []) Sample.mix3
           (newRoundState 3 Sample.config1) SampleSend.bobRequest []).
  - vm_compute. reflexivity.
  - intros [|i] mixer; simpl; intros Hm; [|destruct i; discriminate].
    injection Hm as <-. eexists. split; reflexivity.
  - reflexivity.
  - vm_compute. discriminate.
  - intros i Hi. simpl in Hi. by apply elem_of_nil in Hi.
Defined.

Lemma sendAddFriendOnion_twice_witness :
  onionsSent
    (out_trace
       (sendAddFriendOnion SampleMix.E0 [8%Z]
          (out_client
             (sendAddFriendOnion SampleMix.E0 [7%Z]
                (Sample.alice [SampleSend.bobRequest] []) Sample.mix3))
          Sample.mix3)) = 1.
Proof.
  destruct (sendAddFriendOnion_twice SampleMix.E0 (Sample_env_behaves _ _ _)
              [7%Z] [8%Z] (Sample.alice [SampleSend.bobRequest] []) Sample.mix3
              (newRoundState 3 Sample.config1)) as (_ & _ & _ & H2 & _).
  - vm_compute. reflexivity.
  - intros [|i] mixer; simpl; intros Hm; [|destruct i; discriminate].
    injection Hm as <-. eexists. split; reflexivity.
  - exact H2.
Defined.

Lemma loadAddFriendConfig_again_witness :
  loadAddFriendConfig (Sample.env Sample.persistFails (inl []) (λ _, true))
    (out_client (loadAddFriendConfig SampleMix.E0 (Sample.alice [] []) Sample.config1))
    Sample.config1
  = Panicked "failed to persist state: disk full"
      (out_client (loadAddFriendConfig SampleMix.E0 (Sample.alice [] []) Sample.config1))
      [].
Proof.
  apply (loadAddFriendConfig_again SampleMix.E0
           (Sample.env Sample.persistFails (inl []) (λ _, true)) (Sample.alice [] [])).
  - reflexivity.
  - reflexivity.
  - vm_compute. reflexivity.
Defined.

Lemma newAddFriendRound_new_config_witness :
  addFriendConfigHash
    (out_client
       (newAddFriendRound SampleMix.E0 (Sample.alice [] [])
          {| nr_Round := 4; nr_ConfigHash := "H9" |})) = "H9".
Proof.
  destruct (newAddFriendRound_new_config SampleMix.E0 (Sample.alice [] [])
              {| nr_Round := 4; nr_ConfigHash := "H9" |}) as [_ H].
  - vm_compute. reflexivity.
  - vm_compute. discriminate.
  - destruct (H {| PKGServers := []; MixServers := [];
                   CDNServer := {| Key := []; Address := "H9" |} |} eq_refl)
      as (_ & _ & Hh & _).
    exact Hh.
Defined.

Lemma extractPKGKeys_complete_witness :
  ∃ c' st',
    extractPKGKeys SampleSigned.world (Sample.alice [] []) SampleExtract.pkg3
    = Returned c' [] ∧
    addFriendRounds c' !! pr_Round SampleExtract.pkg3 = Some st' ∧
    keysAllocated 2 st' ∧
    ∀ j, j < 2 → ∃ sg, sigSlot st' j = Some (Some sg).
Proof.
  apply (extractPKGKeys_complete SampleSigned.world (Sample.alice [] [])
           SampleExtract.pkg3 (newRoundState 3 Sample.config1)).
  - vm_compute. reflexivity.
  - reflexivity.
  - reflexivity.
  - intros server Hin. simpl in Hin.
    apply elem_of_cons in Hin as [->|Hin];
      [|apply list_elem_of_singleton in Hin as ->];
      eexists _, _; vm_compute; repeat split.
Defined.

Lemma statusArgs_msg_injective_witness :
  sa_ServerSigningKey SampleStatus.argsA = sa_ServerSigningKey SampleStatus.argsB ∧
  ValidUsernameToIdentity SampleMix.E0 (sa_Username SampleStatus.argsA)
  = ValidUsernameToIdentity SampleMix.E0 (sa_Username SampleStatus.argsB) ∧
  sa_Message SampleStatus.argsA = sa_Message SampleStatus.argsB.
Proof.
  apply (statusArgs_msg_injective SampleMix.E0 SampleStatus.argsA SampleStatus.argsB);
    reflexivity.
Defined.

Lemma statusHandler_ok_iff_witness :
  statusHandler SampleMix.E0 SampleStatus.server SampleStatus.aliceBody
  = HttpOK (bytes_of_string "{}").
Proof.
  destruct (statusHandler_ok_iff SampleMix.E0 SampleStatus.server SampleStatus.aliceBody)
    as [[_ H] _].
  apply H. eexists _, _, _. vm_compute. repeat split.
Defined.

Lemma Send_write_failure_keeps_lock_witness :
  ∃ conn',
    Send SampleConn.marshal SampleConn.write SampleConn.open "bad" [1%Z]
    = SendReturned (Some "broken pipe") conn' ∧
    conn_closed conn' = true ∧
    conn_written conn' = conn_written SampleConn.open ∧
    ∀ msgID' v' msg',
      SampleConn.marshal v' = inl msg' →
      Send SampleConn.marshal SampleConn.write conn' msgID' v' = SendBlocked conn'.
Proof.
  destruct (Send_write_failure_keeps_lock SampleConn.marshal SampleConn.write
              SampleConn.open "bad" [1%Z]) as [_ H].
  apply (H [1%Z] "broken pipe"); reflexivity.
Defined.

Lemma Send_twice_witness :
  ∃ conn2,
    Send SampleConn.marshal SampleConn.write
      {| conn_locked := false; conn_closed := false;
         conn_written := [{| env_ID := "onion"; env_Message := [1%Z] |}] |}
      "onion" [2%Z]
    = SendReturned None conn2 ∧
    conn_locked conn2 = false ∧
    conn_written conn2
    = conn_written SampleConn.open
        ++ [{| env_ID := "onion"; env_Message := [1%Z] |};
            {| env_ID := "onion"; env_Message := [2%Z] |}].
Proof.
  apply (Send_twice SampleConn.marshal SampleConn.write SampleConn.open
           "onion" "onion" [1%Z] [2%Z] [1%Z] [2%Z]); reflexivity.
Defined.

Lemma Connect_all_or_nothing_witness :
  cc_connected (conn_client (Connect (SampleConn.world true) SampleConn.offline)) = true.
Proof.
  destruct (Connect_all_or_nothing (SampleConn.world true) SampleConn.offline) as [_ H].
  destruct (H eq_refl) as [Hok _]. by destruct (Hok eq_refl) as [Hc _].
Defined.

Lemma Connect_second_half_fails_witness :
  conn_error (Connect (SampleConn.world false) SampleConn.offline)
  = Some (Some (FetchingConfigFailed "dialing" "not found")) ∧
  conn_effects (Connect (SampleConn.world false) SampleConn.offline)
  = [KeywheelPersisted] ++ [Dialed 30 ("wss://" +:+ "coordinator" +:+ "/addfriend/ws")] ∧
  cc_addFriendConn (conn_client (Connect (SampleConn.world false) SampleConn.offline))
  = cc_addFriendConn SampleConn.offline.
Proof.
  destruct (Connect_second_half_fails (SampleConn.world false) SampleConn.offline
              SampleConn.offline [KeywheelPersisted] "coordinator" [1%Z] 30)
    as [H _]; try reflexivity.
  apply (H "not found"). reflexivity.
Defined.

Lemma Close_closes_both_witness :
  connectedHasConns
    (conn_client
       (Close (SampleConn.world true)
          (conn_client (Connect (SampleConn.world true) SampleConn.offline)))).
Proof.
  destruct (Close_closes_both (SampleConn.world true)
              (conn_client (Connect (SampleConn.world true) SampleConn.offline)))
    as (_ & H & _).
  - intros _. vm_compute. split; by eexists.
  - exact H.
Defined.
